(** * okx_bot: strategy state machine, FIFO realized-PnL ledger, controller

    A shallow embedding of the trading bot's core:

    - [TrendRSI]: [TrendRSIStrategy.check_signals] of
      [okx_bot/strategies/trend_rsi.py];
    - [Ledger]: [BotController.calculate_daily_realized_pnl] of
      [okx_bot/server.py], over a store of Python dict objects so that
      aliasing between the trade log and the FIFO inventory is visible;
    - [Controller]: [BotController]'s [run_loop] body, [execute_order],
      [update_history_data], [start], [stop] and [get_status].

    Conventions.  A Python [float] is a binary64 primitive float, with the
    comparisons and arithmetic of IEEE 754 (so a comparison with NaN is
    false).  A Python exception is an explicit result [Raise]; the calls to
    the exchange, the clock and the [datetime] library are inputs of the
    functions that make them.  Console output is not modelled. *)

From Stdlib Require Import ZArith List String Ascii Floats Bool Lia.
From Stdlib Require Import Permutation DecimalString.
From Stdlib Require OrderedTypeEx.
From stdpp Require Import base gmap strings list.

Open Scope float_scope.
Set Warnings "-inexact-float".

(** Python writes [a > b] and [a >= b]; IEEE gives them the meaning of
    [b < a] and [b <= a]. *)
Definition gtb (a b : float) : bool := b <? a.
Definition geb (a b : float) : bool := b <=? a.
Infix ">?" := gtb (at level 70, no associativity) : float_scope.
Infix ">=?" := geb (at level 70, no associativity) : float_scope.

(** ** Signals *)

Inductive Signal : Type := BUY | SELL.

Definition Signal_eqb (a b : Signal) : bool :=
  match a, b with BUY, BUY | SELL, SELL => true | _, _ => false end.

(** * The Trend+RSI strategy ([okx_bot/strategies/trend_rsi.py]) *)

Module TrendRSI.

(** [self.position] is [None], ['LONG'] or ['SHORT']; [None] is the flat
    phase. *)
Inductive Position : Type := LONG | SHORT.

(** The columns of the indicator table that [check_signals] reads. *)
Record Row : Type := mkRow { close : float; rsi : float; sma_20 : float }.

(** The fields of a [TrendRSIStrategy] that [check_signals] reads or
    writes.  [df] is [None] until the first successful [update]. *)
Record Strategy : Type := mkStrategy {
  df : option (list Row);
  position : option Position;
  entry_price : float;
  sl_pct : float;
  tp_pct : float;
  rsi_buy_thresh : float;
  rsi_sell_thresh : float
}.

(** [TrendRSIStrategy.__init__] *)
Definition init : Strategy :=
  {| df := None; position := None; entry_price := 0;
     sl_pct := 0.03; tp_pct := 0.06;
     rsi_buy_thresh := 30; rsi_sell_thresh := 70 |}.

Definition set_df (s : Strategy) (d : option (list Row)) : Strategy :=
  {| df := d; position := position s; entry_price := entry_price s;
     sl_pct := sl_pct s; tp_pct := tp_pct s;
     rsi_buy_thresh := rsi_buy_thresh s;
     rsi_sell_thresh := rsi_sell_thresh s |}.

Definition set_position (s : Strategy) (p : option Position) : Strategy :=
  {| df := df s; position := p; entry_price := entry_price s;
     sl_pct := sl_pct s; tp_pct := tp_pct s;
     rsi_buy_thresh := rsi_buy_thresh s;
     rsi_sell_thresh := rsi_sell_thresh s |}.

Definition set_entry_price (s : Strategy) (p : float) : Strategy :=
  {| df := df s; position := position s; entry_price := p;
     sl_pct := sl_pct s; tp_pct := tp_pct s;
     rsi_buy_thresh := rsi_buy_thresh s;
     rsi_sell_thresh := rsi_sell_thresh s |}.

(** [update]: the candles come from the exchange and the indicator columns
    from pandas; both are an input here, [fetched] being the table with its
    indicators, [None] when [fetch_data] returned [None] or an empty frame.
    Then the strategy keeps the table it had. *)
Definition update (s : Strategy) (fetched : option (list Row)) : Strategy :=
  match fetched with
  | None | Some [] => s
  | Some rows => set_df s (Some rows)
  end.

(** The row [check_signals] evaluates: [self.df.iloc[-1]], after the guard
    [self.df is None or len(self.df) < 2]. *)
Definition current_row (s : Strategy) : option Row :=
  match df s with
  | None => None
  | Some rows => if (length rows <? 2)%nat then None else last rows
  end.

(** The entry block, under [if not self.position]: [Some] is a [return]. *)
Definition entry_block (s : Strategy) (price rsi sma : float)
  : option (Signal * Strategy) :=
  match position s with
  | None =>
      if (price >? sma) && (rsi <? rsi_buy_thresh s) then
        Some (BUY, set_entry_price (set_position s (Some LONG)) price)
      else if (price <? sma) && (rsi >? rsi_sell_thresh s) then
        Some (SELL, set_entry_price (set_position s (Some SHORT)) price)
      else None
  | Some _ => None
  end.

(** The three exit predicates of a long position, in the source's order. *)
Definition long_stop_loss (s : Strategy) (price : float) : bool :=
  price <=? entry_price s * (1 - sl_pct s).
Definition long_take_profit (s : Strategy) (price : float) : bool :=
  price >=? entry_price s * (1 + tp_pct s).
Definition long_rsi_exit (s : Strategy) (rsi : float) : bool :=
  rsi >? rsi_sell_thresh s.

Definition long_exit_block (s : Strategy) (price rsi : float)
  : option (Signal * Strategy) :=
  match position s with
  | Some LONG =>
      if long_stop_loss s price then Some (SELL, set_position s None)
      else if long_take_profit s price then Some (SELL, set_position s None)
      else if long_rsi_exit s rsi then Some (SELL, set_position s None)
      else None
  | _ => None
  end.

Definition short_stop_loss (s : Strategy) (price : float) : bool :=
  price >=? entry_price s * (1 + sl_pct s).
Definition short_take_profit (s : Strategy) (price : float) : bool :=
  price <=? entry_price s * (1 - tp_pct s).
Definition short_rsi_exit (s : Strategy) (rsi : float) : bool :=
  rsi <? rsi_buy_thresh s.

Definition short_exit_block (s : Strategy) (price rsi : float)
  : option (Signal * Strategy) :=
  match position s with
  | Some SHORT =>
      if short_stop_loss s price then Some (BUY, set_position s None)
      else if short_take_profit s price then Some (BUY, set_position s None)
      else if short_rsi_exit s rsi then Some (BUY, set_position s None)
      else None
  | _ => None
  end.

(** [check_signals]: the signal returned and the strategy after the call.
    The three blocks run in the source's order; a block that does not
    return leaves the strategy as it was. *)
Definition check_signals (s : Strategy) : option Signal * Strategy :=
  match current_row s with
  | None => (None, s)
  | Some curr =>
      let price := close curr in
      let rsi := rsi curr in
      let sma := sma_20 curr in
      match entry_block s price rsi sma with
      | Some (sig, s') => (Some sig, s')
      | None =>
          match long_exit_block s price rsi with
          | Some (sig, s') => (Some sig, s')
          | None =>
              match short_exit_block s price rsi with
              | Some (sig, s') => (Some sig, s')
              | None => (None, s)
              end
          end
      end
  end.

(** [get_next_action] returns a message for the dashboard; the constructor
    is the message's case, without the numbers formatted into it. *)
Inductive NextAction : Type :=
  | Initializing
  | LongEntry | ShortEntry | WaitingForSignal
  | ExitStopLoss | ExitTakeProfit | ExitRSI
  | HoldLong | HoldShort.

Definition get_next_action (s : Strategy) (row : Row) : NextAction :=
  if is_nan (sma_20 row) || is_nan (rsi row) then Initializing
  else
    let price := close row in
    let rsi := rsi row in
    let sma := sma_20 row in
    match position s with
    | None =>
        if (price >? sma) && (rsi <? rsi_buy_thresh s) then LongEntry
        else if (price <? sma) && (rsi >? rsi_sell_thresh s) then ShortEntry
        else WaitingForSignal
    | Some LONG =>
        if long_stop_loss s price then ExitStopLoss
        else if long_take_profit s price then ExitTakeProfit
        else if long_rsi_exit s rsi then ExitRSI
        else HoldLong
    | Some SHORT =>
        if short_stop_loss s price then ExitStopLoss
        else if short_take_profit s price then ExitTakeProfit
        else if short_rsi_exit s rsi then ExitRSI
        else HoldShort
    end.

(** [get_strategy_info]: [None] is the empty dict; ["sl"] and ["tp"] are
    present only with a position. *)
Record StrategyInfo : Type := mkInfo {
  info_sma_20 : float;
  info_rsi : float;
  info_next_action : NextAction;
  info_target_price : float;
  info_position_status : option (Position * float);
  info_sl : option float;
  info_tp : option float
}.

Definition get_strategy_info (s : Strategy) : option StrategyInfo :=
  match df s with
  | None => None
  | Some rows =>
      match last rows with
      | None => None
      | Some row =>
          Some {| info_sma_20 := sma_20 row;
                  info_rsi := rsi row;
                  info_next_action := get_next_action s row;
                  info_target_price := sma_20 row;
                  info_position_status :=
                    match position s with
                    | None => None
                    | Some p => Some (p, entry_price s)
                    end;
                  info_sl :=
                    match position s with
                    | None => None
                    | Some LONG => Some (entry_price s * (1 - sl_pct s))
                    | Some SHORT => Some (entry_price s * (1 + sl_pct s))
                    end;
                  info_tp :=
                    match position s with
                    | None => None
                    | Some LONG => Some (entry_price s * (1 + tp_pct s))
                    | Some SHORT => Some (entry_price s * (1 - tp_pct s))
                    end |}
      end
  end.

End TrendRSI.

(** * Python objects, exceptions and the store *)

Inductive PyExn : Type :=
  TypeError | KeyError | ValueError | AttributeError | IndexError.

Inductive result (A : Type) : Type :=
  | Ok (a : A)
  | Raise (e : PyExn).
Arguments Ok {A} a.
Arguments Raise {A} e.

(** A calendar date, as [datetime.date] compares them. *)
Record Date : Type := mkDate { year : Z; month : Z; day : Z }.

Definition Date_eqb (a b : Date) : bool :=
  (year a =? year b)%Z && (month a =? month b)%Z && (day a =? day b)%Z.

(** [str.upper] on the ASCII letters. *)
Definition upper_ascii (c : ascii) : ascii :=
  let n := nat_of_ascii c in
  if ((97 <=? n) && (n <=? 122))%nat then ascii_of_nat (n - 32) else c.

Fixpoint upper (s : string) : string :=
  match s with
  | EmptyString => EmptyString
  | String c s' => String (upper_ascii c) (upper s')
  end.

(** The ['time'] of a trade record is a [str] or a number of
    milliseconds. *)
Inductive PyTime : Type :=
  | TStr (s : string)
  | TInt (ms : Z).

(** A trade record, the dict
    [{'time', 'side', 'price', 'amount', 'symbol'}]; the older controller
    writes no ['symbol'].  [price] and [amount] are [float(t['price'])] and
    [float(t['amount'])]. *)
Record Trade : Type := mkTrade {
  time : PyTime;
  side : string;
  price : float;
  amount : float;
  symbol : option string
}.

(** An inventory batch, the dict [{'price', 'amount'}]. *)
Record Batch : Type := mkBatch { batch_price : float; batch_amount : float }.

(** The dict objects of the store.  A reference is an index in the store;
    a new object goes at the end. *)
Inductive PyDict : Type :=
  | DTrade (t : Trade)
  | DBatch (b : Batch).

Abbreviation loc := nat (only parsing).
Abbreviation heap := (list PyDict) (only parsing).

(** ** Computations on the store that may raise *)

Definition M (A : Type) : Type := heap -> result A * heap.

Definition ret {A} (a : A) : M A := fun h => (Ok a, h).

Definition bind {A B} (m : M A) (k : A -> M B) : M B :=
  fun h =>
    match m h with
    | (Ok a, h') => k a h'
    | (Raise e, h') => (Raise e, h')
    end.

Definition raise {A} (e : PyExn) : M A := fun h => (Raise e, h).

(** [try: m  except: handler] *)
Definition try_except {A} (m : M A) (handler : M A) : M A :=
  fun h =>
    match m h with
    | (Ok a, h') => (Ok a, h')
    | (Raise _, h') => handler h'
    end.

Notation "'let*' x ':=' m 'in' k" := (bind m (fun x => k))
  (at level 10, x name, m at level 100, k at level 200).
Notation "'let*' ' p ':=' m 'in' k" := (bind m (fun x => let 'p := x in k))
  (at level 10, p pattern, m at level 100, k at level 200).

(** A dict literal makes a new object. *)
Definition alloc (d : PyDict) : M loc :=
  fun h => (Ok (length h), h ++ [d]).

Definition get_trade (l : loc) : M Trade :=
  fun h =>
    match h !! l with
    | Some (DTrade t) => (Ok t, h)
    | _ => (Raise KeyError, h)
    end.

Definition get_batch (l : loc) : M Batch :=
  fun h =>
    match h !! l with
    | Some (DBatch b) => (Ok b, h)
    | _ => (Raise KeyError, h)
    end.

(** [batch['amount'] = v] *)
Definition set_batch_amount (l : loc) (v : float) : M unit :=
  fun h =>
    match h !! l with
    | Some (DBatch b) =>
        (Ok tt, <[l := DBatch {| batch_price := batch_price b;
                                 batch_amount := v |}]> h)
    | _ => (Raise KeyError, h)
    end.

(** [for x in l: st = body(st, x)] *)
Fixpoint for_each {A S} (body : S -> A -> M S) (l : list A) (st : S) : M S :=
  match l with
  | [] => ret st
  | x :: l' => let* st' := body st x in for_each body l' st'
  end.

(** ** [sorted(l, key=...)] *)

(** A stable insertion sort that compares keys with [<] only, as Python's
    sort does. *)
Section Sort.
Context {K A : Type} (ltb : K -> K -> bool).

Fixpoint insert_sorted (x : K * A) (s : list (K * A)) : list (K * A) :=
  match s with
  | [] => [x]
  | y :: s' =>
      if ltb (fst y) (fst x) then y :: insert_sorted x s' else x :: y :: s'
  end.

Fixpoint stable_sort (l : list (K * A)) : list (K * A) :=
  match l with
  | [] => []
  | x :: l' => insert_sorted x (stable_sort l')
  end.
End Sort.

(** The keys, when they are all [str], or all [int]. *)
Fixpoint str_keys {A} (l : list (PyTime * A)) : option (list (string * A)) :=
  match l with
  | [] => Some []
  | (TStr s, a) :: l' =>
      match str_keys l' with Some r => Some ((s, a) :: r) | None => None end
  | (TInt _, _) :: _ => None
  end.

Fixpoint int_keys {A} (l : list (PyTime * A)) : option (list (Z * A)) :=
  match l with
  | [] => Some []
  | (TInt z, a) :: l' =>
      match int_keys l' with Some r => Some ((z, a) :: r) | None => None end
  | (TStr _, _) :: _ => None
  end.

(** Two [str] compare by code points and two [int] by value; [<] between a
    [str] and an [int] raises [TypeError], and sorting a list that holds
    both has to compare two such keys. *)
Definition sorted_by_key {A} (l : list (PyTime * A)) : result (list A) :=
  match str_keys l with
  | Some kl => Ok (map snd (stable_sort String.ltb kl))
  | None =>
      match int_keys l with
      | Some kl => Ok (map snd (stable_sort Z.ltb kl))
      | None => Raise TypeError
      end
  end.

(** * The FIFO ledger ([BotController.calculate_daily_realized_pnl]) *)

Module Ledger.

(** The local variables of the function that the loop updates.
    [inventories] maps a symbol to its list of batches; a list holds
    references, since the loop updates a batch in place. *)
Record Locals : Type := mkLocals {
  inventories : gmap string (list loc);
  daily_realized_pnl : float
}.

Section WithClock.
(** [datetime.now().date()], the date of [datetime.fromisoformat(s)]
    ([None] when it raises [ValueError]) and the date of
    [datetime.fromtimestamp(ms / 1000)] ([None] when it raises). *)
Context (today : Date)
        (fromisoformat : string -> option Date)
        (fromtimestamp : Z -> option Date).

(** [sorted(self.trades, key=lambda x: x['time'])] *)
Definition sorted_trades (trades : list loc) : M (list loc) :=
  let* keyed :=
    for_each (fun acc t => let* d := get_trade t in
                           ret (acc ++ [(time d, t)]))
             trades [] in
  match sorted_by_key keyed with
  | Ok l => ret l
  | Raise e => raise e
  end.

(** The [while qty_to_fill > 0 and inventory] loop: the inventory, the
    quantity left to fill and the cost basis when the loop ends.  After
    a partial fill [qty_to_fill] is 0 and the loop test fails. *)
Fixpoint fill (inventory : list loc) (qty_to_fill cost_basis : float)
  : M (list loc * float * float) :=
  if qty_to_fill >? 0 then
    match inventory with
    | [] => ret (inventory, qty_to_fill, cost_basis)
    | batch :: rest =>
        let* b := get_batch batch in
        if batch_amount b >? qty_to_fill then
          let* _ := set_batch_amount batch (batch_amount b - qty_to_fill) in
          ret (inventory, 0, cost_basis + batch_price b * qty_to_fill)
        else
          fill rest (qty_to_fill - batch_amount b)
               (cost_basis + batch_price b * batch_amount b)
    end
  else ret (inventory, qty_to_fill, cost_basis).

(** The body of [for t in sorted_trades], from [is_today] on. *)
Definition process (st : Locals) (d : Trade) (dt : Date) : M Locals :=
  let is_today := Date_eqb dt today in
  let side := upper (side d) in
  let price := price d in
  let amount := amount d in
  let symbol := default "BTC/USDT"%string (symbol d) in
  let inventory := default [] (inventories st !! symbol) in
  if String.eqb side "BUY" then
    let* l :=
      alloc (DBatch {| batch_price := price; batch_amount := amount |}) in
    ret {| inventories := <[symbol := inventory ++ [l]]> (inventories st);
           daily_realized_pnl := daily_realized_pnl st |}
  else if String.eqb side "SELL" then
    let* '(inventory', qty_to_fill, cost_basis) := fill inventory amount 0 in
    let cost_basis :=
      if qty_to_fill >? 0 then cost_basis + price * qty_to_fill
      else cost_basis in
    let revenue := price * amount in
    let trade_pnl := revenue - cost_basis in
    ret {| inventories := <[symbol := inventory']> (inventories st);
           daily_realized_pnl :=
             if is_today then daily_realized_pnl st + trade_pnl
             else daily_realized_pnl st |}
  else
    ret {| inventories := <[symbol := inventory]> (inventories st);
           daily_realized_pnl := daily_realized_pnl st |}.

(** One iteration: a [str] time that does not parse skips the record
    ([continue]); a number that [fromtimestamp] refuses raises. *)
Definition loop_body (st : Locals) (t : loc) : M Locals :=
  let* d := get_trade t in
  match time d with
  | TStr s =>
      match fromisoformat s with
      | None => ret st
      | Some dt => process st d dt
      end
  | TInt ms =>
      match fromtimestamp ms with
      | None => raise ValueError
      | Some dt => process st d dt
      end
  end.

(** The body of the [try]: the locals when the loop ends. *)
Definition fifo_run (trades : list loc) : M Locals :=
  let* sorted := sorted_trades trades in
  for_each loop_body sorted
           {| inventories := ∅; daily_realized_pnl := 0 |}.

Definition calculate_daily_realized_pnl (trades : list loc) : M float :=
  try_except (let* st := fifo_run trades in ret (daily_realized_pnl st))
             (ret 0).

End WithClock.

End Ledger.

(** * The ledger of the older controller *)

(** [calculate_daily_realized_pnl] of the single-symbol controller
    ([okx_bot/server.py] at the top of the repository): its records carry
    no symbol and it keeps one inventory. *)
Module LegacyLedger.

Record Locals : Type := mkLocals {
  inventory : list loc;
  daily_realized_pnl : float
}.

Section WithClock.
Context (today : Date)
        (fromisoformat : string -> option Date)
        (fromtimestamp : Z -> option Date).

Definition process (st : Locals) (d : Trade) (dt : Date) : M Locals :=
  let is_today := Date_eqb dt today in
  let side := upper (side d) in
  let price := price d in
  let amount := amount d in
  if String.eqb side "BUY" then
    let* l :=
      alloc (DBatch {| batch_price := price; batch_amount := amount |}) in
    ret {| inventory := inventory st ++ [l];
           daily_realized_pnl := daily_realized_pnl st |}
  else if String.eqb side "SELL" then
    let* '(inventory', qty_to_fill, cost_basis) :=
      Ledger.fill (inventory st) amount 0 in
    let cost_basis :=
      if qty_to_fill >? 0 then cost_basis + price * qty_to_fill
      else cost_basis in
    let revenue := price * amount in
    let trade_pnl := revenue - cost_basis in
    ret {| inventory := inventory';
           daily_realized_pnl :=
             if is_today then daily_realized_pnl st + trade_pnl
             else daily_realized_pnl st |}
  else ret st.

Definition loop_body (st : Locals) (t : loc) : M Locals :=
  let* d := get_trade t in
  match time d with
  | TStr s =>
      match fromisoformat s with
      | None => ret st
      | Some dt => process st d dt
      end
  | TInt ms =>
      match fromtimestamp ms with
      | None => raise ValueError
      | Some dt => process st d dt
      end
  end.

Definition fifo_run (trades : list loc) : M Locals :=
  let* sorted := Ledger.sorted_trades trades in
  for_each loop_body sorted {| inventory := []; daily_realized_pnl := 0 |}.

Definition calculate_daily_realized_pnl (trades : list loc) : M float :=
  try_except (let* st := fifo_run trades in ret (daily_realized_pnl st))
             (ret 0).

End WithClock.

End LegacyLedger.

(** * The ledger as the specification words it *)

(** Written from the specification's words, to be compared with [Ledger]:
    a time-ordered log of trade records; per symbol, a FIFO queue of open
    lots built from that symbol's trades alone; a sell's realized PnL is
    its revenue minus the cost basis of what it withdraws from the queue;
    the day's figure adds the PnL of the sells dated that day. *)
Module TradeLedger.

Record TradeRecord : Type := mkRecord {
  tr_time : PyTime;
  tr_day : Date;
  tr_symbol : string;
  tr_side : Signal;
  tr_price : float;
  tr_amount : float
}.

(** Withdraw [sold] from the front of the queue, whole lots and then
    possibly part of one, adding the cost of each consumed portion to
    [cost_basis]: the cost basis, the queue that remains and the amount
    that found no lot. *)
Fixpoint withdraw (queue : list Batch) (sold cost_basis : float)
  : float * list Batch * float :=
  match queue with
  | [] => (cost_basis, [], sold)
  | lot :: queue' =>
      if sold >? 0 then
        if batch_amount lot >? sold then
          (cost_basis + batch_price lot * sold,
           {| batch_price := batch_price lot;
              batch_amount := batch_amount lot - sold |} :: queue',
           0)
        else
          withdraw queue' (sold - batch_amount lot)
                   (cost_basis + batch_price lot * batch_amount lot)
      else (cost_basis, queue, sold)
  end.

(** The queue after one trade: a buy pushes a lot, a sell withdraws. *)
Definition apply_trade (queue : list Batch) (r : TradeRecord) : list Batch :=
  match tr_side r with
  | BUY => queue ++ [{| batch_price := tr_price r;
                        batch_amount := tr_amount r |}]
  | SELL => snd (fst (withdraw queue (tr_amount r) 0))
  end.

(** The open lots after a sub-log. *)
Definition open_lots (sub : list TradeRecord) : list Batch :=
  fold_left apply_trade sub [].

(** The trades of one symbol. *)
Definition sub_log (sym : string) (log : list TradeRecord)
  : list TradeRecord :=
  List.filter (fun r => String.eqb (tr_symbol r) sym) log.

(** Realized PnL of a sell against a queue: the unmatched remainder costs
    the sale price. *)
Definition sell_pnl (queue : list Batch) (r : TradeRecord) : float :=
  let '(consumed_cost, _, unmatched) := withdraw queue (tr_amount r) 0 in
  let cost_basis :=
    if unmatched >? 0 then consumed_cost + tr_price r * unmatched
    else consumed_cost in
  tr_price r * tr_amount r - cost_basis.

(** The sum over a time-ordered log: [earlier] is what came before
    [later]. *)
Fixpoint realized (query_day : Date) (earlier later : list TradeRecord)
  (total : float) : float :=
  match later with
  | [] => total
  | r :: later' =>
      let total' :=
        match tr_side r with
        | SELL =>
            if Date_eqb (tr_day r) query_day then
              total + sell_pnl (open_lots (sub_log (tr_symbol r) earlier)) r
            else total
        | BUY => total
        end in
      realized query_day (earlier ++ [r]) later' total'
  end.

(** Ascending by the ['time'] key as [sorted] compares keys, stable: two
    [str] by code points, two numbers by value.  It is the order of the
    instants only when the keys are of one form. *)
Definition in_key_order (log : list TradeRecord)
  : result (list TradeRecord) :=
  sorted_by_key (map (fun r => (tr_time r, r)) log).

Definition realized_pnl_for (query_day : Date) (log : list TradeRecord)
  : result float :=
  match in_key_order log with
  | Ok sorted => Ok (realized query_day [] sorted 0)
  | Raise e => Raise e
  end.

(** How a stored dict reads as a trade record: its time has a date, its
    side is a buy or a sell in any letter case, and a record without
    symbol is a BTC/USDT trade. *)
Section Reading.
Context (fromisoformat : string -> option Date)
        (fromtimestamp : Z -> option Date).

Definition read_day (t : PyTime) : option Date :=
  match t with
  | TStr s => fromisoformat s
  | TInt ms => fromtimestamp ms
  end.

Definition read_side (s : string) : option Signal :=
  if String.eqb (upper s) "BUY" then Some BUY
  else if String.eqb (upper s) "SELL" then Some SELL
  else None.

Definition read_trade (d : Trade) : option TradeRecord :=
  match read_day (time d), read_side (side d) with
  | Some dt, Some sd =>
      Some {| tr_time := time d; tr_day := dt;
              tr_symbol := default "BTC/USDT"%string (symbol d);
              tr_side := sd;
              tr_price := price d; tr_amount := amount d |}
  | _, _ => None
  end.

Fixpoint read_log (h : heap) (trades : list loc)
  : option (list TradeRecord) :=
  match trades with
  | [] => Some []
  | l :: trades' =>
      match h !! l with
      | Some (DTrade d) =>
          match read_trade d, read_log h trades' with
          | Some r, Some log => Some (r :: log)
          | _, _ => None
          end
      | _ => None
      end
  end.
End Reading.

End TradeLedger.

(** * The controller ([BotController] of [okx_bot/server.py]) *)

Module Controller.
Import TrendRSI.

(** [{"time": ..., "value": ...}] *)
Record HistoryPoint : Type := mkPoint { hp_time : float; hp_value : float }.

(** What [client.get_balance()] returns when it is a dict: the ['total']
    map, in the dict's order, when the dict has it, and whether the dict
    has any other key.  [self.balance] is such a dict or [None]. *)
Record Balance : Type := mkBalance {
  total : option (list (string * float));
  other_keys : bool
}.

(** [self.balance and 'total' in self.balance] *)
Definition balance_total (b : option Balance)
  : option (list (string * float)) :=
  match b with
  | Some bal => total bal
  | None => None
  end.

(** [if bal:] an empty dict and [None] are false. *)
Definition balance_truthy (b : option Balance) : bool :=
  match b with
  | Some bal => match total bal with Some _ => true | None => other_keys bal end
  | None => false
  end.

(** [d.get(k, 0)] on a dict kept in insertion order. *)
Fixpoint dict_get {V} (d : list (string * V)) (k : string) : option V :=
  match d with
  | [] => None
  | (k', v) :: d' => if String.eqb k' k then Some v else dict_get d' k
  end.

(** [d[k] = v]: a key already there keeps its place. *)
Fixpoint dict_set {V} (d : list (string * V)) (k : string) (v : V)
  : list (string * V) :=
  match d with
  | [] => [(k, v)]
  | (k', v') :: d' =>
      if String.eqb k' k then (k, v) :: d' else (k', v') :: dict_set d' k v
  end.

(** [sub in s] on strings. *)
Fixpoint contains (sub s : string) : bool :=
  String.prefix sub s ||
  match s with
  | EmptyString => false
  | String _ s' => contains sub s'
  end.

(** The fill the exchange reports for an order: ['timestamp'] may be
    missing or [None]; [order_average] and [order_price] are
    [order.get('average')] and [order.get('price')]. *)
Inductive Field (A : Type) : Type :=
  | Absent
  | PyNone
  | Value (a : A).
Arguments Absent {A}.
Arguments PyNone {A}.
Arguments Value {A} a.

Record Order : Type := mkOrder {
  order_timestamp : Field Z;
  order_average : option float;
  order_price : option float
}.

(** What [execute_order] sends to [client.place_order]. *)
Record OrderRequest : Type := mkRequest {
  req_symbol : string;
  req_side : Signal;
  req_amount : float
}.

Record ScanResult : Type := mkScan {
  scan_symbol : string;
  scan_change : float;
  scan_price : float;
  scan_volume : float
}.

(** The attributes of the controller.  [session_start_nav] is not set by
    [__init__]: [None] is the attribute missing.  [trades] holds
    references to the trade dicts of the store. *)
Record Controller : Type := mkController {
  is_running : bool;
  task : bool;
  strategies : list (string * Strategy);
  balance : option Balance;
  trades : list loc;
  market_prices : gmap string float;
  last_trade_times : gmap string float;
  price_history : gmap string (list HistoryPoint);
  pnl_history : list HistoryPoint;
  last_history_update : float;
  mode : string;
  active_symbols : list string;
  scanner_results : list ScanResult;
  last_signal : option (string * Signal);
  session_start_nav : option float
}.

(** [BotController.__init__] *)
Definition init : Controller :=
  {| is_running := false; task := false; strategies := [];
     balance := Some {| total := None; other_keys := false |};
     trades := []; market_prices := ∅; last_trade_times := ∅;
     price_history := ∅; pnl_history := []; last_history_update := 0;
     mode := "SINGLE"; active_symbols := []; scanner_results := [];
     last_signal := None; session_start_nav := None |}.

Definition set_is_running (c : Controller) (v : bool) : Controller :=
  mkController v (task c) (strategies c) (balance c) (trades c)
    (market_prices c) (last_trade_times c) (price_history c) (pnl_history c)
    (last_history_update c) (mode c) (active_symbols c) (scanner_results c)
    (last_signal c) (session_start_nav c).

Definition set_task (c : Controller) (v : bool) : Controller :=
  mkController (is_running c) v (strategies c) (balance c) (trades c)
    (market_prices c) (last_trade_times c) (price_history c) (pnl_history c)
    (last_history_update c) (mode c) (active_symbols c) (scanner_results c)
    (last_signal c) (session_start_nav c).

Definition set_strategies (c : Controller) (v : list (string * Strategy))
  : Controller :=
  mkController (is_running c) (task c) v (balance c) (trades c)
    (market_prices c) (last_trade_times c) (price_history c) (pnl_history c)
    (last_history_update c) (mode c) (active_symbols c) (scanner_results c)
    (last_signal c) (session_start_nav c).

Definition set_balance (c : Controller) (v : option Balance) : Controller :=
  mkController (is_running c) (task c) (strategies c) v (trades c)
    (market_prices c) (last_trade_times c) (price_history c) (pnl_history c)
    (last_history_update c) (mode c) (active_symbols c) (scanner_results c)
    (last_signal c) (session_start_nav c).

Definition set_trades (c : Controller) (v : list loc) : Controller :=
  mkController (is_running c) (task c) (strategies c) (balance c) v
    (market_prices c) (last_trade_times c) (price_history c) (pnl_history c)
    (last_history_update c) (mode c) (active_symbols c) (scanner_results c)
    (last_signal c) (session_start_nav c).

Definition set_market_prices (c : Controller) (v : gmap string float)
  : Controller :=
  mkController (is_running c) (task c) (strategies c) (balance c) (trades c)
    v (last_trade_times c) (price_history c) (pnl_history c)
    (last_history_update c) (mode c) (active_symbols c) (scanner_results c)
    (last_signal c) (session_start_nav c).

Definition set_last_trade_times (c : Controller) (v : gmap string float)
  : Controller :=
  mkController (is_running c) (task c) (strategies c) (balance c) (trades c)
    (market_prices c) v (price_history c) (pnl_history c)
    (last_history_update c) (mode c) (active_symbols c) (scanner_results c)
    (last_signal c) (session_start_nav c).

Definition set_price_history (c : Controller)
  (v : gmap string (list HistoryPoint)) : Controller :=
  mkController (is_running c) (task c) (strategies c) (balance c) (trades c)
    (market_prices c) (last_trade_times c) v (pnl_history c)
    (last_history_update c) (mode c) (active_symbols c) (scanner_results c)
    (last_signal c) (session_start_nav c).

Definition set_pnl_history (c : Controller) (v : list HistoryPoint)
  : Controller :=
  mkController (is_running c) (task c) (strategies c) (balance c) (trades c)
    (market_prices c) (last_trade_times c) (price_history c) v
    (last_history_update c) (mode c) (active_symbols c) (scanner_results c)
    (last_signal c) (session_start_nav c).

Definition set_last_history_update (c : Controller) (v : float)
  : Controller :=
  mkController (is_running c) (task c) (strategies c) (balance c) (trades c)
    (market_prices c) (last_trade_times c) (price_history c) (pnl_history c)
    v (mode c) (active_symbols c) (scanner_results c)
    (last_signal c) (session_start_nav c).

Definition set_mode (c : Controller) (v : string) : Controller :=
  mkController (is_running c) (task c) (strategies c) (balance c) (trades c)
    (market_prices c) (last_trade_times c) (price_history c) (pnl_history c)
    (last_history_update c) v (active_symbols c) (scanner_results c)
    (last_signal c) (session_start_nav c).

Definition set_active_symbols (c : Controller) (v : list string)
  : Controller :=
  mkController (is_running c) (task c) (strategies c) (balance c) (trades c)
    (market_prices c) (last_trade_times c) (price_history c) (pnl_history c)
    (last_history_update c) (mode c) v (scanner_results c)
    (last_signal c) (session_start_nav c).

Definition set_last_signal (c : Controller) (v : option (string * Signal))
  : Controller :=
  mkController (is_running c) (task c) (strategies c) (balance c) (trades c)
    (market_prices c) (last_trade_times c) (price_history c) (pnl_history c)
    (last_history_update c) (mode c) (active_symbols c) (scanner_results c)
    v (session_start_nav c).

Definition set_session_start_nav (c : Controller) (v : option float)
  : Controller :=
  mkController (is_running c) (task c) (strategies c) (balance c) (trades c)
    (market_prices c) (last_trade_times c) (price_history c) (pnl_history c)
    (last_history_update c) (mode c) (active_symbols c) (scanner_results c)
    (last_signal c) v.

(** ** [execute_order] *)

(** The adaptive order size: four [if 'X' in symbol] in a row, a later one
    overriding an earlier one. *)
Definition order_amount (symbol : string) : float :=
  let amount := 0.001 in
  let amount := if contains "ETC" symbol then 0.1 else amount in
  let amount := if contains "SOL" symbol then 0.1 else amount in
  let amount := if contains "DOGE" symbol then 100 else amount in
  if contains "ETH" symbol then 0.01 else amount.

Definition signal_name (sig : Signal) : string :=
  match sig with BUY => "BUY" | SELL => "SELL" end.

(** [str(n)] of an [int]. *)
Definition str_of_int (n : Z) : string := NilZero.string_of_int (Z.to_int n).

(** [str(order.get('timestamp', int(time.time()*1000)))] *)
Definition order_time (order : Order) (now_ms : Z) : string :=
  match order_timestamp order with
  | Absent => str_of_int now_ms
  | PyNone => "None"
  | Value ts => str_of_int ts
  end.

(** A number on the left of [or]: zero is false, NaN is true. *)
Definition truthy (x : option float) : option float :=
  match x with
  | Some v => if v =? 0 then None else Some v
  | None => None
  end.

(** [order.get('average') or order.get('price') or
    strategy.df.iloc[-1]['close']] *)
Definition fill_price (order : Order) (strategy : Strategy) : result float :=
  match truthy (order_average order) with
  | Some v => Ok v
  | None =>
      match truthy (order_price order) with
      | Some v => Ok v
      | None =>
          match df strategy with
          | None => Raise AttributeError
          | Some rows =>
              match last rows with
              | None => Raise IndexError
              | Some row => Ok (close row)
              end
          end
      end
  end.

(** What one pass of the loop over a symbol takes from outside: the table
    [strategy.update()] fetched, [time.time()] at the cooldown check, what
    [place_order] returned ([None] when the order failed),
    [int(time.time()*1000)] and what [get_balance] returned after the
    fill. *)
Record Tick : Type := mkTick {
  tick_fetched : option (list Row);
  tick_now : float;
  tick_order : option Order;
  tick_now_ms : Z;
  tick_balance : option Balance
}.

Definition order_request (side : Signal) (symbol : string) : OrderRequest :=
  {| req_symbol := symbol; req_side := side;
     req_amount := order_amount symbol |}.

(** [execute_order], from the result of [place_order] on.  The controller
    is written only after the last expression that can raise. *)
Definition execute_order (c : Controller) (side : Signal) (symbol : string)
  (strategy : Strategy) (tk : Tick) : M Controller :=
  match tick_order tk with
  | None => ret c
  | Some order =>
      match fill_price order strategy with
      | Raise e => raise e
      | Ok p =>
          let* trade :=
            alloc (DTrade {| time := TStr (order_time order (tick_now_ms tk));
                             side := signal_name side;
                             price := p;
                             amount := order_amount symbol;
                             symbol := Some symbol |}) in
          let c := set_trades c (take 20 (trade :: trades c)) in
          ret (set_balance c (tick_balance tk))
      end
  end.

(** ** The loop of [run_loop] *)

(** The cooldown test, [(now - last_t) > 300]. *)
Definition cooldown_over (now last_t : float) : bool := now - last_t >? 300.

(** The block under [if signal:].  With the controller comes the request
    sent to the exchange, if one was.  An exception in [execute_order] is
    caught by the [try] around the pass over the symbol: the order is out
    and the trade time is not written. *)
Definition on_signal (c : Controller) (signal : Signal) (symbol : string)
  (strategy : Strategy) (tk : Tick) : M (Controller * option OrderRequest) :=
  let c := set_last_signal c (Some (symbol, signal)) in
  let now := tick_now tk in
  let last_t := default 0 (last_trade_times c !! symbol) in
  if cooldown_over now last_t then
    try_except
      (let* c := execute_order c signal symbol strategy tk in
       ret (set_last_trade_times c (<[symbol := now]> (last_trade_times c)),
            Some (order_request signal symbol)))
      (ret (c, Some (order_request signal symbol)))
  else ret (c, None).

(** One pass of [for symbol, strategy in self.strategies.items()]. *)
Definition symbol_step (c : Controller) (symbol : string) (tk : Tick)
  : M (Controller * option OrderRequest) :=
  match dict_get (strategies c) symbol with
  | None => ret (c, None)
  | Some strategy =>
      let strategy := update strategy (tick_fetched tk) in
      let '(signal, strategy) := check_signals strategy in
      let c := set_strategies c (dict_set (strategies c) symbol strategy) in
      match signal with
      | Some sig => on_signal c sig symbol strategy tk
      | None => ret (c, None)
      end
  end.

Fixpoint strategies_pass (c : Controller) (symbols : list string)
  (ticks : string -> Tick) : M (Controller * list OrderRequest) :=
  match symbols with
  | [] => ret (c, [])
  | symbol :: symbols' =>
      let* '(c, sent) := symbol_step c symbol (ticks symbol) in
      let* '(c, sent') := strategies_pass c symbols' ticks in
      ret (c, option_list sent ++ sent')
  end.

(** [l[-100:]] *)
Definition last_100 {A} (l : list A) : list A := drop (length l - 100) l.

(** The net asset value: the USDT total and, for each other coin of the
    balance, its quantity at the cached price. *)
Definition cached_nav (prices : gmap string float)
  (totals : list (string * float)) : float :=
  fold_left
    (fun nav '(coin, qty) =>
       if String.eqb coin "USDT" then nav
       else nav + qty * default 0 (prices !! (coin ++ "/USDT")%string))
    totals (default 0 (dict_get totals "USDT")).

Definition record_prices (c : Controller) (now : float) : Controller :=
  fold_left
    (fun c sym =>
       match truthy (market_prices c !! sym) with
       | Some p =>
           let old := default [] (price_history c !! sym) in
           set_price_history c
             (<[sym := last_100 (old ++ [{| hp_time := now; hp_value := p |}])]>
                (price_history c))
       | None => c
       end)
    (active_symbols c) c.

(** [update_history_data]; [now] is [time.time()]. *)
Definition update_history_data (c : Controller) (now : float) : Controller :=
  if now - last_history_update c <? 10 then c
  else
    let c := set_last_history_update c now in
    let total_pnl :=
      match balance_total (balance c) with
      | Some totals =>
          let current_nav := cached_nav (market_prices c) totals in
          match truthy (session_start_nav c) with
          | Some start_nav => current_nav - start_nav
          | None => 0
          end
      | None => 0
      end in
    let c :=
      set_pnl_history c
        (last_100 (pnl_history c
                   ++ [{| hp_time := now; hp_value := total_pnl |}])) in
    record_prices c now.

(** [update_tickers], a background task: the prices fetched go into the
    cache. *)
Definition update_tickers (c : Controller) (tickers : list (string * float))
  : Controller :=
  set_market_prices c
    (fold_left (fun m '(sym, p) => <[sym := p]> m) tickers (market_prices c)).

(** What one iteration takes from outside. *)
Record Cycle : Type := mkCycle {
  cycle_ticks : string -> Tick;
  cycle_balance : option Balance;
  cycle_now : float
}.

(** One iteration of [while self.is_running], up to the sleep. *)
Definition run_loop_iteration (c : Controller) (cy : Cycle)
  : M (Controller * list OrderRequest) :=
  let* '(c, sent) :=
    strategies_pass c (map fst (strategies c)) (cycle_ticks cy) in
  let c :=
    if balance_truthy (cycle_balance cy) then set_balance c (cycle_balance cy)
    else c in
  ret (update_history_data c (cycle_now cy), sent).

(** ** [start] and [stop] *)

(** The strategy [start] builds for a symbol. *)
Definition make_strategy (sym : string) : Strategy :=
  if String.eqb sym "BTC/USDT" then
    {| df := None; position := None; entry_price := 0;
       sl_pct := 0.02; tp_pct := 0.06;
       rsi_buy_thresh := 35; rsi_sell_thresh := 70 |}
  else if String.eqb sym "ETH/USDT" then TrendRSI.init
  else
    {| df := None; position := None; entry_price := 0;
       sl_pct := 0.05; tp_pct := 0.10;
       rsi_buy_thresh := 25; rsi_sell_thresh := 70 |}.

(** The session's starting net asset value.  A coin without a cached price
    is looked up: [ticker] is [None] when [fetch_ticker] raises (the price
    stays 0) and [Some None] when the ticker's ['last'] is [None], which
    the product then refuses. *)
Fixpoint start_nav (prices : gmap string float)
  (ticker : string -> option (option float))
  (items : list (string * float)) (total_nav : float) : result float :=
  match items with
  | [] => Ok total_nav
  | (coin, qty) :: items' =>
      if String.eqb coin "USDT" then start_nav prices ticker items' total_nav
      else
        let pair := (coin ++ "/USDT")%string in
        let price := default 0 (prices !! pair) in
        if price =? 0 then
          match ticker pair with
          | Some (Some p) =>
              start_nav prices ticker items' (total_nav + qty * p)
          | Some None => Raise TypeError
          | None => start_nav prices ticker items' (total_nav + qty * price)
          end
        else start_nav prices ticker items' (total_nav + qty * price)
  end.

Inductive Reply : Type :=
  | AlreadyRunning
  | Started (mode : string)
  | AlreadyStopped
  | Stopped.

(** [start]: [fetched] is what the first [update] of each symbol fetches,
    [bal] what [get_balance] returns.  The controller is returned also when
    the call raises. *)
Definition start (c : Controller) (mode : string) (symbols : list string)
  (fetched : string -> option (list Row)) (bal : option Balance)
  (ticker : string -> option (option float)) : result Reply * Controller :=
  if is_running c then (Ok AlreadyRunning, c)
  else
    let c := set_mode c mode in
    let c := set_active_symbols c symbols in
    let c := set_strategies c [] in
    let c := set_last_trade_times c ∅ in
    let c :=
      fold_left
        (fun c sym =>
           set_strategies c
             (dict_set (strategies c) sym
                       (update (make_strategy sym) (fetched sym))))
        symbols c in
    let c := set_balance c bal in
    let nav :=
      match balance_total bal with
      | Some totals =>
          match start_nav (market_prices c) ticker totals
                          (default 0 (dict_get totals "USDT")) with
          | Ok v => Ok (Some v)
          | Raise e => Raise e
          end
      | None => Ok None
      end in
    match nav with
    | Raise e => (Raise e, c)
    | Ok nav =>
        let c :=
          match nav with
          | Some v => set_session_start_nav c (Some v)
          | None => c
          end in
        let c := set_is_running c true in
        let c := set_task c true in
        (Ok (Started mode), c)
    end.

(** What the loop task may still do when [stop] awaits it: the rest of
    the iteration it is in, from the point where it was suspended. *)
Inductive LoopAction : Type :=
  | ASymbol (symbol : string) (tk : Tick)
  | AOrderPlaced (signal : Signal) (symbol : string) (tk : Tick)
  | AFillBalance (symbol : string) (now : float) (bal : option Balance)
  | ABalance (bal : option Balance)
  | AHistory (now : float)
  | ATickers (tickers : list (string * float)).

Definition run_action (c : Controller) (a : LoopAction) : M Controller :=
  match a with
  | ASymbol symbol tk =>
      let* '(c, _) := symbol_step c symbol tk in ret c
  | AOrderPlaced signal symbol tk =>
      match dict_get (strategies c) symbol with
      | None => ret c
      | Some strategy =>
          try_except
            (let* c := execute_order c signal symbol strategy tk in
             ret (set_last_trade_times c
                    (<[symbol := tick_now tk]> (last_trade_times c))))
            (ret c)
      end
  | AFillBalance symbol now bal =>
      let c := set_balance c bal in
      ret (set_last_trade_times c (<[symbol := now]> (last_trade_times c)))
  | ABalance bal =>
      ret (if balance_truthy bal then set_balance c bal else c)
  | AHistory now => ret (update_history_data c now)
  | ATickers tickers => ret (update_tickers c tickers)
  end.

(** [stop]: [in_flight] is what the awaited task still does.  Nothing in
    it raises out of the loop. *)
Definition stop (c : Controller) (in_flight : list LoopAction)
  : M (Reply * Controller) :=
  if negb (is_running c) then ret (AlreadyStopped, c)
  else
    let c := set_is_running c false in
    let* c := if task c then for_each run_action in_flight c else ret c in
    ret (Stopped, c).

(** ** [get_status] *)

Record Status : Type := mkStatus {
  status_is_running : bool;
  status_mode : string;
  status_usdt : float;
  status_estimated_nav : float;
  status_strategies :
    list (string * (option StrategyInfo * option (list HistoryPoint)));
  status_pnl_current : float;
  status_pnl_history : list HistoryPoint;
  status_daily_realized : float;
  status_scanner : list ScanResult;
  status_trades : list loc;
  status_prices : gmap string float
}.

Section WithClock.
Context (today : Date)
        (fromisoformat : string -> option Date)
        (fromtimestamp : Z -> option Date).

(** The values of the response, in the order the dict display evaluates
    them.  [self.session_start_nav] is read only when [pnl_history] is
    not empty, and raises [AttributeError] when the attribute is
    missing. *)
Definition get_status (c : Controller) : M Status :=
  let usdt :=
    match balance_total (balance c) with
    | Some totals => default 0 (dict_get totals "USDT")
    | None => 0
    end in
  let* estimated_nav :=
    match last (pnl_history c) with
    | Some point =>
        match session_start_nav c with
        | Some start_nav => ret (start_nav + hp_value point)
        | None => raise AttributeError
        end
    | None => ret 0
    end in
  let current :=
    match last (pnl_history c) with
    | Some point => hp_value point
    | None => 0
    end in
  let* daily_realized :=
    Ledger.calculate_daily_realized_pnl today fromisoformat fromtimestamp
      (trades c) in
  ret {| status_is_running := is_running c;
         status_mode := mode c;
         status_usdt := usdt;
         status_estimated_nav := estimated_nav;
         status_strategies :=
           map (fun '(sym, strat) =>
                  (sym, (get_strategy_info strat, price_history c !! sym)))
               (strategies c);
         status_pnl_current := current;
         status_pnl_history := pnl_history c;
         status_daily_realized := daily_realized;
         status_scanner := scanner_results c;
         status_trades := trades c;
         status_prices := market_prices c |}.
End WithClock.

End Controller.

(** * The ledger on values *)

(** [Ledger]'s function read on the values of the dicts: the inventory
    holds batches instead of references to them. *)
Module PureLedger.
Import TradeLedger.

Section WithClock.
Context (today : Date)
        (fromisoformat : string -> option Date)
        (fromtimestamp : Z -> option Date).

Definition process (st : gmap string (list Batch) * float) (d : Trade)
  (dt : Date) : gmap string (list Batch) * float :=
  let '(invs, daily) := st in
  let symbol := default "BTC/USDT"%string (symbol d) in
  let inventory := default [] (invs !! symbol) in
  if String.eqb (upper (side d)) "BUY" then
    (<[symbol := inventory ++ [{| batch_price := price d;
                                  batch_amount := amount d |}]]> invs,
     daily)
  else if String.eqb (upper (side d)) "SELL" then
    let '(cost_basis, inventory', qty_to_fill) :=
      withdraw inventory (amount d) 0 in
    let cost_basis :=
      if qty_to_fill >? 0 then cost_basis + price d * qty_to_fill
      else cost_basis in
    (<[symbol := inventory']> invs,
     if Date_eqb dt today then daily + (price d * amount d - cost_basis)
     else daily)
  else (<[symbol := inventory]> invs, daily).

Definition loop_body (st : gmap string (list Batch) * float) (d : Trade)
  : result (gmap string (list Batch) * float) :=
  match time d with
  | TStr s =>
      match fromisoformat s with
      | None => Ok st
      | Some dt => Ok (process st d dt)
      end
  | TInt ms =>
      match fromtimestamp ms with
      | None => Raise ValueError
      | Some dt => Ok (process st d dt)
      end
  end.

Fixpoint run (log : list Trade) (st : gmap string (list Batch) * float)
  : result (gmap string (list Batch) * float) :=
  match log with
  | [] => Ok st
  | d :: log' =>
      match loop_body st d with
      | Ok st' => run log' st'
      | Raise e => Raise e
      end
  end.

Definition fifo_run (log : list Trade)
  : result (gmap string (list Batch) * float) :=
  match sorted_by_key (map (fun d => (time d, d)) log) with
  | Ok sorted => run sorted (∅, 0)
  | Raise e => Raise e
  end.

Definition realized_today (log : list Trade) : float :=
  match fifo_run log with
  | Ok (_, daily) => daily
  | Raise _ => 0
  end.
End WithClock.

(** The trade dicts a list of references points to, when each points to
    one. *)
Fixpoint deref_log (h : heap) (trades : list loc) : option (list Trade) :=
  match trades with
  | [] => Some []
  | l :: trades' =>
      match h !! l, deref_log h trades' with
      | Some (DTrade d), Some log => Some (d :: log)
      | _, _ => None
      end
  end.

End PureLedger.

(** * A clock for the examples *)

(** The dates of two ISO forms, [YYYY-MM-DD] and [YYYY-MM-DD] followed by
    [T] or a space and [HH:MM:SS]; any other string is unreadable here.
    [datetime.fromisoformat] reads more forms than these (fractions of a
    second, and the forms without dashes from Python 3.11 on); the
    examples use strings that it reads in the same way: the two forms
    above, and thirteen digits that start with 1762, which it refuses
    since 22 is no month.  Timestamps are read in UTC. *)
Module ExampleClock.

Definition digit (c : ascii) : option Z :=
  let n := nat_of_ascii c in
  if ((48 <=? n) && (n <=? 57))%nat then Some (Z.of_nat (n - 48)) else None.

Fixpoint number (cs : list ascii) (acc : Z) : option Z :=
  match cs with
  | [] => Some acc
  | c :: cs' =>
      match digit c with
      | Some d => number cs' (10 * acc + d)
      | None => None
      end
  end.

Definition is_leap (y : Z) : bool :=
  ((y mod 4 =? 0) && negb (y mod 100 =? 0) || (y mod 400 =? 0))%Z.

Definition days_in_month (y m : Z) : Z :=
  if (m =? 2)%Z then (if is_leap y then 29 else 28)
  else if ((m =? 4) || (m =? 6) || (m =? 9) || (m =? 11))%Z then 30
  else 31.

Definition valid_date (y m d : Z) : bool :=
  ((1 <=? y) && (y <=? 9999) && (1 <=? m) && (m <=? 12)
   && (1 <=? d) && (d <=? days_in_month y m))%Z.

Definition valid_time (cs : list ascii) : bool :=
  match cs with
  | [] => true
  | [sep; h1; h2; c1; m1; m2; c2; s1; s2] =>
      (Ascii.eqb sep "T" || Ascii.eqb sep " ")
      && Ascii.eqb c1 ":" && Ascii.eqb c2 ":"
      && match number [h1; h2] 0, number [m1; m2] 0, number [s1; s2] 0 with
         | Some hh, Some mm, Some ss =>
             ((hh <? 24) && (mm <? 60) && (ss <? 60))%Z
         | _, _, _ => false
         end
  | _ => false
  end.

Definition fromisoformat (s : string) : option Date :=
  match list_ascii_of_string s with
  | y1 :: y2 :: y3 :: y4 :: d1 :: m1 :: m2 :: d2 :: a1 :: a2 :: rest =>
      match number [y1; y2; y3; y4] 0, number [m1; m2] 0,
            number [a1; a2] 0 with
      | Some y, Some m, Some d =>
          if Ascii.eqb d1 "-" && Ascii.eqb d2 "-" && valid_date y m d
             && valid_time rest
          then Some {| year := y; month := m; day := d |}
          else None
      | _, _, _ => None
      end
  | _ => None
  end.

(** The civil date of a day number counted from 1970-01-01. *)
Definition civil_of_days (days : Z) : Date :=
  let z := (days + 719468)%Z in
  let era := (z / 146097)%Z in
  let doe := (z - era * 146097)%Z in
  let yoe := ((doe - doe / 1460 + doe / 36524 - doe / 146096) / 365)%Z in
  let doy := (doe - (365 * yoe + yoe / 4 - yoe / 100))%Z in
  let mp := ((5 * doy + 2) / 153)%Z in
  let d := (doy - (153 * mp + 2) / 5 + 1)%Z in
  let m := (if mp <? 10 then mp + 3 else mp - 9)%Z in
  let y := (yoe + era * 400 + (if m <=? 2 then 1 else 0))%Z in
  {| year := y; month := m; day := d |}.

Definition fromtimestamp (ms : Z) : option Date :=
  let dt := civil_of_days (ms / 86400000) in
  if ((1 <=? year dt) && (year dt <=? 9999))%Z then Some dt else None.

End ExampleClock.

(** * The scanner ([BotController.run_scanner]) *)

Module Scanner.
Import Controller.

(** [s.endswith(suffix)] *)
Definition ends_with (suffix s : string) : bool :=
  let n := String.length s in
  let k := String.length suffix in
  (k <=? n)%nat && String.eqb (substring (n - k) k s) suffix.

(** What the scanner reads of a ticker: ['quoteVolume'] and
    ['percentage'], which may be [None], and ['last'], a number that it
    copies. *)
Record TickerData : Type := mkTicker {
  quoteVolume : option float;
  percentage : option float;
  last_price : float
}.

(** The body of [for symbol, data in tickers.items()]: the candidate the
    ticker gives, if it gives one. *)
Definition candidate (symbol : string) (data : TickerData)
  : option ScanResult :=
  if negb (ends_with "/USDT" symbol) then None
  else
    match quoteVolume data with
    | None => None
    | Some volume =>
        if volume <? 5000000 then None
        else
          match percentage data with
          | None => None
          | Some change_24h =>
              if abs change_24h >? 5 then
                Some {| scan_symbol := symbol; scan_change := change_24h;
                        scan_price := last_price data;
                        scan_volume := volume |}
              else None
          end
    end.

Fixpoint candidates (tickers : list (string * TickerData))
  : list ScanResult :=
  match tickers with
  | [] => []
  | (symbol, data) :: tickers' =>
      match candidate symbol data with
      | Some r => r :: candidates tickers'
      | None => candidates tickers'
      end
  end.

(** [candidates.sort(key=lambda x: abs(x['change']), reverse=True)]: the
    larger key first, equal keys in the order they had. *)
Definition by_volatility (cs : list ScanResult) : list ScanResult :=
  map snd (stable_sort gtb (map (fun r => (abs (scan_change r), r)) cs)).

Definition set_scanner_results (c : Controller) (v : list ScanResult)
  : Controller :=
  mkController (is_running c) (task c) (strategies c) (balance c) (trades c)
    (market_prices c) (last_trade_times c) (price_history c) (pnl_history c)
    (last_history_update c) (mode c) (active_symbols c) v
    (last_signal c) (session_start_nav c).

(** [run_scanner]; [tickers] is what [fetch_tickers()] returned, [None]
    when it raised: the [except] leaves the results as they were. *)
Definition run_scanner (c : Controller)
  (tickers : option (list (string * TickerData))) : Controller :=
  match tickers with
  | None => c
  | Some tickers =>
      set_scanner_results c (take 10 (by_volatility (candidates tickers)))
  end.

End Scanner.

(** * The news cache ([NewsAnalyzer.fetch_news]) *)

Module News.

(** A news item, the dict the two fetchers build.  The link of a
    CryptoPanic post is [post.get('url')], which may be [None]. *)
Record NewsItem : Type := mkNews {
  title : string;
  link : option string;
  published : option string;
  sentiment : string;
  score : float;
  coins : list string;
  source : string
}.

(** [if self.api_key:] *)
Definition api_key_set (api_key : option string) : bool :=
  match api_key with
  | Some (String _ _) => true
  | _ => false
  end.

(** The deduplication loop: an item goes to [unique_news] when its link
    is not in [seen_links], and its link to [seen_links]. *)
Fixpoint unique_news (seen_links : gset (option string))
  (all_news : list NewsItem) : list NewsItem :=
  match all_news with
  | [] => []
  | item :: rest =>
      if decide (link item ∈ seen_links) then unique_news seen_links rest
      else item :: unique_news ({[link item]} ∪ seen_links) rest
  end.

(** [fetch_news]: [rss] and [cp] are what [fetch_rss()] and
    [fetch_cryptopanic()] returned; the result is the new
    [self.cached_news]. *)
Definition fetch_news (api_key : option string) (rss cp : list NewsItem)
  : list NewsItem :=
  let results := rss :: (if api_key_set api_key then [cp] else []) in
  let all_news := concat results in
  take 20 (unique_news ∅ all_news).

End News.

(** ** Facts on NaN, from the specification of the primitive floats *)

Lemma SFcompare_refl_not_nan (p : spec_float) :
  p <> S754_nan -> SFcompare p p = Some Eq.
Proof.
  destruct p as [s|s| |s m e]; intros Hp; try congruence.
  - now destruct s.
  - now destruct s.
  - simpl. rewrite Z.compare_refl, Pos.compare_refl. now destruct s.
Qed.

Lemma is_nan_Prim2SF (x : float) : is_nan x = true -> Prim2SF x = S754_nan.
Proof.
  unfold is_nan. rewrite FloatAxioms.eqb_spec. unfold SFeqb. intros H.
  destruct (Prim2SF x) as [s|s| |s m e] eqn:E; try reflexivity;
    rewrite SFcompare_refl_not_nan in H by discriminate; discriminate.
Qed.

Lemma ltb_nan_l (x y : float) : is_nan x = true -> (x <? y) = false.
Proof.
  intros H. rewrite ltb_spec, (is_nan_Prim2SF x H). reflexivity.
Qed.

Lemma ltb_nan_r (x y : float) : is_nan y = true -> (x <? y) = false.
Proof.
  intros H. rewrite ltb_spec, (is_nan_Prim2SF y H).
  unfold SFltb. now destruct (Prim2SF x) as [[]|[]| |[] ? ?].
Qed.

Lemma leb_nan_l (x y : float) : is_nan x = true -> (x <=? y) = false.
Proof.
  intros H. rewrite leb_spec, (is_nan_Prim2SF x H). reflexivity.
Qed.

Lemma leb_nan_r (x y : float) : is_nan y = true -> (x <=? y) = false.
Proof.
  intros H. rewrite leb_spec, (is_nan_Prim2SF y H).
  unfold SFleb. now destruct (Prim2SF x) as [[]|[]| |[] ? ?].
Qed.

(** * Properties of the strategy state machine *)

Module TrendRSIProofs.
Import TrendRSI.

Lemma gtb_nan_l (x y : float) : is_nan x = true -> (x >? y) = false.
Proof. apply ltb_nan_r. Qed.

Lemma gtb_nan_r (x y : float) : is_nan y = true -> (x >? y) = false.
Proof. apply ltb_nan_l. Qed.

(** A flat strategy gives no signal on a row whose SMA or RSI is NaN: each
    entry condition compares both. *)
Lemma flat_nan_no_signal (s : Strategy) (r : Row) :
  position s = None ->
  current_row s = Some r ->
  is_nan (sma_20 r) = true \/ is_nan (rsi r) = true ->
  check_signals s = (None, s).
Proof.
  intros Hflat Hrow Hnan. unfold check_signals. rewrite Hrow.
  unfold entry_block, long_exit_block, short_exit_block. rewrite Hflat.
  destruct Hnan as [Hn|Hn].
  - rewrite (gtb_nan_r _ _ Hn), (ltb_nan_r _ _ Hn). reflexivity.
  - rewrite (ltb_nan_l _ _ Hn), (gtb_nan_l _ _ Hn), !andb_false_r.
    reflexivity.
Qed.

(** A long position on a table whose last row has no RSI (a window without
    price change gives 0/0) and a close under the stop-loss price. *)
Definition long_at_100 (rows : list Row) : Strategy :=
  {| df := Some rows; position := Some LONG; entry_price := 100;
     sl_pct := 0.03; tp_pct := 0.06;
     rsi_buy_thresh := 30; rsi_sell_thresh := 70 |}.

Definition flat_window : list Row :=
  [ {| close := 90; rsi := nan; sma_20 := 92 |};
    {| close := 90; rsi := nan; sma_20 := 91 |} ].

(** C3, at a failing input: in phase LONG, on a row whose RSI is NaN,
    [check_signals] returns SELL (the stop-loss compares the price alone)
    and leaves the position, while [get_next_action] reports on the same
    row that the indicators are initializing. *)
Theorem C3_long_nan_row_sells :
  current_row (long_at_100 flat_window)
    = Some {| close := 90; rsi := nan; sma_20 := 91 |}
  /\ is_nan (rsi {| close := 90; rsi := nan; sma_20 := 91 |}) = true
  /\ check_signals (long_at_100 flat_window)
     = (Some SELL, set_position (long_at_100 flat_window) None)
  /\ get_next_action (long_at_100 flat_window)
       {| close := 90; rsi := nan; sma_20 := 91 |} = Initializing.
Proof. repeat split; vm_compute; reflexivity. Qed.

Lemma check_signals_long (s : Strategy) (r : Row) :
  position s = Some LONG ->
  current_row s = Some r ->
  check_signals s =
    if long_stop_loss s (close r) || long_take_profit s (close r)
       || long_rsi_exit s (rsi r)
    then (Some SELL, set_position s None)
    else (None, s).
Proof.
  intros Hlong Hrow. unfold check_signals. rewrite Hrow.
  unfold entry_block, long_exit_block, short_exit_block. rewrite Hlong.
  destruct (long_stop_loss s (close r)); [reflexivity|].
  destruct (long_take_profit s (close r)); [reflexivity|].
  destruct (long_rsi_exit s (rsi r)); reflexivity.
Qed.

Lemma check_signals_no_row (s : Strategy) :
  current_row s = None -> check_signals s = (None, s).
Proof. intros H. unfold check_signals. now rewrite H. Qed.

(** C4: in phase LONG a call returns no signal and leaves the strategy as
    it is, or returns SELL and moves to the flat phase, changing nothing
    else; it returns SELL exactly when the row it evaluates satisfies one
    of the three exit predicates, whatever the entry conditions say about
    that row: the phase after an exit is flat, never a new position. *)
Theorem C4_long_only_sells (s : Strategy) :
  position s = Some LONG ->
  (check_signals s = (None, s)
   \/ check_signals s = (Some SELL, set_position s None))
  /\ (fst (check_signals s) = Some SELL <->
      exists r, current_row s = Some r
        /\ (long_stop_loss s (close r) = true
            \/ long_take_profit s (close r) = true
            \/ long_rsi_exit s (rsi r) = true))
  /\ (forall r, current_row s = Some r ->
        (long_stop_loss s (close r) = true
         \/ long_take_profit s (close r) = true
         \/ long_rsi_exit s (rsi r) = true) ->
        entry_block (set_position s None) (close r) (rsi r) (sma_20 r)
          <> None ->
        fst (check_signals s) = Some SELL
        /\ position (snd (check_signals s)) = None).
Proof.
  intros Hlong.
  destruct (current_row s) as [r|] eqn:Hrow.
  - rewrite (check_signals_long s r Hlong Hrow).
    destruct (long_stop_loss s (close r)) eqn:E1;
      destruct (long_take_profit s (close r)) eqn:E2;
      destruct (long_rsi_exit s (rsi r)) eqn:E3; simpl;
      (split; [auto|]); (split; [split|]);
      try (intros _; exists r; split; [reflexivity|]; auto; fail);
      try (intros; split; reflexivity);
      try discriminate.
    + intros (r' & Hr' & H). injection Hr' as <-.
      rewrite E1, E2, E3 in H. destruct H as [H|[H|H]]; discriminate.
    + intros r' Hr' H. injection Hr' as <-.
      rewrite E1, E2, E3 in H. destruct H as [H|[H|H]]; discriminate.
  - rewrite (check_signals_no_row s Hrow). simpl.
    split; [auto|]. split; [split|].
    + discriminate.
    + intros (r & Hr & _). discriminate.
    + intros r Hr. discriminate.
Qed.

(** A long position whose row both hits the take-profit and is a fresh
    long entry for a flat strategy. *)
Definition long_in_profit : Strategy :=
  {| df := Some [ {| close := 105; rsi := 28; sma_20 := 100 |};
                  {| close := 107; rsi := 25; sma_20 := 101 |} ];
     position := Some LONG; entry_price := 100;
     sl_pct := 0.03; tp_pct := 0.06;
     rsi_buy_thresh := 30; rsi_sell_thresh := 70 |}.

Lemma C4_long_only_sells_witness :
  position long_in_profit = Some LONG
  /\ fst (check_signals long_in_profit) = Some SELL
  /\ position (snd (check_signals long_in_profit)) = None.
Proof.
  split; [reflexivity|].
  apply (proj2 (proj2 (C4_long_only_sells long_in_profit eq_refl))
           {| close := 107; rsi := 25; sma_20 := 101 |}).
  - reflexivity.
  - right; left. vm_compute. reflexivity.
  - vm_compute. discriminate.
Defined.

(** C5: from the flat phase, on the row [check_signals] evaluates, BUY is
    returned exactly when the close is above the SMA and the RSI is under
    the buy threshold; the strategy is then long, entered at that
    close. *)
Theorem C5_flat_buy_iff (s : Strategy) (r : Row) :
  position s = None ->
  current_row s = Some r ->
  (fst (check_signals s) = Some BUY <->
   (close r >? sma_20 r) = true /\ (rsi r <? rsi_buy_thresh s) = true)
  /\ (fst (check_signals s) = Some BUY ->
      position (snd (check_signals s)) = Some LONG
      /\ entry_price (snd (check_signals s)) = close r).
Proof.
  intros Hflat Hrow. unfold check_signals. rewrite Hrow.
  unfold entry_block, long_exit_block, short_exit_block. rewrite Hflat.
  destruct (close r >? sma_20 r) eqn:E1;
    destruct (rsi r <? rsi_buy_thresh s) eqn:E2; simpl.
  - split; [split; auto|]. intros _. split; reflexivity.
  - destruct ((close r <? sma_20 r) && (rsi r >? rsi_sell_thresh s));
      simpl; (split; [split; [discriminate|intros [_ H]; discriminate]
                     |discriminate]).
  - destruct ((close r <? sma_20 r) && (rsi r >? rsi_sell_thresh s));
      simpl; (split; [split; [discriminate|intros [H _]; discriminate]
                     |discriminate]).
  - destruct ((close r <? sma_20 r) && (rsi r >? rsi_sell_thresh s));
      simpl; (split; [split; [discriminate|intros [H _]; discriminate]
                     |discriminate]).
Qed.

Definition flat_pullback : Strategy :=
  {| df := Some [ {| close := 104; rsi := 41; sma_20 := 100 |};
                  {| close := 102; rsi := 27; sma_20 := 101 |} ];
     position := None; entry_price := 0;
     sl_pct := 0.03; tp_pct := 0.06;
     rsi_buy_thresh := 30; rsi_sell_thresh := 70 |}.

Lemma C5_flat_buy_iff_witness :
  fst (check_signals flat_pullback) = Some BUY
  /\ position (snd (check_signals flat_pullback)) = Some LONG
  /\ entry_price (snd (check_signals flat_pullback)) = 102.
Proof.
  pose proof (C5_flat_buy_iff flat_pullback
                {| close := 102; rsi := 27; sma_20 := 101 |}
                eq_refl eq_refl) as [Hiff Hstate].
  assert (Hbuy : fst (check_signals flat_pullback) = Some BUY).
  { apply Hiff. split; vm_compute; reflexivity. }
  split; [exact Hbuy|]. exact (Hstate Hbuy).
Defined.

End TrendRSIProofs.

(** * Sorting *)

Module SortProofs.

Section Sort.
Context {K A : Type} (ltb : K -> K -> bool).

Lemma insert_sorted_perm (x : K * A) (s : list (K * A)) :
  insert_sorted ltb x s ≡ₚ x :: s.
Proof.
  induction s as [|y s IH]; simpl; [reflexivity|].
  destruct (ltb (fst y) (fst x)); [|reflexivity].
  rewrite IH. apply perm_swap.
Qed.

Lemma stable_sort_perm (l : list (K * A)) : stable_sort ltb l ≡ₚ l.
Proof.
  induction l as [|x l IH]; simpl; [reflexivity|].
  rewrite insert_sorted_perm. now rewrite IH.
Qed.

(** The sort looks at the keys alone. *)
Lemma insert_sorted_map {B} (f : A -> B) (x : K * A) (s : list (K * A)) :
  insert_sorted ltb (prod_map id f x) (map (prod_map id f) s)
  = map (prod_map id f) (insert_sorted ltb x s).
Proof.
  induction s as [|y s IH]; simpl; [reflexivity|].
  destruct (ltb (fst y) (fst x)); simpl; [|reflexivity].
  now rewrite IH.
Qed.

Lemma stable_sort_map {B} (f : A -> B) (l : list (K * A)) :
  stable_sort ltb (map (prod_map id f) l)
  = map (prod_map id f) (stable_sort ltb l).
Proof.
  induction l as [|x l IH]; simpl; [reflexivity|].
  rewrite IH. apply insert_sorted_map.
Qed.
End Sort.

Lemma str_keys_map {A B} (f : A -> B) (l : list (PyTime * A)) :
  str_keys (map (prod_map id f) l)
  = option_map (map (prod_map id f)) (str_keys l).
Proof.
  induction l as [|[[s|z] a] l IH]; simpl; try reflexivity.
  rewrite IH. now destruct (str_keys l).
Qed.

Lemma int_keys_map {A B} (f : A -> B) (l : list (PyTime * A)) :
  int_keys (map (prod_map id f) l)
  = option_map (map (prod_map id f)) (int_keys l).
Proof.
  induction l as [|[[s|z] a] l IH]; simpl; try reflexivity.
  rewrite IH. now destruct (int_keys l).
Qed.

Lemma map_snd_prod_map {K A B} (f : A -> B) (l : list (K * A)) :
  map snd (map (prod_map id f) l) = map f (map snd l).
Proof. rewrite !map_map. apply map_ext. now intros [k a]. Qed.

Lemma sorted_by_key_map {A B} (f : A -> B) (l : list (PyTime * A)) :
  sorted_by_key (map (prod_map id f) l)
  = match sorted_by_key l with
    | Ok r => Ok (map f r)
    | Raise e => Raise e
    end.
Proof.
  unfold sorted_by_key. rewrite str_keys_map, int_keys_map.
  destruct (str_keys l) as [kl|]; simpl.
  - now rewrite stable_sort_map, map_snd_prod_map.
  - destruct (int_keys l) as [kl|]; simpl; [|reflexivity].
    now rewrite stable_sort_map, map_snd_prod_map.
Qed.

Lemma str_keys_snd {A} (l : list (PyTime * A)) (kl : list (string * A)) :
  str_keys l = Some kl -> map snd kl = map snd l.
Proof.
  revert kl. induction l as [|[[s|z] a] l IH]; simpl; intros kl H;
    try discriminate.
  - now injection H as <-.
  - destruct (str_keys l); [|discriminate]. injection H as <-. simpl.
    f_equal. now apply IH.
Qed.

Lemma int_keys_snd {A} (l : list (PyTime * A)) (kl : list (Z * A)) :
  int_keys l = Some kl -> map snd kl = map snd l.
Proof.
  revert kl. induction l as [|[[s|z] a] l IH]; simpl; intros kl H;
    try discriminate.
  - now injection H as <-.
  - destruct (int_keys l); [|discriminate]. injection H as <-. simpl.
    f_equal. now apply IH.
Qed.

(** What the sort returns is a rearrangement of what it was given. *)
Lemma sorted_by_key_perm {A} (l : list (PyTime * A)) (r : list A) :
  sorted_by_key l = Ok r -> r ≡ₚ map snd l.
Proof.
  unfold sorted_by_key.
  destruct (str_keys l) as [kl|] eqn:Hs.
  - intros [= <-]. rewrite stable_sort_perm. now rewrite (str_keys_snd l kl).
  - destruct (int_keys l) as [kl|] eqn:Hi; [|discriminate].
    intros [= <-]. rewrite stable_sort_perm. now rewrite (int_keys_snd l kl).
Qed.

(** ** Keys that are all different sort in one way *)

(** [ltb] is a strict total order on the keys. *)
Record strict_total {K : Type} (ltb : K -> K -> bool) : Prop := {
  lt_asym : forall a b, ltb a b = true -> ltb b a = false;
  lt_trans : forall a b c, ltb a b = true -> ltb b c = true -> ltb a c = true;
  lt_total : forall a b, a <> b -> ltb a b = false -> ltb b a = true
}.

Lemma string_ltb_iff (a b : string) :
  String.ltb a b = true <-> OrderedTypeEx.String_as_OT.lt a b.
Proof.
  rewrite <- OrderedTypeEx.String_as_OT.cmp_lt.
  unfold String.ltb, OrderedTypeEx.String_as_OT.cmp.
  destruct (String.compare a b); split; congruence.
Qed.

Lemma string_ltb_strict_total : strict_total String.ltb.
Proof.
  split.
  - intros a b. unfold String.ltb. rewrite (String.compare_antisym b a).
    destruct (String.compare a b); simpl; congruence.
  - intros a b c. rewrite !string_ltb_iff.
    apply OrderedTypeEx.String_as_OT.lt_trans.
  - intros a b Hne. unfold String.ltb.
    rewrite (String.compare_antisym b a).
    destruct (String.compare a b) eqn:E; simpl; try congruence.
    apply String.compare_eq_iff in E. contradiction.
Qed.

Lemma Z_ltb_strict_total : strict_total Z.ltb.
Proof.
  split.
  - intros a b H. apply Z.ltb_lt in H. apply Z.ltb_ge. lia.
  - intros a b c H1 H2. apply Z.ltb_lt in H1, H2. apply Z.ltb_lt. lia.
  - intros a b Hne H. apply Z.ltb_ge in H. apply Z.ltb_lt. lia.
Qed.

Section Unique.
Context {K A : Type} (ltb : K -> K -> bool) (Hlt : strict_total ltb).

(** Two insertions of different keys commute. *)
Lemma insert_sorted_comm (x y : K * A) (s : list (K * A)) :
  fst x <> fst y ->
  insert_sorted ltb x (insert_sorted ltb y s)
  = insert_sorted ltb y (insert_sorted ltb x s).
Proof using Hlt.
  intros Hne. induction s as [|z s IH]; simpl.
  - destruct (ltb (fst y) (fst x)) eqn:Eyx.
    + now rewrite (lt_asym _ Hlt _ _ Eyx).
    + rewrite (lt_total _ Hlt (fst y) (fst x)); auto.
  - destruct (ltb (fst z) (fst y)) eqn:Ezy;
      destruct (ltb (fst z) (fst x)) eqn:Ezx; simpl;
      rewrite ?Ezy, ?Ezx.
    + now rewrite IH.
    + destruct (ltb (fst x) (fst y)) eqn:Exy; [reflexivity|].
      assert (Eyx : ltb (fst y) (fst x) = true)
        by (apply (lt_total _ Hlt); auto).
      rewrite (lt_trans _ Hlt _ _ _ Ezy Eyx) in Ezx. discriminate.
    + destruct (ltb (fst y) (fst x)) eqn:Eyx; [reflexivity|].
      assert (Exy : ltb (fst x) (fst y) = true)
        by (apply (lt_total _ Hlt); auto).
      rewrite (lt_trans _ Hlt _ _ _ Ezx Exy) in Ezy. discriminate.
    + destruct (ltb (fst y) (fst x)) eqn:Eyx.
      * now rewrite (lt_asym _ Hlt _ _ Eyx).
      * rewrite (lt_total _ Hlt (fst y) (fst x)); auto.
Qed.

Lemma stable_sort_unique (l1 l2 : list (K * A)) :
  l1 ≡ₚ l2 ->
  NoDup (map fst l1) ->
  stable_sort ltb l1 = stable_sort ltb l2.
Proof using Hlt.
  induction 1 as [|x l1 l2 Hp IH|x y l|l1 l2 l3 Hp1 IH1 Hp2 IH2];
    intros Hnd.
  - reflexivity.
  - simpl. rewrite IH; [reflexivity|].
    simpl in Hnd. now apply NoDup_cons in Hnd as [_ Hnd].
  - simpl. apply insert_sorted_comm.
    simpl in Hnd. apply NoDup_cons in Hnd as [Hy _].
    intros E. apply Hy. rewrite E. left.
  - rewrite IH1 by exact Hnd. apply IH2.
    assert (Hp' : map fst l1 ≡ₚ map fst l2) by now apply Permutation_map.
    now rewrite <- Hp'.
Qed.
End Unique.

Lemma str_keys_perm {A} (l1 l2 : list (PyTime * A)) :
  l1 ≡ₚ l2 ->
  match str_keys l1, str_keys l2 with
  | Some k1, Some k2 => k1 ≡ₚ k2
  | None, None => True
  | _, _ => False
  end.
Proof.
  induction 1 as [|[[s|z] a] l1 l2 Hp IH|[[s|z] a] [[s'|z'] a'] l
                 |l1 l2 l3 Hp1 IH1 Hp2 IH2]; simpl; auto.
  - destruct (str_keys l1), (str_keys l2); auto.
  - destruct (str_keys l); auto. apply perm_swap.
  - destruct (str_keys l1), (str_keys l2), (str_keys l3);
      try contradiction; auto. etransitivity; eauto.
Qed.

Lemma int_keys_perm {A} (l1 l2 : list (PyTime * A)) :
  l1 ≡ₚ l2 ->
  match int_keys l1, int_keys l2 with
  | Some k1, Some k2 => k1 ≡ₚ k2
  | None, None => True
  | _, _ => False
  end.
Proof.
  induction 1 as [|[[s|z] a] l1 l2 Hp IH|[[s|z] a] [[s'|z'] a'] l
                 |l1 l2 l3 Hp1 IH1 Hp2 IH2]; simpl; auto.
  - destruct (int_keys l1), (int_keys l2); auto.
  - destruct (int_keys l); auto. apply perm_swap.
  - destruct (int_keys l1), (int_keys l2), (int_keys l3);
      try contradiction; auto. etransitivity; eauto.
Qed.

Lemma str_keys_fst {A} (l : list (PyTime * A)) (kl : list (string * A)) :
  str_keys l = Some kl -> map fst l = map TStr (map fst kl).
Proof.
  revert kl. induction l as [|[[s|z] a] l IH]; simpl; intros kl H;
    try discriminate.
  - now injection H as <-.
  - destruct (str_keys l); [|discriminate]. injection H as <-. simpl.
    f_equal. now apply IH.
Qed.

Lemma int_keys_fst {A} (l : list (PyTime * A)) (kl : list (Z * A)) :
  int_keys l = Some kl -> map fst l = map TInt (map fst kl).
Proof.
  revert kl. induction l as [|[[s|z] a] l IH]; simpl; intros kl H;
    try discriminate.
  - now injection H as <-.
  - destruct (int_keys l); [|discriminate]. injection H as <-. simpl.
    f_equal. now apply IH.
Qed.

Lemma NoDup_map_inv {A B} (f : A -> B) (l : list A) :
  NoDup (map f l) -> NoDup l.
Proof.
  induction l as [|x l IH]; simpl; intros H; [constructor|].
  apply NoDup_cons in H as [Hx H]. constructor; [|auto].
  intros Hin. apply Hx. apply list_elem_of_In, in_map, list_elem_of_In, Hin.
Qed.

(** Sorting a rearrangement of a list whose keys are all different gives
    the same result. *)
Lemma sorted_by_key_unique {A} (l1 l2 : list (PyTime * A)) :
  l1 ≡ₚ l2 ->
  NoDup (map fst l1) ->
  sorted_by_key l1 = sorted_by_key l2.
Proof.
  intros Hp Hnd. unfold sorted_by_key.
  pose proof (str_keys_perm l1 l2 Hp) as Hs.
  pose proof (int_keys_perm l1 l2 Hp) as Hi.
  destruct (str_keys l1) as [k1|] eqn:E1, (str_keys l2) as [k2|];
    try contradiction.
  - rewrite (stable_sort_unique _ string_ltb_strict_total k1 k2 Hs);
      [reflexivity|].
    rewrite (str_keys_fst l1 k1 E1) in Hnd. now apply NoDup_map_inv in Hnd.
  - destruct (int_keys l1) as [k1|] eqn:E1', (int_keys l2) as [k2|];
      try contradiction; [|reflexivity].
    rewrite (stable_sort_unique _ Z_ltb_strict_total k1 k2 Hi);
      [reflexivity|].
    rewrite (int_keys_fst l1 k1 E1') in Hnd. now apply NoDup_map_inv in Hnd.
Qed.

End SortProofs.

Module LedgerProofs.
Import Ledger TradeLedger PureLedger SortProofs.

(** A reference to a batch. *)
Definition points_to (h : heap) (l : loc) (b : Batch) : Prop :=
  h !! l = Some (DBatch b).

Lemma points_to_insert_ne (h : heap) (l l' : loc) (b : Batch) (d : PyDict) :
  l <> l' -> points_to h l' b -> points_to (<[l := d]> h) l' b.
Proof.
  unfold points_to. intros Hne H. now rewrite list_lookup_insert_ne.
Qed.

Lemma points_to_frame (h h' : heap) (inventory : list loc)
  (queue : list Batch) :
  Forall2 (points_to h) inventory queue ->
  (forall l, l ∈ inventory -> h' !! l = h !! l) ->
  Forall2 (points_to h') inventory queue.
Proof.
  induction 1 as [|l b inventory queue Hl HF IH]; intros Hsame.
  - constructor.
  - constructor.
    + unfold points_to. rewrite Hsame; [exact Hl|left].
    + apply IH. intros l' Hin. apply Hsame. now right.
Qed.

(** The [while] loop withdraws from the inventory as [withdraw] does from
    the queue of its batches, writes only to the batches of the
    inventory, and leaves a suffix of the inventory. *)
Lemma fill_withdraw (inventory : list loc) :
  forall (queue : list Batch) (qty cost : float) (h : heap),
    Forall2 (points_to h) inventory queue ->
    NoDup inventory ->
    exists (k : nat) (h' : heap),
      fill inventory qty cost h
        = (Ok (drop k inventory, snd (withdraw queue qty cost),
               fst (fst (withdraw queue qty cost))), h')
      /\ Forall2 (points_to h') (drop k inventory)
                 (snd (fst (withdraw queue qty cost)))
      /\ length h' = length h
      /\ (forall l, l ∉ inventory -> h' !! l = h !! l).
Proof.
  induction inventory as [|batch rest IH]; intros queue qty cost h HF Hnd.
  - apply Forall2_nil_inv_l in HF as ->. exists 0%nat, h. simpl.
    destruct (qty >? 0); repeat split; constructor.
  - apply Forall2_cons_inv_l in HF as (b & queue' & Hb & HF & ->).
    apply NoDup_cons in Hnd as [Hnotin Hnd].
    simpl. destruct (qty >? 0) eqn:Hq.
    + unfold bind at 1. unfold get_batch at 1. rewrite Hb.
      destruct (batch_amount b >? qty) eqn:Hpart.
      * exists 0%nat,
          (<[batch := DBatch {| batch_price := batch_price b;
                                batch_amount := batch_amount b - qty |}]> h).
        unfold bind, set_batch_amount, ret. rewrite Hb. simpl.
        split; [reflexivity|]. split; [|split].
        -- constructor.
           ++ unfold points_to. apply list_lookup_insert_eq.
              eapply lookup_lt_Some; exact Hb.
           ++ apply (points_to_frame h); [exact HF|].
              intros l Hin. apply list_lookup_insert_ne.
              intros ->. contradiction.
        -- apply length_insert.
        -- intros l Hl. apply list_lookup_insert_ne.
           intros ->. apply Hl. left.
      * destruct (IH queue' (qty - batch_amount b)
                     (cost + batch_price b * batch_amount b) h HF Hnd)
          as (k & h' & Hfill & HF' & Hlen & Hframe).
        exists (S k), h'. simpl. split; [exact Hfill|].
        split; [exact HF'|]. split; [exact Hlen|].
        intros l Hl. apply Hframe. intros Hin. apply Hl. now right.
    + exists 0%nat, h. simpl. split; [reflexivity|].
      split; [|split; [reflexivity|reflexivity]].
      constructor; assumption.
Qed.


(** ** The inventories of the function and the queues of their values *)

(** [invs], the dict of lists of references, stands for [qs], the dict of
    queues of batches: each reference was made by this call (it is not
    under [n0], the size of the store at the call) and occurs once. *)
Record represents (n0 : nat) (h : heap) (invs : gmap string (list loc))
  (qs : gmap string (list Batch)) : Prop := mkRepresents {
  rep_queues : forall sym,
    option_Forall2 (Forall2 (points_to h)) (invs !! sym) (qs !! sym);
  rep_fresh : forall sym L l,
    invs !! sym = Some L -> l ∈ L -> (n0 <= l)%nat;
  rep_nodup : forall sym L, invs !! sym = Some L -> NoDup L;
  rep_disjoint : forall s1 s2 L1 L2 l,
    invs !! s1 = Some L1 -> invs !! s2 = Some L2 ->
    l ∈ L1 -> l ∈ L2 -> s1 = s2
}.

Lemma represents_empty (n0 : nat) (h : heap) : represents n0 h ∅ ∅.
Proof.
  split.
  - intros sym. rewrite !lookup_empty. constructor.
  - intros sym L l H. rewrite lookup_empty in H. discriminate.
  - intros sym L H. rewrite lookup_empty in H. discriminate.
  - intros s1 s2 L1 L2 l H. rewrite lookup_empty in H. discriminate.
Qed.

Lemma elem_of_default_lookup (invs : gmap string (list loc)) (sym : string)
  (l : loc) :
  l ∈ default [] (invs !! sym) ->
  exists L, invs !! sym = Some L /\ l ∈ L.
Proof.
  destruct (invs !! sym) as [L|]; simpl; intros H.
  - exists L. auto.
  - inversion H.
Qed.

Lemma represents_default (n0 : nat) (h : heap) invs qs (sym : string) :
  represents n0 h invs qs ->
  Forall2 (points_to h) (default [] (invs !! sym)) (default [] (qs !! sym)).
Proof.
  intros Hrep. destruct (rep_queues _ _ _ _ Hrep sym); simpl.
  - assumption.
  - constructor.
Qed.

Lemma represents_default_nodup (n0 : nat) (h : heap) invs qs (sym : string) :
  represents n0 h invs qs -> NoDup (default [] (invs !! sym)).
Proof.
  intros Hrep. destruct (invs !! sym) as [L|] eqn:E; simpl.
  - eapply rep_nodup; eauto.
  - constructor.
Qed.

(** Writing one symbol's entry: the new list holds references of this
    call, once each, none of them in another symbol's list, and the store
    is the same at the references of the other lists. *)
Lemma represents_insert (n0 : nat) (h h' : heap) invs qs (sym : string)
  (L : list loc) (q : list Batch) :
  represents n0 h invs qs ->
  Forall2 (points_to h') L q ->
  NoDup L ->
  (forall l, l ∈ L -> (n0 <= l)%nat) ->
  (forall l sym' L', l ∈ L -> sym' <> sym -> invs !! sym' = Some L' ->
                     l ∉ L') ->
  (forall l sym' L', sym' <> sym -> invs !! sym' = Some L' -> l ∈ L' ->
                     h' !! l = h !! l) ->
  represents n0 h' (<[sym := L]> invs) (<[sym := q]> qs).
Proof.
  intros Hrep HF Hnd Hfresh Hdisj Hframe. split.
  - intros sym'. destruct (decide (sym = sym')) as [<-|Hne].
    + rewrite !lookup_insert_eq. constructor. exact HF.
    + rewrite !lookup_insert_ne by exact Hne.
      pose proof (rep_queues _ _ _ _ Hrep sym') as Hq.
      destruct (invs !! sym') as [L'|] eqn:E; inversion Hq; subst;
        constructor.
      apply (points_to_frame h); [assumption|].
      intros l Hl. apply (Hframe l sym' L'); auto.
  - intros sym' L' l. destruct (decide (sym = sym')) as [<-|Hne].
    + rewrite lookup_insert_eq. intros [= <-]. apply Hfresh.
    + rewrite lookup_insert_ne by exact Hne. eapply rep_fresh; eauto.
  - intros sym' L'. destruct (decide (sym = sym')) as [<-|Hne].
    + rewrite lookup_insert_eq. intros [= <-]. exact Hnd.
    + rewrite lookup_insert_ne by exact Hne. eapply rep_nodup; eauto.
  - intros s1 s2 L1 L2 l.
    destruct (decide (sym = s1)) as [<-|Hne1];
      destruct (decide (sym = s2)) as [<-|Hne2]; auto.
    + rewrite lookup_insert_eq, lookup_insert_ne by exact Hne2.
      intros [= <-] H2 Hl1 Hl2. exfalso.
      eapply (Hdisj l s2 L2); eauto.
    + rewrite lookup_insert_eq, lookup_insert_ne by exact Hne1.
      intros H1 [= <-] Hl1 Hl2. exfalso.
      eapply (Hdisj l s1 L1); eauto.
    + rewrite !lookup_insert_ne by assumption.
      eapply rep_disjoint; eauto.
Qed.

Lemma points_to_lt (h : heap) (l : loc) (b : Batch) :
  points_to h l b -> (l < length h)%nat.
Proof. unfold points_to. apply lookup_lt_Some. Qed.

Lemma Forall2_points_to_lt (h : heap) (L : list loc) (q : list Batch) :
  Forall2 (points_to h) L q -> forall l, l ∈ L -> (l < length h)%nat.
Proof.
  induction 1 as [|l b L q Hl HF IH]; intros l' Hin.
  - inversion Hin.
  - apply elem_of_cons in Hin as [->|Hin]; eauto using points_to_lt.
Qed.

(** Another symbol's list shares no reference with this symbol's. *)
Lemma represents_other_notin (n0 : nat) (h : heap) invs qs
  (sym sym' : string) (L' : list loc) (l : loc) :
  represents n0 h invs qs ->
  sym' <> sym -> invs !! sym' = Some L' ->
  l ∈ default [] (invs !! sym) -> l ∉ L'.
Proof.
  intros Hrep Hne HL' Hin Hin'.
  apply elem_of_default_lookup in Hin as (L & HL & Hin).
  apply Hne. eapply rep_disjoint; eauto.
Qed.

Section WithClock.
Context (today : Date)
        (fromisoformat : string -> option Date)
        (fromtimestamp : Z -> option Date).

(** One record: the function does on the store what [PureLedger.process]
    does on values; it adds objects to the store and writes to none that
    was there at the call. *)
Lemma process_refines (n0 : nat) (h : heap) invs qs (daily : float)
  (d : Trade) (dt : Date) :
  represents n0 h invs qs ->
  (n0 <= length h)%nat ->
  exists (h' : heap) invs',
    Ledger.process today
        {| inventories := invs; daily_realized_pnl := daily |} d dt h
      = (Ok {| inventories := invs';
               daily_realized_pnl :=
                 snd (PureLedger.process today (qs, daily) d dt) |}, h')
    /\ represents n0 h' invs'
         (fst (PureLedger.process today (qs, daily) d dt))
    /\ (length h <= length h')%nat
    /\ (forall l, (l < n0)%nat -> h' !! l = h !! l).
Proof.
  intros Hrep Hn0.
  unfold Ledger.process, PureLedger.process. simpl.
  set (sym := default "BTC/USDT"%string (symbol d)).
  pose proof (represents_default _ _ _ _ sym Hrep) as HF.
  pose proof (represents_default_nodup _ _ _ _ sym Hrep) as Hnd.
  destruct (String.eqb (upper (side d)) "BUY") eqn:Hbuy.
  - (* BUY *)
    eexists _, _. unfold bind, alloc, ret. simpl.
    split; [reflexivity|]. split; [|split].
    + apply (represents_insert n0 h); auto.
      * apply Forall2_app.
        -- apply (points_to_frame h); [exact HF|].
           intros l Hl. apply lookup_app_l.
           eapply Forall2_points_to_lt; eauto.
        -- constructor; [|constructor]. unfold points_to.
           rewrite lookup_app_r by lia.
           now rewrite Nat.sub_diag.
      * apply NoDup_app. split; [exact Hnd|]. split; [|apply NoDup_singleton].
        intros l Hl Hl'. apply list_elem_of_singleton in Hl' as ->.
        pose proof (Forall2_points_to_lt _ _ _ HF _ Hl). lia.
      * intros l Hl. apply elem_of_app in Hl as [Hl|Hl].
        -- apply elem_of_default_lookup in Hl as (L & HL & Hl).
           eapply rep_fresh; eauto.
        -- apply list_elem_of_singleton in Hl as ->. exact Hn0.
      * intros l sym' L' Hl Hne HL'.
        apply elem_of_app in Hl as [Hl|Hl].
        -- eapply represents_other_notin; eauto.
        -- apply list_elem_of_singleton in Hl as ->. intros Hin.
           pose proof (rep_queues _ _ _ _ Hrep sym') as Hq.
           rewrite HL' in Hq. inversion Hq; subst.
           pose proof (Forall2_points_to_lt _ _ _ H1 _ Hin). lia.
      * intros l sym' L' Hne HL' Hin. apply lookup_app_l.
        pose proof (rep_queues _ _ _ _ Hrep sym') as Hq.
        rewrite HL' in Hq. inversion Hq; subst.
        eapply Forall2_points_to_lt; eauto.
    + rewrite length_app. lia.
    + intros l Hl. apply lookup_app_l. lia.
  - destruct (String.eqb (upper (side d)) "SELL") eqn:Hsell.
    + (* SELL *)
      destruct (fill_withdraw _ _ (amount d) 0 h HF Hnd)
        as (k & h' & Hfill & HF' & Hlen & Hframe).
      unfold bind. rewrite Hfill.
      destruct (withdraw (default [] (qs !! sym)) (amount d) 0)
        as [[cost queue'] unmatched] eqn:Hw. simpl in *.
      eexists _, _. unfold ret. split; [reflexivity|].
      split; [|split].
      * apply (represents_insert n0 h); auto.
        -- eapply sublist_NoDup; [exact Hnd|apply sublist_drop].
        -- intros l Hl. apply subseteq_drop in Hl.
           apply elem_of_default_lookup in Hl as (L & HL & Hl).
           eapply rep_fresh; eauto.
        -- intros l sym' L' Hl Hne HL'. apply subseteq_drop in Hl.
           eapply represents_other_notin; eauto.
        -- intros l sym' L' Hne HL' Hin. apply Hframe.
           intros Hin'. eapply represents_other_notin; eauto.
      * lia.
      * intros l Hl. apply Hframe. intros Hin.
        apply elem_of_default_lookup in Hin as (L & HL & Hin).
        pose proof (rep_fresh _ _ _ _ Hrep _ _ _ HL Hin). lia.
    + (* neither *)
      eexists _, _. unfold ret. split; [reflexivity|].
      split; [|split; [lia|reflexivity]].
      apply (represents_insert n0 h); auto.
      * intros l Hl.
        apply elem_of_default_lookup in Hl as (L & HL & Hl).
        eapply rep_fresh; eauto.
      * intros l sym' L' Hl Hne HL'.
        eapply represents_other_notin; eauto.
Qed.

(** A reference to a trade dict of the store at the call. *)
Definition is_trade (h0 : heap) (p : loc * Trade) : Prop :=
  h0 !! fst p = Some (DTrade (snd p)).

(** The store [h] extends [h0] and keeps its objects. *)
Definition extends (h0 h : heap) : Prop :=
  (length h0 <= length h)%nat
  /\ forall l, (l < length h0)%nat -> h !! l = h0 !! l.

Lemma extends_refl (h : heap) : extends h h.
Proof. split; auto. Qed.

Lemma extends_prefix (h0 h : heap) : extends h0 h -> h0 `prefix_of` h.
Proof.
  intros [Hlen Hsame]. exists (drop (length h0) h).
  rewrite <- (take_drop (length h0) h) at 1. f_equal.
  apply list_eq. intros i.
  destruct (decide (i < length h0)%nat) as [Hi|Hi].
  - rewrite lookup_take_lt by exact Hi. now apply Hsame.
  - rewrite lookup_take_ge by lia. symmetry. apply lookup_ge_None. lia.
Qed.

Lemma for_each_cons {A S} (body : S -> A -> M S) (x : A) (l : list A)
  (st : S) (h : heap) :
  for_each body (x :: l) st h
  = match body st x h with
    | (Ok st', h') => for_each body l st' h'
    | (Raise e, h') => (Raise e, h')
    end.
Proof. reflexivity. Qed.

Lemma loop_body_eq (st : Locals) (t : loc) (d : Trade) (h : heap) :
  get_trade t h = (Ok d, h) ->
  Ledger.loop_body today fromisoformat fromtimestamp st t h
  = match time d with
    | TStr s =>
        match fromisoformat s with
        | None => (Ok st, h)
        | Some dt => Ledger.process today st d dt h
        end
    | TInt ms =>
        match fromtimestamp ms with
        | None => (Raise ValueError, h)
        | Some dt => Ledger.process today st d dt h
        end
    end.
Proof.
  intros Hget. unfold Ledger.loop_body, bind. rewrite Hget.
  destruct (time d) as [s|ms].
  - now destruct (fromisoformat s).
  - now destruct (fromtimestamp ms).
Qed.

(** The loop over the sorted records. *)
Lemma for_each_refines (h0 : heap) (P : list (loc * Trade)) :
  Forall (is_trade h0) P ->
  forall (h : heap) invs qs (daily : float),
    represents (length h0) h invs qs ->
    extends h0 h ->
    match PureLedger.run today fromisoformat fromtimestamp
            (map snd P) (qs, daily) with
    | Ok (qs', daily') =>
        exists (h' : heap) invs',
          for_each (Ledger.loop_body today fromisoformat fromtimestamp)
              (map fst P)
              {| inventories := invs; daily_realized_pnl := daily |} h
            = (Ok {| inventories := invs';
                     daily_realized_pnl := daily' |}, h')
          /\ represents (length h0) h' invs' qs'
          /\ extends h0 h'
    | Raise e =>
        exists (h' : heap),
          for_each (Ledger.loop_body today fromisoformat fromtimestamp)
              (map fst P)
              {| inventories := invs; daily_realized_pnl := daily |} h
            = (Raise e, h')
          /\ extends h0 h'
    end.
Proof.
  induction 1 as [|[t d] P Ht HP IH]; intros h invs qs daily Hrep Hext.
  - simpl. exists h, invs. unfold ret. auto.
  - unfold is_trade in Ht. simpl in Ht.
    assert (Hget : get_trade t h = (Ok d, h)).
    { unfold get_trade. destruct Hext as [_ Hsame].
      rewrite Hsame, Ht; [reflexivity|].
      eapply lookup_lt_Some; exact Ht. }
    cbn [map fst snd]. rewrite for_each_cons.
    rewrite (loop_body_eq _ t d h Hget).
    cbn [PureLedger.run]. unfold PureLedger.loop_body.
    assert (Hstep : forall dt,
      match PureLedger.run today fromisoformat fromtimestamp (map snd P)
              (PureLedger.process today (qs, daily) d dt) with
      | Ok (qs', daily') =>
          exists (h' : heap) invs',
            match Ledger.process today
                    {| inventories := invs; daily_realized_pnl := daily |}
                    d dt h with
            | (Ok a, h1) =>
                for_each
                  (Ledger.loop_body today fromisoformat fromtimestamp)
                  (map fst P) a h1
            | (Raise e, h1) => (Raise e, h1)
            end
            = (Ok {| inventories := invs';
                     daily_realized_pnl := daily' |}, h')
            /\ represents (length h0) h' invs' qs'
            /\ extends h0 h'
      | Raise e =>
          exists (h' : heap),
            match Ledger.process today
                    {| inventories := invs; daily_realized_pnl := daily |}
                    d dt h with
            | (Ok a, h1) =>
                for_each
                  (Ledger.loop_body today fromisoformat fromtimestamp)
                  (map fst P) a h1
            | (Raise e, h1) => (Raise e, h1)
            end
            = (Raise e, h')
            /\ extends h0 h'
      end).
    { intros dt.
      destruct (process_refines (length h0) h invs qs daily d dt
                  Hrep (proj1 Hext))
        as (h1 & invs1 & Hproc & Hrep1 & Hlen1 & Hsame1).
      rewrite Hproc.
      destruct (PureLedger.process today (qs, daily) d dt)
        as [qs1 daily1] eqn:Hpure. simpl in *.
      apply IH; [exact Hrep1|].
      destruct Hext as [Hlen Hsame]. split; [lia|].
      intros l Hl. rewrite Hsame1 by exact Hl. now apply Hsame. }
    destruct (time d) as [s|ms].
    + destruct (fromisoformat s) as [dt|].
      * apply Hstep.
      * apply IH; assumption.
    + destruct (fromtimestamp ms) as [dt|].
      * apply Hstep.
      * exists h. auto.
Qed.

(** Reading the keys: the references paired with the time of their
    dict, or [KeyError] at a reference that is not a trade dict. *)
Lemma keyed_refines (h : heap) (trades : list loc) :
  forall (acc : list (PyTime * loc)),
    for_each (fun acc t => let* d := get_trade t in
                           ret (acc ++ [(time d, t)])) trades acc h
    = match deref_log h trades with
      | Some log =>
          (Ok (acc ++ zip_with (fun t d => (time d, t)) trades log), h)
      | None => (Raise KeyError, h)
      end.
Proof.
  induction trades as [|t trades IH]; intros acc; simpl.
  - unfold ret. now rewrite app_nil_r.
  - unfold bind at 1. unfold bind at 1. unfold get_trade at 1.
    destruct (h !! t) as [[d|b]|]; try reflexivity.
    unfold ret at 1. rewrite IH.
    destruct (deref_log h trades) as [log|]; [|reflexivity].
    simpl. now rewrite <- app_assoc.
Qed.

Lemma sorted_trades_eq (h : heap) (trades : list loc) :
  Ledger.sorted_trades trades h
  = match deref_log h trades with
    | Some log =>
        match sorted_by_key
                (zip_with (fun t d => (time d, t)) trades log) with
        | Ok l => (Ok l, h)
        | Raise e => (Raise e, h)
        end
    | None => (Raise KeyError, h)
    end.
Proof.
  unfold Ledger.sorted_trades, bind. rewrite keyed_refines.
  destruct (deref_log h trades) as [log|]; [|reflexivity]. simpl.
  now destruct (sorted_by_key _).
Qed.

Lemma deref_log_is_trade (h : heap) (trades : list loc) (log : list Trade) :
  deref_log h trades = Some log ->
  Forall (is_trade h) (zip trades log) /\ length trades = length log.
Proof.
  revert log. induction trades as [|t trades IH]; simpl; intros log H.
  - injection H as <-. split; [constructor|reflexivity].
  - destruct (h !! t) as [[d|b]|] eqn:Ht; try discriminate.
    destruct (deref_log h trades) as [log'|]; [|discriminate].
    injection H as <-. destruct (IH log' eq_refl) as [HF Hlen].
    split; [|simpl; now f_equal]. simpl. constructor; [exact Ht|exact HF].
Qed.

(** The body of the [try] does what [PureLedger.fifo_run] does on the
    values of the trade dicts; it raises [KeyError], before it writes
    anything, when a reference is not a trade dict. *)
Lemma fifo_run_refines (h : heap) (trades : list loc) :
  exists (h' : heap),
    extends h h'
    /\ match deref_log h trades with
       | None =>
           h' = h
           /\ Ledger.fifo_run today fromisoformat fromtimestamp trades h
              = (Raise KeyError, h)
       | Some log =>
           match PureLedger.fifo_run today fromisoformat fromtimestamp
                   log with
           | Ok (qs, daily) =>
               exists invs,
                 Ledger.fifo_run today fromisoformat fromtimestamp trades h
                 = (Ok {| inventories := invs;
                          daily_realized_pnl := daily |}, h')
                 /\ represents (length h) h' invs qs
           | Raise e =>
               Ledger.fifo_run today fromisoformat fromtimestamp trades h
               = (Raise e, h')
           end
       end.
Proof.
  unfold Ledger.fifo_run.
  unfold bind. rewrite sorted_trades_eq.
  destruct (deref_log h trades) as [log|] eqn:Hlog.
  2:{ exists h. split; [apply extends_refl|]. split; reflexivity. }
  destruct (deref_log_is_trade h trades log Hlog) as [Htrades Hlen].
  unfold PureLedger.fifo_run.
  set (pairs := zip_with (fun t d => (time d, (t, d))) trades log).
  assert (Hk1 : zip_with (fun t d => (time d, t)) trades log
                = map (prod_map id fst) pairs).
  { unfold pairs. clear. revert log.
    induction trades as [|t trades IH]; intros [|d log]; simpl;
      try reflexivity. now rewrite IH. }
  assert (Hk2 : map (fun d => (time d, d)) log
                = map (prod_map id snd) pairs).
  { unfold pairs. clear -Hlen. revert log Hlen.
    induction trades as [|t trades IH]; intros [|d log] Hlen; simpl;
      try reflexivity; try discriminate.
    rewrite <- IH; [reflexivity|]. simpl in Hlen. lia. }
  assert (Hk3 : map snd pairs = zip trades log).
  { unfold pairs. clear. revert log.
    induction trades as [|t trades IH]; intros [|d log]; simpl;
      try reflexivity. now rewrite IH. }
  rewrite Hk1, Hk2, !sorted_by_key_map.
  destruct (sorted_by_key pairs) as [P|e] eqn:Hsort.
  2:{ exists h. split; [apply extends_refl|reflexivity]. }
  assert (HP : Forall (is_trade h) P).
  { apply sorted_by_key_perm in Hsort. rewrite Hk3 in Hsort.
    now rewrite Hsort. }
  pose proof (for_each_refines h P HP h ∅ ∅ 0
                (represents_empty _ _) (extends_refl h)) as Hrun.
  destruct (PureLedger.run today fromisoformat fromtimestamp
              (map snd P) (∅, 0)) as [[qs' daily']|e].
  - destruct Hrun as (h' & invs' & Hfor & Hrep & Hext).
    exists h'. split; [exact Hext|]. exists invs'. auto.
  - destruct Hrun as (h' & Hfor & Hext).
    exists h'. auto.
Qed.

(** The function returns what [PureLedger.realized_today] computes from
    the values of the trade dicts (0 when a reference is not one), and
    the store it leaves holds the store of the call unchanged, followed
    by the batches it made. *)
Lemma calculate_refines (h : heap) (trades : list loc) :
  exists (h' : heap),
    Ledger.calculate_daily_realized_pnl today fromisoformat fromtimestamp
        trades h
    = (Ok match deref_log h trades with
          | Some log =>
              PureLedger.realized_today today fromisoformat fromtimestamp
                log
          | None => 0
          end, h')
    /\ extends h h'
    /\ (deref_log h trades = None -> h' = h).
Proof.
  destruct (fifo_run_refines h trades) as (h' & Hext & Hrun).
  exists h'. split; [|split; [exact Hext|]].
  - unfold Ledger.calculate_daily_realized_pnl, try_except, bind at 1.
    unfold PureLedger.realized_today.
    destruct (deref_log h trades) as [log|].
    + destruct (PureLedger.fifo_run today fromisoformat fromtimestamp log)
        as [[qs daily]|e].
      * destruct Hrun as (invs & -> & _). reflexivity.
      * rewrite Hrun. reflexivity.
    + destruct Hrun as [-> ->]. reflexivity.
  - intros E. rewrite E in Hrun. now destruct Hrun.
Qed.

Lemma deref_log_extends (h h' : heap) (trades : list loc)
  (log : list Trade) :
  extends h h' ->
  deref_log h trades = Some log -> deref_log h' trades = Some log.
Proof.
  intros [_ Hsame]. revert log.
  induction trades as [|t trades IH]; simpl; intros log H; [exact H|].
  destruct (h !! t) as [[d|b]|] eqn:Ht; try discriminate.
  destruct (deref_log h trades) as [log'|]; [|discriminate].
  rewrite Hsame, Ht by (eapply lookup_lt_Some; exact Ht).
  now rewrite (IH log' eq_refl).
Qed.

(** ** The function on values and the ledger of the specification *)

(** A trade dict and the record it reads as. *)
Definition reads_as (p : Trade * TradeRecord) : Prop :=
  read_trade fromisoformat fromtimestamp (fst p) = Some (snd p).

Lemma reads_as_inv (d : Trade) (r : TradeRecord) :
  reads_as (d, r) ->
  exists dt sd,
    read_day fromisoformat fromtimestamp (time d) = Some dt
    /\ read_side (side d) = Some sd
    /\ r = {| tr_time := time d; tr_day := dt;
              tr_symbol := default "BTC/USDT"%string (symbol d);
              tr_side := sd;
              tr_price := price d; tr_amount := amount d |}.
Proof.
  unfold reads_as, read_trade. simpl.
  destruct (read_day _ _ (time d)) as [dt|]; [|discriminate].
  destruct (read_side (side d)) as [sd|]; [|discriminate].
  intros [= <-]. eauto.
Qed.

Lemma loop_body_readable (st : gmap string (list Batch) * float)
  (d : Trade) (dt : Date) :
  read_day fromisoformat fromtimestamp (time d) = Some dt ->
  PureLedger.loop_body today fromisoformat fromtimestamp st d
  = Ok (PureLedger.process today st d dt).
Proof.
  unfold read_day, PureLedger.loop_body.
  destruct (time d) as [s|ms]; intros ->; reflexivity.
Qed.

Lemma sub_log_snoc (sym : string) (earlier : list TradeRecord)
  (r : TradeRecord) :
  sub_log sym (earlier ++ [r])
  = sub_log sym earlier
    ++ (if String.eqb (tr_symbol r) sym then [r] else []).
Proof. unfold sub_log. now rewrite List.filter_app. Qed.

Lemma open_lots_snoc (sub : list TradeRecord) (r : TradeRecord) :
  open_lots (sub ++ [r]) = apply_trade (open_lots sub) r.
Proof. unfold open_lots. now rewrite fold_left_app. Qed.

(** The queues of the dict are the open lots of each symbol's trades. *)
Definition queues_of (qs : gmap string (list Batch))
  (earlier : list TradeRecord) : Prop :=
  forall sym, default [] (qs !! sym) = open_lots (sub_log sym earlier).

Lemma queues_of_insert (qs : gmap string (list Batch))
  (earlier : list TradeRecord) (r : TradeRecord) :
  queues_of qs earlier ->
  queues_of
    (<[tr_symbol r := apply_trade (default [] (qs !! tr_symbol r)) r]> qs)
    (earlier ++ [r]).
Proof.
  intros Hq sym. rewrite sub_log_snoc.
  destruct (String.eqb_spec (tr_symbol r) sym) as [<-|Hne].
  - rewrite lookup_insert_eq, open_lots_snoc. simpl. now rewrite Hq.
  - rewrite lookup_insert_ne by exact Hne. rewrite app_nil_r. apply Hq.
Qed.

Lemma process_realized (qs : gmap string (list Batch)) (total : float)
  (earlier : list TradeRecord) (d : Trade) (r : TradeRecord) :
  reads_as (d, r) ->
  queues_of qs earlier ->
  exists qs',
    PureLedger.process today (qs, total) d (tr_day r)
    = (qs',
       match tr_side r with
       | SELL =>
           if Date_eqb (tr_day r) today then
             total + sell_pnl (open_lots (sub_log (tr_symbol r) earlier)) r
           else total
       | BUY => total
       end)
    /\ queues_of qs' (earlier ++ [r]).
Proof.
  intros Hread Hq.
  destruct (reads_as_inv d r Hread) as (dt & sd & Hday & Hside & ->).
  pose proof (queues_of_insert qs earlier
                {| tr_time := time d; tr_day := dt;
                   tr_symbol := default "BTC/USDT"%string (symbol d);
                   tr_side := sd;
                   tr_price := price d; tr_amount := amount d |} Hq)
    as Hq'.
  unfold PureLedger.process. simpl in *.
  rewrite <- (Hq (default "BTC/USDT"%string (symbol d))).
  unfold read_side in Hside.
  destruct (String.eqb (upper (side d)) "BUY") eqn:Hbuy.
  - injection Hside as <-. eexists. split; [reflexivity|exact Hq'].
  - destruct (String.eqb (upper (side d)) "SELL") eqn:Hsell;
      [|discriminate].
    injection Hside as <-. unfold sell_pnl. simpl.
    unfold apply_trade in Hq'. simpl in Hq'.
    destruct (withdraw _ (amount d) 0) as [[cost queue'] unmatched].
    eexists. split; [reflexivity|exact Hq'].
Qed.

Lemma run_realized (P : list (Trade * TradeRecord)) :
  Forall reads_as P ->
  forall (qs : gmap string (list Batch)) (total : float)
         (earlier : list TradeRecord),
    queues_of qs earlier ->
    exists qs',
      PureLedger.run today fromisoformat fromtimestamp (map fst P)
                     (qs, total)
      = Ok (qs', realized today earlier (map snd P) total)
      /\ queues_of qs' (earlier ++ map snd P).
Proof.
  induction 1 as [|[d r] P Hread HP IH]; intros qs total earlier Hq.
  - simpl. exists qs. rewrite app_nil_r. auto.
  - cbn [map fst snd PureLedger.run realized].
    destruct (reads_as_inv d r Hread) as (dt & sd & Hday & _ & Hr).
    rewrite (loop_body_readable _ d dt Hday).
    assert (Hdt : dt = tr_day r) by now rewrite Hr.
    rewrite Hdt.
    destruct (process_realized qs total earlier d r Hread Hq)
      as (qs1 & Hproc & Hq1).
    rewrite Hproc.
    match goal with
    | |- context [PureLedger.run _ _ _ _ (qs1, ?t)] =>
        destruct (IH qs1 t (earlier ++ [r]) Hq1) as (qs' & Hrun & Hq')
    end.
    exists qs'. split; [exact Hrun|].
    now rewrite <- app_assoc in Hq'.
Qed.

Lemma read_log_reads_as (h : heap) (trades : list loc)
  (records : list TradeRecord) :
  read_log fromisoformat fromtimestamp h trades = Some records ->
  exists log,
    deref_log h trades = Some log
    /\ Forall reads_as (zip log records)
    /\ length log = length records.
Proof.
  revert records. induction trades as [|t trades IH]; simpl;
    intros records H.
  - injection H as <-. exists []. repeat split; constructor.
  - destruct (h !! t) as [[d|b]|]; try discriminate.
    destruct (read_trade _ _ d) as [r|] eqn:Hr; [|discriminate].
    destruct (read_log _ _ h trades) as [records'|]; [|discriminate].
    injection H as <-.
    destruct (IH records' eq_refl) as (log & -> & HF & Hlen).
    exists (d :: log). split; [reflexivity|].
    split; [|simpl; now f_equal]. simpl. constructor; [exact Hr|exact HF].
Qed.

(** On a log that reads as trade records and whose keys sort, the
    function on values returns the realized PnL of the specification's
    ledger, and the queue it keeps for a symbol is the open lots of that
    symbol's trades. *)
Lemma realized_today_spec (log : list Trade)
  (records sorted : list TradeRecord) :
  Forall reads_as (zip log records) ->
  length log = length records ->
  in_key_order records = Ok sorted ->
  exists qs,
    PureLedger.fifo_run today fromisoformat fromtimestamp log
    = Ok (qs, realized today [] sorted 0)
    /\ queues_of qs sorted.
Proof.
  intros HF Hlen Hsort.
  unfold PureLedger.fifo_run.
  unfold in_key_order in Hsort.
  set (pairs := zip_with (fun d r => (time d, (d, r))) log records).
  assert (Hk1 : map (fun d => (time d, d)) log
                = map (prod_map id fst) pairs).
  { unfold pairs. clear -Hlen. revert records Hlen.
    induction log as [|d log IH]; intros [|r records] Hlen; simpl;
      try reflexivity; try discriminate.
    rewrite <- IH; [reflexivity|]. simpl in Hlen. lia. }
  assert (Hk2 : map (fun r => (tr_time r, r)) records
                = map (prod_map id snd) pairs).
  { unfold pairs. clear -Hlen HF. revert records Hlen HF.
    induction log as [|d log IH]; intros [|r records] Hlen HF; simpl;
      try reflexivity; try discriminate.
    simpl in HF. apply Forall_cons in HF as [Hr HF].
    destruct (reads_as_inv d r Hr) as (dt & sd & _ & _ & ->). simpl.
    rewrite <- IH; [reflexivity| |exact HF]. simpl in Hlen. lia. }
  assert (Hk3 : map snd pairs = zip log records).
  { unfold pairs. clear. revert records.
    induction log as [|d log IH]; intros [|r records]; simpl;
      try reflexivity. now rewrite IH. }
  rewrite Hk1, sorted_by_key_map. rewrite Hk2, sorted_by_key_map in Hsort.
  destruct (sorted_by_key pairs) as [P|e] eqn:HP; [|discriminate].
  injection Hsort as <-.
  assert (HFP : Forall reads_as P).
  { apply sorted_by_key_perm in HP. rewrite Hk3 in HP. now rewrite HP. }
  destruct (run_realized P HFP ∅ 0 []) as (qs & Hrun & Hq).
  { intros sym. rewrite lookup_empty. reflexivity. }
  exists qs. split; [exact Hrun|exact Hq].
Qed.
End WithClock.

End LedgerProofs.

(** * The claims on the ledger *)

Module LedgerClaims.
Import Ledger TradeLedger PureLedger SortProofs LedgerProofs.

Lemma deref_log_perm (h : heap) (trades1 trades2 : list loc) :
  trades1 ≡ₚ trades2 ->
  match deref_log h trades1, deref_log h trades2 with
  | Some log1, Some log2 => log1 ≡ₚ log2
  | None, None => True
  | _, _ => False
  end.
Proof.
  induction 1 as [|t l1 l2 Hp IH|t t' l|l1 l2 l3 Hp1 IH1 Hp2 IH2]; simpl.
  - reflexivity.
  - destruct (h !! t) as [[d|b]|]; auto;
      destruct (deref_log h l1), (deref_log h l2); auto.
  - destruct (h !! t) as [[d|b]|], (h !! t') as [[d'|b']|]; auto;
      destruct (deref_log h l); auto. apply perm_swap.
  - destruct (deref_log h l1), (deref_log h l2), (deref_log h l3);
      try contradiction; auto. etransitivity; eauto.
Qed.

(** The day and the two records of the specification's examples, bought
    at 10:00 and sold at 11:00, as the controller stores them. *)
Definition example_day : Date := {| year := 2024; month := 5; day := 17 |}.

Definition example_gain : heap :=
  [ DTrade {| time := TStr "2024-05-17T10:00:00"; side := "BUY";
              price := 100; amount := 1; symbol := None |};
    DTrade {| time := TStr "2024-05-17T11:00:00"; side := "SELL";
              price := 110; amount := 1; symbol := None |} ].

Definition example_loss : heap :=
  [ DTrade {| time := TStr "2024-05-17T10:00:00"; side := "BUY";
              price := 100; amount := 2; symbol := None |};
    DTrade {| time := TStr "2024-05-17T11:00:00"; side := "SELL";
              price := 90; amount := 1; symbol := None |} ].

(** Where the function does what the specification's ledger does: on a
    trade log that reads as trade records (each reference is a trade dict
    whose time the function can date and whose side is a buy or a sell)
    and whose keys [sorted] can compare, the function runs to the end, its
    result is the realized PnL of the specification's ledger for today on
    the records in the order of their keys (each sell against the FIFO
    queue of its own symbol's earlier trades, the unmatched remainder at
    the sale price, the sells dated today added up), and the inventory it
    holds for a symbol is the open lots of that symbol's trades.  The two
    examples of the specification, written with ISO times, give 10, and
    -10 with one lot of amount 1 at price 100 left.  The records that
    [execute_order] writes are not of this kind. *)
Lemma fifo_on_readable_logs :
  (forall (today : Date) (fromisoformat : string -> option Date)
          (fromtimestamp : Z -> option Date)
          (h : heap) (trades : list loc) (records sorted : list TradeRecord),
      read_log fromisoformat fromtimestamp h trades = Some records ->
      in_key_order records = Ok sorted ->
      exists (h' : heap) (st : Locals),
        Ledger.fifo_run today fromisoformat fromtimestamp trades h
          = (Ok st, h')
        /\ daily_realized_pnl st = realized today [] sorted 0
        /\ (forall sym,
              Forall2 (points_to h') (default [] (inventories st !! sym))
                      (open_lots (sub_log sym sorted)))
        /\ fst (Ledger.calculate_daily_realized_pnl
                  today fromisoformat fromtimestamp trades h)
           = Ok (realized today [] sorted 0))
  /\ fst (Ledger.calculate_daily_realized_pnl example_day
            ExampleClock.fromisoformat ExampleClock.fromtimestamp
            [0; 1]%nat example_gain) = Ok 10
  /\ exists (h' : heap) (st : Locals) (lot : loc),
       Ledger.fifo_run example_day
           ExampleClock.fromisoformat ExampleClock.fromtimestamp
           [0; 1]%nat example_loss = (Ok st, h')
       /\ daily_realized_pnl st = (-10)%float
       /\ inventories st !! "BTC/USDT"%string = Some [lot]
       /\ h' !! lot = Some (DBatch {| batch_price := 100;
                                       batch_amount := 1 |}).
Proof.
  split; [|split].
  - intros today fromisoformat fromtimestamp h trades records sorted
           Hread Hsort.
    destruct (read_log_reads_as fromisoformat fromtimestamp h trades
                records Hread) as (log & Hlog & HF & Hlen).
    destruct (realized_today_spec today fromisoformat fromtimestamp log
                records sorted HF Hlen Hsort) as (qs & Hpure & Hq).
    destruct (fifo_run_refines today fromisoformat fromtimestamp h trades)
      as (h' & Hext & Hrun).
    rewrite Hlog, Hpure in Hrun. destruct Hrun as (invs & Hrun & Hrep).
    exists h', {| inventories := invs;
                  daily_realized_pnl := realized today [] sorted 0 |}.
    split; [exact Hrun|]. split; [reflexivity|]. split.
    + intros sym. simpl. rewrite <- (Hq sym).
      eapply represents_default; exact Hrep.
    + destruct (calculate_refines today fromisoformat fromtimestamp h trades)
        as (h'' & Hcalc & _).
      rewrite Hcalc, Hlog. simpl. unfold PureLedger.realized_today.
      now rewrite Hpure.
  - vm_compute. reflexivity.
  - eexists _, _, 2%nat. vm_compute. repeat split; reflexivity.
Qed.

(** The first example, through the general statement: the log reads as
    two records, in order already. *)
Lemma fifo_on_readable_logs_witness :
  fst (Ledger.calculate_daily_realized_pnl example_day
         ExampleClock.fromisoformat ExampleClock.fromtimestamp
         [0; 1]%nat example_gain)
  = Ok (realized example_day []
          [ {| tr_time := TStr "2024-05-17T10:00:00"; tr_day := example_day;
               tr_symbol := "BTC/USDT"; tr_side := BUY;
               tr_price := 100; tr_amount := 1 |};
            {| tr_time := TStr "2024-05-17T11:00:00"; tr_day := example_day;
               tr_symbol := "BTC/USDT"; tr_side := SELL;
               tr_price := 110; tr_amount := 1 |} ] 0).
Proof.
  destruct (proj1 fifo_on_readable_logs example_day
              ExampleClock.fromisoformat ExampleClock.fromtimestamp
              example_gain [0; 1]%nat _ _ eq_refl eq_refl)
    as (h' & st & _ & _ & _ & H).
  exact H.
Defined.

(** ** The controller's own records *)

(** A round trip in DOGE/USDT as the exchange reports it: 100 bought at
    0.5 and sold at 0.75 an hour later, both on 4 November 2025. *)
Definition fill_day : Date := {| year := 2025; month := 11; day := 4 |}.

Definition bought_fill : Controller.Order :=
  {| Controller.order_timestamp := Controller.Value 1762221600000%Z;
     Controller.order_average := Some 0.5;
     Controller.order_price := None |}.

Definition sold_fill : Controller.Order :=
  {| Controller.order_timestamp := Controller.Value 1762225200000%Z;
     Controller.order_average := Some 0.75;
     Controller.order_price := None |}.

Definition fill_tick (order : Controller.Order) : Controller.Tick :=
  {| Controller.tick_fetched := None; Controller.tick_now := 0;
     Controller.tick_order := Some order; Controller.tick_now_ms := 0%Z;
     Controller.tick_balance := None |}.

(** The store and the controller after [execute_order] has recorded the
    two fills. *)
Definition own_log : heap :=
  [ DTrade {| time := TStr "1762221600000"; side := "BUY";
              price := 0.5; amount := 100;
              symbol := Some "DOGE/USDT"%string |};
    DTrade {| time := TStr "1762225200000"; side := "SELL";
              price := 0.75; amount := 100;
              symbol := Some "DOGE/USDT"%string |} ].

Definition after_buy : Controller.Controller :=
  Controller.set_balance
    (Controller.set_trades Controller.init [0%nat]) None.

Definition after_sell : Controller.Controller :=
  Controller.set_balance
    (Controller.set_trades after_buy [1; 0]%nat) None.

(** The same two trades as the specification's ledger takes them, dated
    by their timestamps. *)
Definition own_records : list TradeRecord :=
  [ {| tr_time := TInt 1762221600000; tr_day := fill_day;
       tr_symbol := "DOGE/USDT"; tr_side := BUY;
       tr_price := 0.5; tr_amount := 100 |};
    {| tr_time := TInt 1762225200000; tr_day := fill_day;
       tr_symbol := "DOGE/USDT"; tr_side := SELL;
       tr_price := 0.75; tr_amount := 100 |} ].

(** C1, at a failing input: the trade log that the controller itself
    writes.  [execute_order] records a fill with [str] of its timestamp
    in milliseconds as the time; the function can read a [str] time only
    as an ISO date and skips the record.  For a buy and a sell that were
    both filled on the query day it returns 0 and keeps no inventory,
    where the ledger of the specification realizes 25 on the same two
    trades. *)
Theorem C1_own_fills_realize_nothing :
  Controller.execute_order Controller.init BUY "DOGE/USDT"
    (Controller.make_strategy "DOGE/USDT") (fill_tick bought_fill) []
  = (Ok after_buy, take 1 own_log)
  /\ Controller.execute_order after_buy SELL "DOGE/USDT"
       (Controller.make_strategy "DOGE/USDT") (fill_tick sold_fill)
       (take 1 own_log)
     = (Ok after_sell, own_log)
  /\ Controller.trades after_sell = [1; 0]%nat
  /\ ExampleClock.fromtimestamp 1762221600000 = Some fill_day
  /\ ExampleClock.fromtimestamp 1762225200000 = Some fill_day
  /\ ExampleClock.fromisoformat "1762221600000" = None
  /\ ExampleClock.fromisoformat "1762225200000" = None
  /\ Ledger.fifo_run fill_day
       ExampleClock.fromisoformat ExampleClock.fromtimestamp
       (Controller.trades after_sell) own_log
     = (Ok {| inventories := ∅; daily_realized_pnl := 0 |}, own_log)
  /\ Ledger.calculate_daily_realized_pnl fill_day
       ExampleClock.fromisoformat ExampleClock.fromtimestamp
       (Controller.trades after_sell) own_log
     = (Ok 0, own_log)
  /\ realized fill_day [] own_records 0 = 25.
Proof. repeat split; vm_compute; reflexivity. Qed.

(** C2: a call leaves every object that was in the store where it was and
    as it was (the store after the call is the store before it, followed
    by the batches the call made), so the trade log reads the same after
    the call, and a second call on the store the first one left returns
    the same result. *)
Theorem C2_pnl_idempotent_log_unchanged (today : Date)
  (fromisoformat : string -> option Date) (fromtimestamp : Z -> option Date)
  (h : heap) (trades : list loc) :
  let r := Ledger.calculate_daily_realized_pnl
             today fromisoformat fromtimestamp trades h in
  h `prefix_of` snd r
  /\ (forall l d, h !! l = Some d -> snd r !! l = Some d)
  /\ deref_log (snd r) trades = deref_log h trades
  /\ fst (Ledger.calculate_daily_realized_pnl
            today fromisoformat fromtimestamp trades (snd r)) = fst r.
Proof.
  destruct (calculate_refines today fromisoformat fromtimestamp h trades)
    as (h' & Hcalc & Hext & Hnone).
  rewrite Hcalc. simpl.
  assert (Hlog : deref_log h' trades = deref_log h trades).
  { destruct (deref_log h trades) as [log|] eqn:E.
    - eapply deref_log_extends; eauto.
    - now rewrite (Hnone eq_refl). }
  split; [now apply extends_prefix|]. split; [|split; [exact Hlog|]].
  - intros l d Hl. destruct Hext as [_ Hsame].
    rewrite Hsame; [exact Hl|]. eapply lookup_lt_Some; exact Hl.
  - destruct (calculate_refines today fromisoformat fromtimestamp h' trades)
      as (h'' & Hcalc' & _).
    rewrite Hcalc'. simpl. now rewrite Hlog.
Qed.

(** C8: two trade logs that hold the same records in different orders,
    the times of the records all different, give the same daily realized
    PnL. *)
Theorem C8_pnl_independent_of_log_order (today : Date)
  (fromisoformat : string -> option Date) (fromtimestamp : Z -> option Date)
  (h : heap) (trades1 trades2 : list loc) (log1 : list Trade) :
  deref_log h trades1 = Some log1 ->
  NoDup (map time log1) ->
  trades1 ≡ₚ trades2 ->
  fst (Ledger.calculate_daily_realized_pnl
         today fromisoformat fromtimestamp trades1 h)
  = fst (Ledger.calculate_daily_realized_pnl
           today fromisoformat fromtimestamp trades2 h).
Proof.
  intros Hlog1 Hnd Hp.
  destruct (calculate_refines today fromisoformat fromtimestamp h trades1)
    as (h1 & -> & _).
  destruct (calculate_refines today fromisoformat fromtimestamp h trades2)
    as (h2 & -> & _).
  simpl. f_equal.
  pose proof (deref_log_perm h trades1 trades2 Hp) as Hperm.
  rewrite Hlog1 in *.
  destruct (deref_log h trades2) as [log2|]; [|contradiction].
  unfold PureLedger.realized_today, PureLedger.fifo_run.
  rewrite (sorted_by_key_unique (map (fun d => (time d, d)) log1)
             (map (fun d => (time d, d)) log2)).
  - reflexivity.
  - now apply Permutation_map.
  - now rewrite map_map.
Qed.

Lemma C8_pnl_independent_of_log_order_witness :
  fst (Ledger.calculate_daily_realized_pnl example_day
         ExampleClock.fromisoformat ExampleClock.fromtimestamp
         [0; 1]%nat example_gain)
  = fst (Ledger.calculate_daily_realized_pnl example_day
           ExampleClock.fromisoformat ExampleClock.fromtimestamp
           [1; 0]%nat example_gain).
Proof.
  apply (C8_pnl_independent_of_log_order example_day
           ExampleClock.fromisoformat ExampleClock.fromtimestamp
           example_gain [0; 1]%nat [1; 0]%nat _ eq_refl).
  - repeat constructor; simpl; rewrite ?elem_of_cons, ?elem_of_nil;
      intuition discriminate.
  - apply perm_swap.
Defined.

End LedgerClaims.

(** * The two versions of the ledger *)

Module LegacyProofs.

(** A store whose trade dicts have no ['symbol']. *)
Definition symbol_less (o : PyDict) : Prop :=
  match o with
  | DTrade d => symbol d = None
  | DBatch _ => True
  end.

Lemma fill_keeps_symbol_less (inventory : list loc) :
  forall (qty cost : float) (h : heap) r h',
    Ledger.fill inventory qty cost h = (r, h') ->
    Forall symbol_less h -> Forall symbol_less h'.
Proof.
  induction inventory as [|batch rest IH]; intros qty cost h r h' Hfill Hh;
    simpl in Hfill.
  - destruct (qty >? 0); unfold ret in Hfill; now injection Hfill as _ <-.
  - destruct (qty >? 0); [|unfold ret in Hfill; now injection Hfill as _ <-].
    unfold bind at 1 in Hfill. unfold get_batch at 1 in Hfill.
    destruct (h !! batch) as [[d|b]|] eqn:Hb;
      try (now injection Hfill as _ <-).
    destruct (batch_amount b >? qty).
    + unfold bind, set_batch_amount, ret in Hfill. rewrite Hb in Hfill.
      injection Hfill as _ <-. apply Forall_insert; [exact Hh|exact I].
    + eapply IH; eauto.
Qed.

Section WithClock.
Context (today : Date)
        (fromisoformat : string -> option Date)
        (fromtimestamp : Z -> option Date).

(** The inventory of the older function is the BTC/USDT inventory of the
    newer one. *)
Definition same_locals (st : LegacyLedger.Locals) (st' : Ledger.Locals)
  : Prop :=
  default [] (Ledger.inventories st' !! "BTC/USDT"%string)
  = LegacyLedger.inventory st
  /\ Ledger.daily_realized_pnl st' = LegacyLedger.daily_realized_pnl st.

Definition same_outcome (r : result LegacyLedger.Locals * heap)
  (r' : result Ledger.Locals * heap) : Prop :=
  snd r = snd r'
  /\ match fst r, fst r' with
     | Ok st, Ok st' => same_locals st st'
     | Raise e, Raise e' => e = e'
     | _, _ => False
     end.

Lemma process_agrees (st : LegacyLedger.Locals) (st' : Ledger.Locals)
  (d : Trade) (dt : Date) (h : heap) :
  same_locals st st' ->
  symbol d = None ->
  same_outcome (LegacyLedger.process today st d dt h)
               (Ledger.process today st' d dt h).
Proof.
  intros [Hinv Hpnl] Hsym.
  unfold LegacyLedger.process, Ledger.process. rewrite Hsym. simpl.
  rewrite Hinv, Hpnl.
  destruct (String.eqb (upper (side d)) "BUY").
  - unfold bind, alloc, ret. split; [reflexivity|]. simpl.
    split; [|reflexivity]. simpl. now rewrite lookup_insert_eq.
  - destruct (String.eqb (upper (side d)) "SELL").
    + unfold bind.
      destruct (Ledger.fill (LegacyLedger.inventory st) (amount d) 0 h)
        as [[[[inv' qty] cost]|e] h'].
      * unfold ret. split; [reflexivity|]. simpl.
        split; [|reflexivity]. simpl. now rewrite lookup_insert_eq.
      * split; reflexivity.
    + unfold ret. split; [reflexivity|]. simpl.
      split; [|reflexivity]. simpl. now rewrite lookup_insert_eq.
Qed.

Lemma process_keeps_symbol_less (st : Ledger.Locals) (d : Trade) (dt : Date)
  (h : heap) r h' :
  Ledger.process today st d dt h = (r, h') ->
  Forall symbol_less h -> Forall symbol_less h'.
Proof.
  unfold Ledger.process. intros Hp Hh.
  destruct (String.eqb (upper (side d)) "BUY").
  - unfold bind, alloc, ret in Hp. injection Hp as _ <-.
    apply Forall_app. split; [exact Hh|]. repeat constructor.
  - destruct (String.eqb (upper (side d)) "SELL").
    + unfold bind in Hp.
      destruct (Ledger.fill _ (amount d) 0 h)
        as [[[[inv' qty] cost]|e] h1] eqn:Hfill.
      * unfold ret in Hp. injection Hp as _ <-.
        eapply fill_keeps_symbol_less; eauto.
      * injection Hp as _ <-. eapply fill_keeps_symbol_less; eauto.
    + unfold ret in Hp. now injection Hp as _ <-.
Qed.

Lemma loops_agree (sorted : list loc) :
  forall (st : LegacyLedger.Locals) (st' : Ledger.Locals) (h : heap),
    same_locals st st' ->
    Forall symbol_less h ->
    same_outcome
      (for_each (LegacyLedger.loop_body today fromisoformat fromtimestamp)
                sorted st h)
      (for_each (Ledger.loop_body today fromisoformat fromtimestamp)
                sorted st' h).
Proof.
  induction sorted as [|t sorted IH]; intros st st' h Hst Hh.
  - simpl. unfold ret. split; [reflexivity|exact Hst].
  - rewrite !LedgerProofs.for_each_cons.
    unfold LegacyLedger.loop_body, Ledger.loop_body, bind, get_trade.
    destruct (h !! t) as [[d|b]|] eqn:Ht; try (split; reflexivity).
    assert (Hsym : symbol d = None).
    { apply (Forall_lookup_1 _ _ _ _ Hh Ht). }
    assert (Hstep : forall dt,
      same_outcome
        match LegacyLedger.process today st d dt h with
        | (Ok a, h1) =>
            for_each
              (LegacyLedger.loop_body today fromisoformat fromtimestamp)
              sorted a h1
        | (Raise e, h1) => (Raise e, h1)
        end
        match Ledger.process today st' d dt h with
        | (Ok a, h1) =>
            for_each (Ledger.loop_body today fromisoformat fromtimestamp)
                     sorted a h1
        | (Raise e, h1) => (Raise e, h1)
        end).
    { intros dt.
      pose proof (process_agrees st st' d dt h Hst Hsym) as [Hh1 Hr].
      pose proof (process_keeps_symbol_less st' d dt h) as Hkeep.
      destruct (LegacyLedger.process today st d dt h) as [[a|e] h1],
               (Ledger.process today st' d dt h) as [[a'|e'] h1'];
        simpl in *; subst; try contradiction.
      - apply IH; [exact Hr|]. eapply Hkeep; eauto.
      - split; reflexivity. }
    destruct (time d) as [s|ms].
    + destruct (fromisoformat s) as [dt|]; [apply Hstep|].
      unfold ret. apply IH; assumption.
    + destruct (fromtimestamp ms) as [dt|]; [apply Hstep|].
      unfold raise. split; reflexivity.
Qed.

(** X10: on a store whose records carry no symbol, the older function
    returns what the newer one returns and leaves the same store. *)
Lemma legacy_agrees (trades : list loc) (h : heap) :
  Forall symbol_less h ->
  LegacyLedger.calculate_daily_realized_pnl
    today fromisoformat fromtimestamp trades h
  = Ledger.calculate_daily_realized_pnl
      today fromisoformat fromtimestamp trades h.
Proof.
  intros Hh.
  unfold LegacyLedger.calculate_daily_realized_pnl,
    Ledger.calculate_daily_realized_pnl, try_except,
    LegacyLedger.fifo_run, Ledger.fifo_run.
  unfold bind. rewrite LedgerProofs.sorted_trades_eq.
  destruct (PureLedger.deref_log h trades) as [log|]; [|reflexivity].
  destruct (sorted_by_key _) as [sorted|e]; [|reflexivity].
  pose proof (loops_agree sorted
                {| LegacyLedger.inventory := [];
                   LegacyLedger.daily_realized_pnl := 0 |}
                {| Ledger.inventories := ∅;
                   Ledger.daily_realized_pnl := 0 |} h) as [Hh' Hr].
  { split; reflexivity. }
  { exact Hh. }
  destruct (for_each (LegacyLedger.loop_body _ _ _) sorted _ h)
    as [[st|e] h1],
    (for_each (Ledger.loop_body _ _ _) sorted _ h) as [[st'|e'] h1'];
    simpl in *; subst; try contradiction.
  - unfold ret. destruct Hr as [_ ->]. reflexivity.
  - reflexivity.
Qed.
End WithClock.

End LegacyProofs.

(** * Properties of the controller *)

Module ControllerProofs.
Import TrendRSI Controller PureLedger LedgerProofs.

(** ** What a signal tells about the strategy *)

Lemma check_signals_df (s : Strategy) : df (snd (check_signals s)) = df s.
Proof.
  unfold check_signals.
  destruct (current_row s) as [r|]; [|reflexivity].
  unfold entry_block, long_exit_block, short_exit_block.
  destruct (position s) as [[|]|]; simpl;
    repeat match goal with
           | |- context [if ?b then _ else _] => destruct b; simpl
           end; reflexivity.
Qed.

Lemma check_signals_signal_row (s : Strategy) (sig : Signal) :
  fst (check_signals s) = Some sig -> exists r, current_row s = Some r.
Proof.
  unfold check_signals. destruct (current_row s) as [r|]; [eauto|].
  discriminate.
Qed.

Lemma current_row_last (s : Strategy) (r : Row) :
  current_row s = Some r ->
  exists rows, df s = Some rows /\ last rows = Some r.
Proof.
  unfold current_row. destruct (df s) as [rows|]; [|discriminate].
  destruct (length rows <? 2)%nat; [discriminate|]. eauto.
Qed.

(** The price of the fill is there when the strategy has a last row. *)
Lemma fill_price_ok (order : Order) (strategy : Strategy) (rows : list Row)
  (r : Row) :
  df strategy = Some rows -> last rows = Some r ->
  exists p, fill_price order strategy = Ok p.
Proof.
  intros Hdf Hlast. unfold fill_price. rewrite Hdf, Hlast.
  destruct (truthy (order_average order)); [eauto|].
  destruct (truthy (order_price order)); eauto.
Qed.

(** ** [execute_order] *)

(** The trade dict [execute_order] makes for a fill. *)
Definition fill_record (side : Signal) (symbol : string) (order : Order)
  (p : float) (now_ms : Z) : Trade :=
  {| time := TStr (order_time order now_ms);
     side := signal_name side;
     price := p;
     amount := order_amount symbol;
     symbol := Some symbol |}.

Lemma execute_order_fill (c : Controller) (side : Signal) (symbol : string)
  (strategy : Strategy) (tk : Tick) (h : heap) (order : Order) (p : float) :
  tick_order tk = Some order ->
  fill_price order strategy = Ok p ->
  execute_order c side symbol strategy tk h
  = (Ok (set_balance
           (set_trades c (take 20 (length h :: trades c)))
           (tick_balance tk)),
     h ++ [DTrade (fill_record side symbol order p (tick_now_ms tk))]).
Proof.
  intros Ho Hp. unfold execute_order. rewrite Ho, Hp. reflexivity.
Qed.

Lemma execute_order_no_fill (c : Controller) (side : Signal)
  (symbol : string) (strategy : Strategy) (tk : Tick) (h : heap) :
  tick_order tk = None ->
  execute_order c side symbol strategy tk h = (Ok c, h).
Proof. intros Ho. unfold execute_order. now rewrite Ho. Qed.

(** With a last row, [execute_order] returns; it writes [trades] and
    [balance] and nothing else. *)
Lemma execute_order_returns (c : Controller) (side : Signal)
  (symbol : string) (strategy : Strategy) (tk : Tick) (h : heap)
  (rows : list Row) (r : Row) :
  df strategy = Some rows -> last rows = Some r ->
  exists c' h',
    execute_order c side symbol strategy tk h = (Ok c', h')
    /\ last_trade_times c' = last_trade_times c
    /\ session_start_nav c' = session_start_nav c
    /\ is_running c' = is_running c
    /\ strategies c' = strategies c
    /\ task c' = task c
    /\ h `prefix_of` h'.
Proof.
  intros Hdf Hlast.
  destruct (tick_order tk) as [order|] eqn:Ho.
  - destruct (fill_price_ok order strategy rows r Hdf Hlast) as [p Hp].
    rewrite (execute_order_fill c side symbol strategy tk h order p Ho Hp).
    eexists _, _. split; [reflexivity|].
    do 5 (split; [reflexivity|]). now apply prefix_app_r.
  - rewrite (execute_order_no_fill c side symbol strategy tk h Ho).
    exists c, h. do 6 (split; [reflexivity|]). reflexivity.
Qed.

(** Whatever happens in [execute_order], these attributes stay. *)
Lemma execute_order_keeps (c : Controller) (side : Signal) (symbol : string)
  (strategy : Strategy) (tk : Tick) (h : heap) (c' : Controller)
  (h' : heap) :
  execute_order c side symbol strategy tk h = (Ok c', h') ->
  last_trade_times c' = last_trade_times c
  /\ session_start_nav c' = session_start_nav c
  /\ is_running c' = is_running c
  /\ strategies c' = strategies c
  /\ task c' = task c.
Proof.
  unfold execute_order. destruct (tick_order tk) as [order|].
  - destruct (fill_price order strategy) as [p|e].
    + unfold bind, alloc, ret. intros [= <- <-]. repeat split.
    + unfold raise. discriminate.
  - unfold ret. intros [= <- <-]. repeat split.
Qed.

(** ** One pass of the loop over a symbol *)

(** The signal the pass over [sym] gets from [check_signals], after the
    update of the strategy. *)
Definition signal_at (c : Controller) (sym : string) (tk : Tick)
  : option Signal :=
  match dict_get (strategies c) sym with
  | Some strategy => fst (check_signals (update strategy (tick_fetched tk)))
  | None => None
  end.

(** [self.last_trade_times.get(symbol, 0)] *)
Definition last_trade_time (c : Controller) (sym : string) : float :=
  default 0 (last_trade_times c !! sym).

(** What no step of the loop writes. *)
Definition same_session (c c' : Controller) : Prop :=
  session_start_nav c' = session_start_nav c
  /\ is_running c' = is_running c
  /\ task c' = task c.

Lemma same_session_refl (c : Controller) : same_session c c.
Proof. repeat split. Qed.

Lemma same_session_trans (c1 c2 c3 : Controller) :
  same_session c1 c2 -> same_session c2 c3 -> same_session c1 c3.
Proof.
  intros (H1 & H2 & H3) (H4 & H5 & H6). repeat split; congruence.
Qed.

(** The pass returns.  It sends an order exactly when it has a signal and
    the cooldown test passes, and then writes the time of the test as the
    symbol's trade time; otherwise it leaves the trade times, the trade
    log and the store as they are. *)
Lemma symbol_step_cases (c : Controller) (sym : string) (tk : Tick)
  (h : heap) :
  exists c' h',
    symbol_step c sym tk h
    = (Ok (c', match signal_at c sym tk with
               | Some sig =>
                   if cooldown_over (tick_now tk) (last_trade_time c sym)
                   then Some (order_request sig sym)
                   else None
               | None => None
               end), h')
    /\ same_session c c'
    /\ h `prefix_of` h'
    /\ match signal_at c sym tk with
       | Some sig =>
           if cooldown_over (tick_now tk) (last_trade_time c sym)
           then last_trade_times c'
                = <[sym := tick_now tk]> (last_trade_times c)
           else last_trade_times c' = last_trade_times c
                /\ trades c' = trades c /\ h' = h
       | None =>
           last_trade_times c' = last_trade_times c
           /\ trades c' = trades c /\ h' = h
       end.
Proof.
  unfold symbol_step, signal_at, last_trade_time.
  destruct (dict_get (strategies c) sym) as [strategy|].
  2:{ exists c, h. unfold ret. split; [reflexivity|].
      split; [apply same_session_refl|]. split; [reflexivity|]. auto. }
  pose proof (check_signals_df (update strategy (tick_fetched tk))) as Hdf.
  pose proof (check_signals_signal_row (update strategy (tick_fetched tk)))
    as Hrow.
  destruct (check_signals (update strategy (tick_fetched tk)))
    as [[sig|] s2]; simpl in *.
  2:{ eexists _, h. unfold ret. split; [reflexivity|].
      split; [repeat split|]. split; [reflexivity|]. auto. }
  destruct (Hrow sig eq_refl) as [r Hr].
  apply current_row_last in Hr as (rows & Hrows & Hlast).
  rewrite <- Hdf in Hrows.
  unfold on_signal. simpl.
  destruct (cooldown_over (tick_now tk)
              (default 0 (last_trade_times c !! sym))).
  - destruct (execute_order_returns
                (set_last_signal
                   (set_strategies c (dict_set (strategies c) sym s2))
                   (Some (sym, sig)))
                sig sym s2 tk h rows r Hrows Hlast)
      as (c1 & h1 & Hexec & Hltt & Hnav & Hrun & _ & Htask & Hpre).
    unfold try_except, bind. rewrite Hexec. unfold ret.
    eexists _, h1. split; [reflexivity|].
    split; [repeat split; assumption|]. split; [exact Hpre|].
    simpl. now rewrite Hltt.
  - eexists _, h. unfold ret. split; [reflexivity|].
    split; [repeat split|]. split; [reflexivity|]. auto.
Qed.

(** ** The other steps of the loop *)

Lemma record_prices_keeps (c : Controller) (now : float) :
  same_session c (record_prices c now)
  /\ last_trade_times (record_prices c now) = last_trade_times c.
Proof.
  unfold record_prices.
  assert (H : forall syms c0,
             same_session c c0 /\ last_trade_times c0 = last_trade_times c ->
             let c1 :=
               fold_left
                 (fun c sym =>
                    match truthy (market_prices c !! sym) with
                    | Some p =>
                        set_price_history c
                          (<[sym := last_100
                                      (default [] (price_history c !! sym)
                                       ++ [{| hp_time := now;
                                              hp_value := p |}])]>
                             (price_history c))
                    | None => c
                    end) syms c0 in
             same_session c c1 /\ last_trade_times c1 = last_trade_times c).
  { induction syms as [|sym syms IH]; intros c0 Hc0; simpl; [exact Hc0|].
    apply IH. destruct (truthy (market_prices c0 !! sym)); exact Hc0. }
  apply H. split; [apply same_session_refl|reflexivity].
Qed.

Lemma update_history_data_keeps (c : Controller) (now : float) :
  same_session c (update_history_data c now)
  /\ last_trade_times (update_history_data c now) = last_trade_times c.
Proof.
  unfold update_history_data.
  destruct (now - last_history_update c <? 10).
  - split; [apply same_session_refl|reflexivity].
  - match goal with
    | |- context [record_prices ?c1 now] =>
        destruct (record_prices_keeps c1 now) as [Hs Hl]
    end.
    split; [exact Hs|exact Hl].
Qed.

(** An action that is a step of the pass over [sym]. *)
Definition concerns (sym : string) (a : LoopAction) : bool :=
  match a with
  | ASymbol s _ | AOrderPlaced _ s _ | AFillBalance s _ _ => String.eqb s sym
  | ABalance _ | AHistory _ | ATickers _ => false
  end.

Lemma lookup_insert_other (m : gmap string float) (s sym : string)
  (v : float) :
  String.eqb s sym = false -> <[s := v]> m !! sym = m !! sym.
Proof.
  intros H. apply lookup_insert_ne. intros ->.
  rewrite String.eqb_refl in H. discriminate.
Qed.

(** Each action returns, keeps the session's attributes, and keeps the
    trade time of a symbol it does not concern. *)
Lemma run_action_returns (c : Controller) (a : LoopAction) (h : heap) :
  exists c' h',
    run_action c a h = (Ok c', h')
    /\ same_session c c'
    /\ (forall sym, concerns sym a = false ->
                    last_trade_times c' !! sym = last_trade_times c !! sym).
Proof.
  destruct a as [s tk|sig s tk|s now bal|bal|now|tickers]; simpl.
  - destruct (symbol_step_cases c s tk h) as (c' & h' & Hstep & Hs & _ & Hl).
    unfold bind. rewrite Hstep. unfold ret. exists c', h'.
    split; [reflexivity|]. split; [exact Hs|].
    intros sym Hsym.
    destruct (signal_at c s tk) as [sg|];
      [destruct (cooldown_over (tick_now tk) (last_trade_time c s))|].
    + rewrite Hl. now apply lookup_insert_other.
    + now destruct Hl as [-> _].
    + now destruct Hl as [-> _].
  - destruct (dict_get (strategies c) s) as [strategy|].
    2:{ exists c, h. unfold ret. split; [reflexivity|].
        split; [apply same_session_refl|]. auto. }
    unfold try_except, bind.
    destruct (execute_order c sig s strategy tk h) as [[c1|e] h1] eqn:Hexec.
    + destruct (execute_order_keeps _ _ _ _ _ _ _ _ Hexec)
        as (Hltt & Hnav & Hrun & _ & Htask).
      unfold ret. eexists _, h1. split; [reflexivity|].
      split; [repeat split; assumption|].
      intros sym Hsym. simpl. rewrite Hltt. now apply lookup_insert_other.
    + unfold ret. exists c, h1. split; [reflexivity|].
      split; [apply same_session_refl|]. auto.
  - unfold ret. eexists _, h. split; [reflexivity|].
    split; [repeat split|].
    intros sym Hsym. simpl. now apply lookup_insert_other.
  - unfold ret. eexists _, h. split; [reflexivity|].
    destruct (balance_truthy bal); split; repeat split.
  - unfold ret. eexists _, h. split; [reflexivity|].
    destruct (update_history_data_keeps c now) as [Hs Hl].
    split; [exact Hs|]. intros sym _. now rewrite Hl.
  - unfold ret. eexists _, h. split; [reflexivity|].
    split; repeat split.
Qed.

Lemma run_actions_return (actions : list LoopAction) :
  forall (c : Controller) (h : heap),
  exists c' h',
    for_each run_action actions c h = (Ok c', h')
    /\ same_session c c'
    /\ (forall sym, Forall (fun a => concerns sym a = false) actions ->
                    last_trade_times c' !! sym = last_trade_times c !! sym).
Proof.
  induction actions as [|a actions IH]; intros c h.
  - exists c, h. unfold for_each, ret. split; [reflexivity|].
    split; [apply same_session_refl|]. auto.
  - destruct (run_action_returns c a h) as (c1 & h1 & Hrun & Hs1 & Hl1).
    destruct (IH c1 h1) as (c' & h' & Hrest & Hs & Hl).
    exists c', h'. split; [|split].
    + simpl. unfold bind. now rewrite Hrun.
    + eapply same_session_trans; eauto.
    + intros sym HF. apply Forall_cons in HF as [Ha HF].
      rewrite Hl by exact HF. now apply Hl1.
Qed.

End ControllerProofs.

(** * The claims on the controller *)

Module ControllerClaims.
Import TrendRSI Controller PureLedger LedgerProofs ControllerProofs.

(** A controller that trades BTC/USDT with a flat strategy, and a pass
    whose table ends in a pullback inside an uptrend. *)
Definition pullback_rows : list Row :=
  [ {| close := 104; rsi := 41; sma_20 := 100 |};
    {| close := 102; rsi := 27; sma_20 := 101 |} ].


Definition one_symbol : Controller :=
  set_is_running
    (set_strategies Controller.init
       [("BTC/USDT"%string, make_strategy "BTC/USDT")])
    true.

Definition a_fill : Order :=
  {| order_timestamp := Value 1762221600000%Z;
     order_average := Some 102; order_price := None |}.

Definition tick_at (now : float) (rows : list Row) : Tick :=
  {| tick_fetched := Some rows; tick_now := now;
     tick_order := Some a_fill; tick_now_ms := 1762221600123%Z;
     tick_balance := None |}.



(** ** [get_status] *)

(** [get_status] returns when the baseline is there or no history point
    is; it makes batches in the store and writes to no object that was
    there. *)
Lemma get_status_returns (today : Date)
  (fromisoformat : string -> option Date) (fromtimestamp : Z -> option Date)
  (c : Controller) (h : heap) :
  session_start_nav c <> None \/ pnl_history c = [] ->
  exists st h',
    get_status today fromisoformat fromtimestamp c h = (Ok st, h')
    /\ h `prefix_of` h'.
Proof.
  intros Hok. unfold get_status.
  destruct (calculate_refines today fromisoformat fromtimestamp h (trades c))
    as (h' & Hcalc & Hext & _).
  assert (Hnav : exists v,
             match last (pnl_history c) with
             | Some point =>
                 match session_start_nav c with
                 | Some start_nav => ret (start_nav + hp_value point)
                 | None => raise AttributeError
                 end
             | None => ret 0
             end h = (Ok v, h)).
  { destruct Hok as [Hnav|Hnil].
    - destruct (session_start_nav c) as [v|]; [|contradiction].
      destruct (last (pnl_history c)); unfold ret; eauto.
    - rewrite Hnil. unfold ret. simpl. eauto. }
  destruct Hnav as [v Hv].
  unfold bind at 1. rewrite Hv. unfold bind. rewrite Hcalc. unfold ret.
  eexists _, h'. split; [reflexivity|]. now apply extends_prefix.
Qed.

(** The exchange answers nothing: no candles, no balance, no ticker. *)
Definition exchange_down : Cycle :=
  {| cycle_ticks :=
       fun _ => {| tick_fetched := None; tick_now := 1762221605;
                   tick_order := None; tick_now_ms := 1762221605000%Z;
                   tick_balance := None |};
     cycle_balance := None;
     cycle_now := 1762221605 |}.

Definition started_without_balance : Controller :=
  snd (start Controller.init "SINGLE" ["BTC/USDT"%string]
             (fun _ => None) None (fun _ => None)).

(** C7, at a failing state: [start] finds no balance ([get_balance]
    returned [None]), so it sets no [session_start_nav] and starts the
    loop; the first iteration adds a point to [pnl_history]
    ([update_history_data] tests [hasattr(self, 'session_start_nav')]);
    [get_status] then reads the missing attribute and raises
    [AttributeError]. *)
Theorem C7_status_raises_without_baseline :
  fst (start Controller.init "SINGLE" ["BTC/USDT"%string]
             (fun _ => None) None (fun _ => None))
  = Ok (Started "SINGLE")
  /\ session_start_nav started_without_balance = None
  /\ exists c,
       run_loop_iteration started_without_balance exchange_down []
       = (Ok (c, []), [])
       /\ pnl_history c = [ {| hp_time := 1762221605; hp_value := 0 |} ]
       /\ get_status {| year := 2025; month := 11; day := 4 |}
            ExampleClock.fromisoformat ExampleClock.fromtimestamp c []
          = (Raise AttributeError, []).
Proof.
  split; [reflexivity|]. split; [reflexivity|].
  eexists. split; [vm_compute; reflexivity|].
  split; vm_compute; reflexivity.
Qed.

(** ** [start] and [stop] *)

Lemma start_strategies_keep (symbols : list string)
  (fetched : string -> option (list Row)) :
  forall c : Controller,
    let c' :=
      fold_left
        (fun c sym =>
           set_strategies c
             (dict_set (strategies c) sym
                       (update (make_strategy sym) (fetched sym))))
        symbols c in
    market_prices c' = market_prices c
    /\ session_start_nav c' = session_start_nav c.
Proof.
  induction symbols as [|sym symbols IH]; intros c; simpl; [auto|].
  destruct (IH (set_strategies c
                  (dict_set (strategies c) sym
                            (update (make_strategy sym) (fetched sym)))))
    as [H1 H2].
  split; [exact H1|exact H2].
Qed.

(** A session with 1000 USDT and no coin. *)
Definition usdt_only : option Balance :=
  Some {| total := Some [("USDT"%string, 1000)]; other_keys := true |}.

Definition started_with_1000 : Controller :=
  snd (start Controller.init "SINGLE" ["BTC/USDT"%string]
             (fun _ => Some pullback_rows) usdt_only (fun _ => None)).

(** C9 as stated fails: after [stop] returns, the baseline that [start]
    set is still there. *)
Lemma C9_baseline_counterexample :
  stop started_with_1000 [] []
  = (Ok (Stopped, set_is_running started_with_1000 false), [])
  /\ session_start_nav (set_is_running started_with_1000 false) = Some 1000
  /\ ~ (forall c in_flight h c' h',
          stop c in_flight h = (Ok (Stopped, c'), h') ->
          session_start_nav c' = None).
Proof.
  split; [vm_compute; reflexivity|]. split; [vm_compute; reflexivity|].
  intros H.
  specialize (H started_with_1000 [] []
                (set_is_running started_with_1000 false) [] eq_refl).
  vm_compute in H. discriminate.
Qed.

(** C9, amended: a [start] that returns with the session started, having
    fetched a balance with totals, has set the baseline to the net asset
    value it computed from that balance, and the controller is running;
    a [start] on a running controller changes nothing; [stop] does not
    clear the baseline: it returns with the controller stopped and the
    baseline as it was, whatever the loop still does. *)
Theorem C9_baseline_set_by_start_kept_by_stop :
  (forall c mode symbols fetched bal ticker c' totals,
      start c mode symbols fetched bal ticker = (Ok (Started mode), c') ->
      balance_total bal = Some totals ->
      exists v,
        start_nav (market_prices c) ticker totals
                  (default 0 (dict_get totals "USDT")) = Ok v
        /\ session_start_nav c' = Some v
        /\ is_running c' = true)
  /\ (forall c mode symbols fetched bal ticker,
         is_running c = true ->
         start c mode symbols fetched bal ticker = (Ok AlreadyRunning, c))
  /\ (forall c in_flight h,
         exists r c' h',
           stop c in_flight h = (Ok (r, c'), h')
           /\ session_start_nav c' = session_start_nav c
           /\ is_running c' = false).
Proof.
  split; [|split].
  - intros c mode symbols fetched bal ticker c' totals Hstart Htot.
    unfold start in Hstart.
    destruct (is_running c) eqn:Hrun; [discriminate|].
    match type of Hstart with
    | context [fold_left ?f symbols ?c0] =>
        destruct (start_strategies_keep symbols fetched c0) as [Hmp _]
    end.
    simpl in Hmp. simpl in Hstart. rewrite Htot in Hstart.
    simpl in Hstart. rewrite Hmp in Hstart. simpl in Hstart.
    destruct (start_nav (market_prices c) ticker totals
                        (default 0 (dict_get totals "USDT")))
      as [v|e]; simpl in Hstart; [|discriminate].
    injection Hstart as <-. exists v. repeat split.
  - intros c mode symbols fetched bal ticker Hrun.
    unfold start. now rewrite Hrun.
  - intros c in_flight h. unfold stop.
    destruct (is_running c) eqn:Hrun; simpl.
    + destruct (task c) eqn:Htask; simpl.
      * destruct (run_actions_return in_flight (set_is_running c false) h)
          as (c' & h' & Hact & (Hnav & Hr & _) & _).
        unfold bind. rewrite Hact. unfold ret.
        exists Stopped, c', h'. split; [reflexivity|].
        split; [exact Hnav|exact Hr].
      * unfold bind, ret.
        eexists _, _, h. split; [reflexivity|]. split; reflexivity.
    + unfold ret. exists AlreadyStopped, c, h.
      split; [reflexivity|]. split; [reflexivity|exact Hrun].
Qed.

Lemma C9_baseline_set_by_start_kept_by_stop_witness :
  session_start_nav started_with_1000 = Some 1000
  /\ is_running started_with_1000 = true.
Proof.
  destruct (proj1 C9_baseline_set_by_start_kept_by_stop
              Controller.init "SINGLE"%string ["BTC/USDT"%string]
              (fun _ => Some pullback_rows) usdt_only (fun _ => None)
              started_with_1000 [("USDT"%string, 1000)] eq_refl eq_refl)
    as (v & Hv & Hnav & Hrun).
  vm_compute in Hv. injection Hv as <-.
  split; [exact Hnav|exact Hrun].
Defined.

(** ** The trade log *)

(** C10: an executed fill goes to the front of the trade log as a new
    dict, and the log keeps that reference and the first 19 it had: it
    holds at most 20; two controllers whose logs start with the same 19
    references have the same log after the same fill, so what came after
    the 19th counts for nothing; and the daily realized PnL is computed
    from the records of the log, at most 20. *)
Theorem C10_trade_log_keeps_20 :
  (forall c side sym strategy tk h order p,
      tick_order tk = Some order ->
      fill_price order strategy = Ok p ->
      exists c',
        execute_order c side sym strategy tk h
        = (Ok c',
           h ++ [DTrade (fill_record side sym order p (tick_now_ms tk))])
        /\ trades c' = length h :: take 19 (trades c)
        /\ (length (trades c') <= 20)%nat)
  /\ (forall c1 c2 side sym strategy tk h c1' h1 c2' h2,
         take 19 (trades c1) = take 19 (trades c2) ->
         tick_order tk <> None ->
         execute_order c1 side sym strategy tk h = (Ok c1', h1) ->
         execute_order c2 side sym strategy tk h = (Ok c2', h2) ->
         trades c1' = trades c2' /\ h1 = h2
         /\ forall today fromisoformat fromtimestamp,
              fst (Ledger.calculate_daily_realized_pnl
                     today fromisoformat fromtimestamp (trades c1') h1)
              = fst (Ledger.calculate_daily_realized_pnl
                       today fromisoformat fromtimestamp (trades c2') h2))
  /\ (forall today fromisoformat fromtimestamp c h log,
         (length (trades c) <= 20)%nat ->
         deref_log h (trades c) = Some log ->
         (length log <= 20)%nat
         /\ fst (Ledger.calculate_daily_realized_pnl
                   today fromisoformat fromtimestamp (trades c) h)
            = Ok (PureLedger.realized_today
                    today fromisoformat fromtimestamp log)).
Proof.
  split; [|split].
  - intros c side sym strategy tk h order p Ho Hp.
    rewrite (execute_order_fill c side sym strategy tk h order p Ho Hp).
    eexists. split; [reflexivity|]. split; [reflexivity|].
    simpl. rewrite length_take. lia.
  - intros c1 c2 side sym strategy tk h c1' h1 c2' h2 Htake Ho H1 H2.
    unfold execute_order in H1, H2.
    destruct (tick_order tk) as [order|]; [|contradiction].
    destruct (fill_price order strategy) as [p|e];
      [|unfold raise in H1; discriminate].
    unfold bind, alloc, ret in H1, H2.
    injection H1 as <- <-. injection H2 as <- <-. simpl.
    rewrite Htake. auto.
  - intros today fromisoformat fromtimestamp c h log Hlen Hlog.
    destruct (calculate_refines today fromisoformat fromtimestamp h
                (trades c)) as (h' & Hcalc & _).
    rewrite Hcalc, Hlog. split; [|reflexivity].
    destruct (deref_log_is_trade h (trades c) log Hlog) as [_ <-].
    exact Hlen.
Qed.

Lemma C10_trade_log_keeps_20_witness :
  exists c',
    execute_order one_symbol BUY "BTC/USDT"
      (set_df (make_strategy "BTC/USDT") (Some pullback_rows))
      (tick_at 1762221600 pullback_rows) []
    = (Ok c',
       [DTrade (fill_record BUY "BTC/USDT" a_fill 102 1762221600123)])
    /\ trades c' = [0%nat]
    /\ (length (trades c') <= 20)%nat.
Proof.
  exact (proj1 C10_trade_log_keeps_20 one_symbol BUY "BTC/USDT"%string
           (set_df (make_strategy "BTC/USDT") (Some pullback_rows))
           (tick_at 1762221600 pullback_rows) [] a_fill 102
           eq_refl eq_refl).
Defined.

(** The time [execute_order] writes is [str] of the fill's timestamp in
    milliseconds, thirteen digits that [datetime.fromisoformat] refuses:
    the ledger skips the record.  A buy at 100 and a sell at 110 that the
    controller recorded on the query day give 0. *)
Remark recorded_fills_are_skipped :
  ExampleClock.fromisoformat (order_time a_fill 1762221600123) = None
  /\ ExampleClock.fromtimestamp 1762221600000
     = Some {| year := 2025; month := 11; day := 4 |}
  /\ fst (Ledger.calculate_daily_realized_pnl
            {| year := 2025; month := 11; day := 4 |}
            ExampleClock.fromisoformat ExampleClock.fromtimestamp
            [1; 0]%nat
            [ DTrade (fill_record BUY "BTC/USDT"
                        {| order_timestamp := Value 1762221600000%Z;
                           order_average := Some 100;
                           order_price := None |} 100 0);
              DTrade (fill_record SELL "BTC/USDT"
                        {| order_timestamp := Value 1762225200000%Z;
                           order_average := Some 110;
                           order_price := None |} 110 0) ])
     = Ok 0.
Proof. repeat split; vm_compute; reflexivity. Qed.

End ControllerClaims.

(** * More on the strategy state machine *)

Module TrendRSIExtras.
Import TrendRSI TrendRSIProofs.

(** A flat strategy on a table that is still warming up. *)
Definition flat_warming_up : Strategy :=
  {| df := Some [ {| close := 104; rsi := nan; sma_20 := nan |};
                  {| close := 102; rsi := 27; sma_20 := nan |} ];
     position := None; entry_price := 0;
     sl_pct := 0.03; tp_pct := 0.06;
     rsi_buy_thresh := 30; rsi_sell_thresh := 70 |}.

(** X1: while the indicators warm up, a flat strategy stays out: on a row
    whose SMA or RSI is NaN, [check_signals] gives no signal and changes
    nothing, and [get_next_action] says that it is initializing. *)
Theorem warming_up_gives_no_entry (s : Strategy) (r : Row) :
  position s = None ->
  current_row s = Some r ->
  is_nan (sma_20 r) = true \/ is_nan (rsi r) = true ->
  check_signals s = (None, s) /\ get_next_action s r = Initializing.
Proof.
  intros Hflat Hrow Hnan. split.
  - exact (flat_nan_no_signal s r Hflat Hrow Hnan).
  - unfold get_next_action. destruct Hnan as [-> | ->]; [reflexivity|].
    now rewrite orb_true_r.
Qed.

Lemma warming_up_gives_no_entry_witness :
  check_signals flat_warming_up = (None, flat_warming_up)
  /\ get_next_action flat_warming_up
       {| close := 102; rsi := 27; sma_20 := nan |} = Initializing.
Proof.
  apply (warming_up_gives_no_entry flat_warming_up
           {| close := 102; rsi := 27; sma_20 := nan |}).
  - reflexivity.
  - reflexivity.
  - left. reflexivity.
Defined.

Lemma check_signals_short (s : Strategy) (r : Row) :
  position s = Some SHORT ->
  current_row s = Some r ->
  check_signals s =
    if short_stop_loss s (close r) || short_take_profit s (close r)
       || short_rsi_exit s (rsi r)
    then (Some BUY, set_position s None)
    else (None, s).
Proof.
  intros Hshort Hrow. unfold check_signals. rewrite Hrow.
  unfold entry_block, long_exit_block, short_exit_block. rewrite Hshort.
  destruct (short_stop_loss s (close r)); [reflexivity|].
  destruct (short_take_profit s (close r)); [reflexivity|].
  destruct (short_rsi_exit s (rsi r)); reflexivity.
Qed.

(** X2: in phase SHORT a call returns no signal and leaves the strategy as it
    is, or returns BUY and moves to the flat phase, changing nothing else;
    it returns BUY exactly when the row it evaluates satisfies one of the
    three exit predicates of a short position. *)
Theorem short_only_buys (s : Strategy) :
  position s = Some SHORT ->
  (check_signals s = (None, s)
   \/ check_signals s = (Some BUY, set_position s None))
  /\ (fst (check_signals s) = Some BUY <->
      exists r, current_row s = Some r
        /\ (short_stop_loss s (close r) = true
            \/ short_take_profit s (close r) = true
            \/ short_rsi_exit s (rsi r) = true)).
Proof.
  intros Hshort.
  destruct (current_row s) as [r|] eqn:Hrow.
  - rewrite (check_signals_short s r Hshort Hrow).
    destruct (short_stop_loss s (close r)) eqn:E1;
      destruct (short_take_profit s (close r)) eqn:E2;
      destruct (short_rsi_exit s (rsi r)) eqn:E3; simpl;
      (split; [auto|]); split;
      try (intros _; exists r; split; [reflexivity|]; auto; fail);
      try reflexivity; try discriminate.
    intros (r' & Hr' & H). injection Hr' as <-.
    rewrite E1, E2, E3 in H. destruct H as [H|[H|H]]; discriminate.
  - rewrite (check_signals_no_row s Hrow). simpl.
    split; [auto|]. split; [discriminate|].
    intros (r & Hr & _). discriminate.
Qed.

Definition short_stopped_out : Strategy :=
  {| df := Some [ {| close := 99; rsi := 55; sma_20 := 101 |};
                  {| close := 104; rsi := 60; sma_20 := 101 |} ];
     position := Some SHORT; entry_price := 100;
     sl_pct := 0.03; tp_pct := 0.06;
     rsi_buy_thresh := 30; rsi_sell_thresh := 70 |}.

Lemma short_only_buys_witness :
  fst (check_signals short_stopped_out) = Some BUY.
Proof.
  apply (proj2 (short_only_buys short_stopped_out eq_refl)).
  exists {| close := 104; rsi := 60; sma_20 := 101 |}.
  split; [reflexivity|]. left. vm_compute. reflexivity.
Defined.

(** X3: from the flat phase, on the row [check_signals] evaluates, SELL is
    returned exactly when the long entry does not apply and the close is
    under the SMA with the RSI over the sell threshold; the strategy is
    then short, entered at that close. *)
Theorem flat_sell_iff (s : Strategy) (r : Row) :
  position s = None ->
  current_row s = Some r ->
  (fst (check_signals s) = Some SELL <->
   ((close r >? sma_20 r) && (rsi r <? rsi_buy_thresh s) = false)
   /\ (close r <? sma_20 r) = true /\ (rsi r >? rsi_sell_thresh s) = true)
  /\ (fst (check_signals s) = Some SELL ->
      position (snd (check_signals s)) = Some SHORT
      /\ entry_price (snd (check_signals s)) = close r).
Proof.
  intros Hflat Hrow. unfold check_signals. rewrite Hrow.
  unfold entry_block, long_exit_block, short_exit_block. rewrite Hflat.
  destruct ((close r >? sma_20 r) && (rsi r <? rsi_buy_thresh s)) eqn:E1;
    simpl.
  - split; [split; [discriminate|intros [H _]; discriminate]|discriminate].
  - destruct (close r <? sma_20 r) eqn:E2;
      destruct (rsi r >? rsi_sell_thresh s) eqn:E3; simpl.
    + split; [split; auto|]. intros _. split; reflexivity.
    + split; [split; [discriminate|intros (_ & _ & H); discriminate]
             |discriminate].
    + split; [split; [discriminate|intros (_ & H & _); discriminate]
             |discriminate].
    + split; [split; [discriminate|intros (_ & H & _); discriminate]
             |discriminate].
Qed.

Definition flat_bounce : Strategy :=
  {| df := Some [ {| close := 97; rsi := 66; sma_20 := 100 |};
                  {| close := 99; rsi := 74; sma_20 := 100 |} ];
     position := None; entry_price := 0;
     sl_pct := 0.03; tp_pct := 0.06;
     rsi_buy_thresh := 30; rsi_sell_thresh := 70 |}.

Lemma flat_sell_iff_witness :
  fst (check_signals flat_bounce) = Some SELL
  /\ position (snd (check_signals flat_bounce)) = Some SHORT
  /\ entry_price (snd (check_signals flat_bounce)) = 99.
Proof.
  pose proof (flat_sell_iff flat_bounce
                {| close := 99; rsi := 74; sma_20 := 100 |}
                eq_refl eq_refl) as [Hiff Hstate].
  assert (Hsell : fst (check_signals flat_bounce) = Some SELL).
  { apply Hiff. repeat split; vm_compute; reflexivity. }
  split; [exact Hsell|]. exact (Hstate Hsell).
Defined.

(** X4: the transitions of a call: no signal goes with no change at all; BUY
    goes with flat to long or short to flat, SELL with flat to short or
    long to flat.  The table, the stop and target percentages and the
    thresholds are never written, and the entry price only by an entry. *)
Theorem check_signals_transitions (s : Strategy) :
  let sig := fst (check_signals s) in
  let s' := snd (check_signals s) in
  (sig = None -> s' = s)
  /\ (sig = Some BUY ->
      (position s = None /\ position s' = Some LONG)
      \/ (position s = Some SHORT /\ position s' = None
          /\ entry_price s' = entry_price s))
  /\ (sig = Some SELL ->
      (position s = None /\ position s' = Some SHORT)
      \/ (position s = Some LONG /\ position s' = None
          /\ entry_price s' = entry_price s))
  /\ df s' = df s /\ sl_pct s' = sl_pct s /\ tp_pct s' = tp_pct s
  /\ rsi_buy_thresh s' = rsi_buy_thresh s
  /\ rsi_sell_thresh s' = rsi_sell_thresh s.
Proof.
  unfold check_signals.
  destruct (current_row s) as [r|]; simpl.
  2:{ repeat split; auto; discriminate. }
  unfold entry_block, long_exit_block, short_exit_block.
  destruct (position s) as [[|]|] eqn:Hpos; simpl;
    repeat match goal with
           | |- context [if ?b then _ else _] => destruct b; simpl
           end;
    repeat split; auto; try discriminate; intros _; auto.
Qed.

(** What the message of [get_next_action] announces. *)
Definition announced (a : NextAction) (p : option Position)
  : option Signal :=
  match a with
  | LongEntry => Some BUY
  | ShortEntry => Some SELL
  | ExitStopLoss | ExitTakeProfit | ExitRSI =>
      match p with
      | Some LONG => Some SELL
      | Some SHORT => Some BUY
      | None => None
      end
  | Initializing | WaitingForSignal | HoldLong | HoldShort => None
  end.

(** X5: on the row [check_signals] evaluates, unless the message says that
    the indicators are initializing, the signal is the one the message
    announces: an entry or an exit message goes with the signal, a
    waiting or holding message with none. *)
Theorem next_action_announces_signal (s : Strategy) (r : Row) :
  current_row s = Some r ->
  get_next_action s r <> Initializing ->
  fst (check_signals s) = announced (get_next_action s r) (position s).
Proof.
  intros Hrow Hinit. unfold check_signals. rewrite Hrow.
  unfold get_next_action in *.
  destruct (is_nan (sma_20 r) || is_nan (rsi r)); [contradiction|].
  unfold entry_block, long_exit_block, short_exit_block.
  destruct (position s) as [[|]|]; simpl;
    repeat match goal with
           | |- context [if ?b then _ else _] => destruct b; simpl
           end; reflexivity.
Qed.

Lemma next_action_announces_signal_witness :
  fst (check_signals flat_bounce)
  = announced (get_next_action flat_bounce
                 {| close := 99; rsi := 74; sma_20 := 100 |}) None.
Proof.
  apply (next_action_announces_signal flat_bounce
           {| close := 99; rsi := 74; sma_20 := 100 |}).
  - reflexivity.
  - vm_compute. discriminate.
Defined.

End TrendRSIExtras.

(** * More on the ledger *)

Module LedgerExtras.
Import Ledger TradeLedger PureLedger SortProofs LedgerProofs.

Lemma Date_eqb_eq (a b : Date) : Date_eqb a b = true -> a = b.
Proof.
  destruct a as [y m d], b as [y' m' d']. unfold Date_eqb. simpl.
  rewrite !andb_true_iff, !Z.eqb_eq. intros [[-> ->] ->]. reflexivity.
Qed.

Lemma deref_log_elem (h : heap) (trades : list loc) :
  forall (log : list Trade) (d : Trade),
    deref_log h trades = Some log -> d ∈ log ->
    exists l, l ∈ trades /\ h !! l = Some (DTrade d).
Proof.
  induction trades as [|t trades IH]; simpl; intros log d H Hin.
  - injection H as <-. inversion Hin.
  - destruct (h !! t) as [[d0|b]|] eqn:Ht; try discriminate.
    destruct (deref_log h trades) as [log'|]; [|discriminate].
    injection H as <-. apply elem_of_cons in Hin as [->|Hin].
    + exists t. split; [left|exact Ht].
    + destruct (IH log' d eq_refl Hin) as (l & Hl & Hd).
      exists l. split; [now right|exact Hd].
Qed.

Lemma deref_log_None (h : heap) (trades : list loc) (l : loc) :
  l ∈ trades -> (forall d, h !! l <> Some (DTrade d)) ->
  deref_log h trades = None.
Proof.
  induction trades as [|t trades IH]; simpl; intros Hin Hl.
  - inversion Hin.
  - apply elem_of_cons in Hin as [<-|Hin].
    + destruct (h !! l) as [[d|b]|] eqn:E; try reflexivity.
      now destruct (Hl d).
    + rewrite (IH Hin Hl). now destruct (h !! t) as [[d|b]|].
Qed.

Lemma deref_log_lookup (h : heap) (trades : list loc) :
  forall (log : list Trade) (l : loc) (d : Trade),
    deref_log h trades = Some log -> l ∈ trades ->
    h !! l = Some (DTrade d) -> d ∈ log.
Proof.
  induction trades as [|t trades IH]; simpl; intros log l d H Hin Hl.
  - inversion Hin.
  - destruct (h !! t) as [[d0|b]|] eqn:Ht; try discriminate.
    destruct (deref_log h trades) as [log'|]; [|discriminate].
    injection H as <-. apply elem_of_cons in Hin as [->|Hin].
    + rewrite Ht in Hl. injection Hl as ->. left.
    + right. now apply (IH log' l d).
Qed.

Section WithClock.
Context (today : Date)
        (fromisoformat : string -> option Date)
        (fromtimestamp : Z -> option Date).

(** A sell that the function dates today. *)
Definition sell_today (d : Trade) : Prop :=
  upper (side d) = "SELL"%string
  /\ read_day fromisoformat fromtimestamp (time d) = Some today.

Lemma process_no_sell_today (st : gmap string (list Batch) * float)
  (d : Trade) (dt : Date) :
  read_day fromisoformat fromtimestamp (time d) = Some dt ->
  ~ sell_today d ->
  snd (PureLedger.process today st d dt) = snd st.
Proof.
  intros Hday Hno. destruct st as [invs daily].
  unfold PureLedger.process.
  destruct (String.eqb (upper (side d)) "BUY"); [reflexivity|].
  destruct (String.eqb_spec (upper (side d)) "SELL") as [Hsell|_];
    [|reflexivity].
  destruct (withdraw _ _ _) as [[cost q] left]. simpl.
  destruct (Date_eqb dt today) eqn:E; [|reflexivity].
  apply Date_eqb_eq in E. subst dt. destruct Hno. split; assumption.
Qed.

Lemma run_no_sell_today (log : list Trade) :
  Forall (fun d => ~ sell_today d) log ->
  forall st st',
    PureLedger.run today fromisoformat fromtimestamp log st = Ok st' ->
    snd st' = snd st.
Proof.
  induction 1 as [|d log Hd HF IH]; simpl; intros st st' Hrun.
  - now injection Hrun as <-.
  - unfold PureLedger.loop_body in Hrun.
    destruct (time d) as [s|ms] eqn:Ht.
    + destruct (fromisoformat s) as [dt|] eqn:Hs.
      * rewrite (IH _ _ Hrun). apply process_no_sell_today; [|exact Hd].
        rewrite Ht. exact Hs.
      * exact (IH _ _ Hrun).
    + destruct (fromtimestamp ms) as [dt|] eqn:Hs; [|discriminate].
      rewrite (IH _ _ Hrun). apply process_no_sell_today; [|exact Hd].
      rewrite Ht. exact Hs.
Qed.

Lemma realized_today_no_sell (log : list Trade) :
  Forall (fun d => ~ sell_today d) log ->
  PureLedger.realized_today today fromisoformat fromtimestamp log = 0.
Proof.
  intros HF. unfold PureLedger.realized_today, PureLedger.fifo_run.
  destruct (sorted_by_key _) as [sorted|e] eqn:Hsort; [|reflexivity].
  apply sorted_by_key_perm in Hsort.
  rewrite map_map, map_id in Hsort.
  destruct (PureLedger.run _ _ _ sorted (∅, 0)) as [[qs daily]|e] eqn:Hrun;
    [|reflexivity].
  apply run_no_sell_today in Hrun; [exact Hrun|].
  now rewrite Hsort.
Qed.

(** The prices of the batches of a queue. *)
Definition prices (queue : list Batch) : list float :=
  map batch_price queue.

(** The records of a symbol that the loop takes as buys: the side reads
    BUY and the time has a date. *)
Definition is_buy_of (sym : string) (d : Trade) : bool :=
  String.eqb (default "BTC/USDT"%string (symbol d)) sym
  && String.eqb (upper (side d)) "BUY"
  && match read_day fromisoformat fromtimestamp (time d) with
     | Some _ => true
     | None => false
     end.

Definition buys_of (sym : string) (log : list Trade) : list Trade :=
  List.filter (is_buy_of sym) log.

Lemma withdraw_suffix (queue : list Batch) :
  forall (sold cost : float),
    prices (snd (fst (withdraw queue sold cost))) `suffix_of` prices queue.
Proof.
  induction queue as [|lot queue IH]; simpl; intros sold cost.
  - reflexivity.
  - destruct (sold >? 0); [|reflexivity].
    destruct (batch_amount lot >? sold); [reflexivity|].
    apply suffix_cons_r, IH.
Qed.

Lemma process_suffix (invs : gmap string (list Batch)) (daily : float)
  (d : Trade) (dt : Date) (earlier : list Trade) :
  read_day fromisoformat fromtimestamp (time d) = Some dt ->
  (forall sym, prices (default [] (invs !! sym))
               `suffix_of` map price (buys_of sym earlier)) ->
  forall sym,
    prices (default []
              (fst (PureLedger.process today (invs, daily) d dt) !! sym))
    `suffix_of` map price (buys_of sym (earlier ++ [d])).
Proof.
  intros Hday Hinv sym. unfold buys_of. rewrite List.filter_app, map_app.
  simpl. unfold is_buy_of at 2. rewrite Hday, andb_true_r.
  unfold PureLedger.process.
  set (s := default "BTC/USDT"%string (symbol d)).
  destruct (String.eqb (upper (side d)) "BUY") eqn:Hbuy.
  - simpl. destruct (String.eqb_spec s sym) as [<-|Hne]; simpl.
    + rewrite lookup_insert_eq. simpl. unfold prices. rewrite map_app.
      simpl. apply suffix_app, Hinv.
    + rewrite lookup_insert_ne by exact Hne. rewrite app_nil_r. apply Hinv.
  - rewrite andb_false_r. simpl. rewrite app_nil_r.
    destruct (String.eqb (upper (side d)) "SELL").
    + pose proof (withdraw_suffix (default [] (invs !! s)) (amount d) 0)
        as Hw.
      destruct (withdraw _ _ _) as [[cost q] left]. simpl in *.
      destruct (decide (s = sym)) as [<-|Hne].
      * rewrite lookup_insert_eq. simpl. etransitivity; [exact Hw|].
        apply Hinv.
      * rewrite lookup_insert_ne by exact Hne. apply Hinv.
    + simpl. destruct (decide (s = sym)) as [<-|Hne].
      * rewrite lookup_insert_eq. simpl. apply Hinv.
      * rewrite lookup_insert_ne by exact Hne. apply Hinv.
Qed.

Lemma buys_of_skipped (sym : string) (earlier : list Trade) (d : Trade) :
  read_day fromisoformat fromtimestamp (time d) = None ->
  buys_of sym (earlier ++ [d]) = buys_of sym earlier.
Proof.
  intros Hday. unfold buys_of. rewrite List.filter_app. simpl.
  unfold is_buy_of at 2. rewrite Hday, andb_false_r. apply app_nil_r.
Qed.

Lemma run_suffix (log : list Trade) :
  forall (earlier : list Trade) (invs invs' : gmap string (list Batch))
         (daily daily' : float),
    (forall sym, prices (default [] (invs !! sym))
                 `suffix_of` map price (buys_of sym earlier)) ->
    PureLedger.run today fromisoformat fromtimestamp log (invs, daily)
    = Ok (invs', daily') ->
    forall sym, prices (default [] (invs' !! sym))
                `suffix_of` map price (buys_of sym (earlier ++ log)).
Proof.
  induction log as [|d log IH]; simpl;
    intros earlier invs invs' daily daily' Hinv Hrun sym.
  - injection Hrun as <- <-. rewrite app_nil_r. apply Hinv.
  - replace (earlier ++ d :: log) with ((earlier ++ [d]) ++ log)
      by now rewrite <- app_assoc.
    unfold PureLedger.loop_body in Hrun.
    destruct (time d) as [s|ms] eqn:Ht.
    + destruct (fromisoformat s) as [dt|] eqn:Hs.
      * destruct (PureLedger.process today (invs, daily) d dt)
          as [invs1 daily1] eqn:Hp.
        apply (IH (earlier ++ [d]) invs1 invs' daily1 daily'); [|exact Hrun].
        intros sym'.
        pose proof (process_suffix invs daily d dt earlier) as H.
        rewrite Hp in H. apply H; [|exact Hinv]. rewrite Ht. exact Hs.
      * apply (IH (earlier ++ [d]) invs invs' daily daily'); [|exact Hrun].
        intros sym'. rewrite buys_of_skipped; [apply Hinv|].
        rewrite Ht. exact Hs.
    + destruct (fromtimestamp ms) as [dt|] eqn:Hs; [|discriminate].
      destruct (PureLedger.process today (invs, daily) d dt)
        as [invs1 daily1] eqn:Hp.
      apply (IH (earlier ++ [d]) invs1 invs' daily1 daily'); [|exact Hrun].
      intros sym'.
      pose proof (process_suffix invs daily d dt earlier) as H.
      rewrite Hp in H. apply H; [|exact Hinv]. rewrite Ht. exact Hs.
Qed.

End WithClock.

(** ** Keys already in order *)

(** No key is under the key before it. *)
Fixpoint ascending (ts : list PyTime) : bool :=
  match ts with
  | [] => true
  | t1 :: rest =>
      match rest with
      | [] => true
      | t2 :: _ =>
          match t1, t2 with
          | TStr a, TStr b => negb (String.ltb b a)
          | TInt a, TInt b => negb (b <? a)%Z
          | _, _ => false
          end && ascending rest
      end
  end.

Section Ascending.
Context {K A : Type} (ltb : K -> K -> bool).

Fixpoint ascending_keys (l : list (K * A)) : bool :=
  match l with
  | [] => true
  | x :: rest =>
      match rest with
      | [] => true
      | y :: _ => negb (ltb (fst y) (fst x)) && ascending_keys rest
      end
  end.

Lemma stable_sort_ascending (l : list (K * A)) :
  ascending_keys l = true -> stable_sort ltb l = l.
Proof.
  induction l as [|x [|y l] IH]; simpl; intros H; try reflexivity.
  apply andb_true_iff in H as [Hxy H].
  simpl in IH. rewrite (IH H). simpl.
  apply negb_true_iff in Hxy. now rewrite Hxy.
Qed.
End Ascending.

Lemma str_keys_ascending {A} (l : list (PyTime * A)) :
  forall (s : string) (a : A),
    ascending (map fst ((TStr s, a) :: l)) = true ->
    exists kl, str_keys ((TStr s, a) :: l) = Some ((s, a) :: kl)
               /\ ascending_keys String.ltb ((s, a) :: kl) = true
               /\ map snd kl = map snd l.
Proof.
  induction l as [|[t' a'] l IH]; intros s a Hasc.
  - exists []. auto.
  - simpl in Hasc. destruct t' as [s'|z']; [|discriminate].
    apply andb_true_iff in Hasc as [H1 H2].
    destruct (IH s' a' H2) as (kl & Hk & Ha & Hm).
    exists ((s', a') :: kl).
    change (str_keys ((TStr s, a) :: (TStr s', a') :: l))
      with (match str_keys ((TStr s', a') :: l) with
            | Some r => Some ((s, a) :: r) | None => None end).
    rewrite Hk. split; [reflexivity|]. split.
    + change (negb (String.ltb s' s)
              && ascending_keys String.ltb ((s', a') :: kl) = true).
      now rewrite H1, Ha.
    + simpl. now f_equal.
Qed.

Lemma int_keys_ascending {A} (l : list (PyTime * A)) :
  forall (z : Z) (a : A),
    ascending (map fst ((TInt z, a) :: l)) = true ->
    exists kl, int_keys ((TInt z, a) :: l) = Some ((z, a) :: kl)
               /\ ascending_keys Z.ltb ((z, a) :: kl) = true
               /\ map snd kl = map snd l.
Proof.
  induction l as [|[t' a'] l IH]; intros z a Hasc.
  - exists []. auto.
  - simpl in Hasc. destruct t' as [s'|z']; [discriminate|].
    apply andb_true_iff in Hasc as [H1 H2].
    destruct (IH z' a' H2) as (kl & Hk & Ha & Hm).
    exists ((z', a') :: kl).
    change (int_keys ((TInt z, a) :: (TInt z', a') :: l))
      with (match int_keys ((TInt z', a') :: l) with
            | Some r => Some ((z, a) :: r) | None => None end).
    rewrite Hk. split; [reflexivity|]. split.
    + change (negb (z' <? z)%Z
              && ascending_keys Z.ltb ((z', a') :: kl) = true).
      now rewrite H1, Ha.
    + simpl. now f_equal.
Qed.

Lemma sorted_by_key_ascending {A} (l : list (PyTime * A)) :
  ascending (map fst l) = true -> sorted_by_key l = Ok (map snd l).
Proof.
  intros Hasc. unfold sorted_by_key.
  destruct l as [|[[s|z] a] l]; [reflexivity| |].
  - destruct (str_keys_ascending l s a Hasc) as (kl & -> & Ha & Hm).
    rewrite stable_sort_ascending by exact Ha. simpl. now rewrite Hm.
  - destruct (int_keys_ascending l z a Hasc) as (kl & Hk & Ha & Hm).
    change (str_keys ((TInt z, a) :: l)) with (@None (list (string * A))).
    rewrite Hk.
    rewrite stable_sort_ascending by exact Ha. simpl. now rewrite Hm.
Qed.

Lemma zip_with_keys (trades : list loc) :
  forall (log : list Trade),
    length trades = length log ->
    map fst (zip_with (fun t d => (time d, t)) trades log) = map time log
    /\ map snd (zip_with (fun t d => (time d, t)) trades log) = trades.
Proof.
  induction trades as [|t trades IH]; intros [|d log] Hlen;
    try discriminate; simpl; [auto|].
  destruct (IH log) as [-> ->]; [simpl in Hlen; lia|]. auto.
Qed.

Lemma str_keys_None {A} (l : list (PyTime * A)) (z : Z) :
  TInt z ∈ map fst l -> str_keys l = None.
Proof.
  induction l as [|[[s|z'] a] l IH]; simpl; intros H.
  - inversion H.
  - apply elem_of_cons in H as [H|H]; [discriminate|].
    now rewrite (IH H).
  - reflexivity.
Qed.

Lemma int_keys_None {A} (l : list (PyTime * A)) (s : string) :
  TStr s ∈ map fst l -> int_keys l = None.
Proof.
  induction l as [|[[s'|z] a] l IH]; simpl; intros H.
  - inversion H.
  - reflexivity.
  - apply elem_of_cons in H as [H|H]; [discriminate|].
    now rewrite (IH H).
Qed.

(** ** The properties *)

(** The example day and store of this part: a lot bought and half of it
    sold the day before, one more lot bought today. *)
Definition the_day : Date := {| year := 2024; month := 5; day := 17 |}.

Definition quiet_day : heap :=
  [ DTrade {| time := TStr "2024-05-16T10:00:00"; side := "buy";
              price := 100; amount := 2; symbol := Some "ETH/USDT"%string |};
    DTrade {| time := TStr "2024-05-16T11:00:00"; side := "sell";
              price := 120; amount := 1; symbol := Some "ETH/USDT"%string |};
    DTrade {| time := TStr "2024-05-17T09:00:00"; side := "buy";
              price := 110; amount := 1; symbol := Some "ETH/USDT"%string |} ].

(** X6: a log without a sell dated today gives 0: a day of buys only, and a
    day without trades, realize nothing, whatever was sold on other days
    and whatever else the log holds. *)
Theorem no_sell_today_realizes_nothing (today : Date)
  (fromisoformat : string -> option Date) (fromtimestamp : Z -> option Date)
  (h : heap) (trades : list loc) :
  (forall l d, l ∈ trades -> h !! l = Some (DTrade d) ->
               upper (side d) = "SELL"%string ->
               read_day fromisoformat fromtimestamp (time d) <> Some today) ->
  fst (Ledger.calculate_daily_realized_pnl
         today fromisoformat fromtimestamp trades h) = Ok 0.
Proof.
  intros Hno.
  destruct (calculate_refines today fromisoformat fromtimestamp h trades)
    as (h' & -> & _).
  simpl. f_equal.
  destruct (deref_log h trades) as [log|] eqn:Hlog; [|reflexivity].
  apply realized_today_no_sell. apply Forall_forall. intros d Hd [Hs Ht].
  destruct (deref_log_elem h trades log d Hlog Hd) as (l & Hl & Hld).
  exact (Hno l d Hl Hld Hs Ht).
Qed.

Lemma no_sell_today_realizes_nothing_witness :
  fst (Ledger.calculate_daily_realized_pnl the_day
         ExampleClock.fromisoformat ExampleClock.fromtimestamp
         [2; 1; 0]%nat quiet_day) = Ok 0.
Proof.
  apply (no_sell_today_realizes_nothing the_day
           ExampleClock.fromisoformat ExampleClock.fromtimestamp
           quiet_day [2; 1; 0]%nat).
  intros l d Hl Hd Hsell.
  destruct l as [|[|[|l]]]; simpl in Hd; try discriminate;
    injection Hd as <-; vm_compute; discriminate.
Defined.

(** X7: a fault gives 0 and leaves the store as it was: a reference of the
    log that is not a trade dict, or a log that holds a record with a
    [str] time and one with a number, which the sort cannot compare. *)
Theorem faulty_log_gives_zero (today : Date)
  (fromisoformat : string -> option Date) (fromtimestamp : Z -> option Date)
  (h : heap) (trades : list loc) :
  (exists l, l ∈ trades /\ forall d, h !! l <> Some (DTrade d))
  \/ (exists l1 l2 d1 d2 s ms,
        l1 ∈ trades /\ l2 ∈ trades
        /\ h !! l1 = Some (DTrade d1) /\ h !! l2 = Some (DTrade d2)
        /\ time d1 = TStr s /\ time d2 = TInt ms) ->
  Ledger.calculate_daily_realized_pnl
    today fromisoformat fromtimestamp trades h = (Ok 0, h).
Proof.
  intros Hfault.
  unfold Ledger.calculate_daily_realized_pnl, try_except, Ledger.fifo_run.
  unfold bind at 1. unfold bind at 1. rewrite sorted_trades_eq.
  destruct (deref_log h trades) as [log|] eqn:Hlog; [|reflexivity].
  destruct Hfault as [(l & Hl & Hbad)|
                      (l1 & l2 & d1 & d2 & s & ms & H1 & H2 & Hd1 & Hd2
                       & Ht1 & Ht2)].
  - now rewrite (deref_log_None h trades l Hl Hbad) in Hlog.
  - destruct (deref_log_is_trade h trades log Hlog) as [_ Hlen].
    destruct (zip_with_keys trades log Hlen) as [Hkeys _].
    unfold sorted_by_key.
    rewrite (str_keys_None _ ms), (int_keys_None _ s); [reflexivity| |].
    + rewrite Hkeys, <- Ht1. apply list_elem_of_fmap_2.
      exact (deref_log_lookup h trades log l1 d1 Hlog H1 Hd1).
    + rewrite Hkeys, <- Ht2. apply list_elem_of_fmap_2.
      exact (deref_log_lookup h trades log l2 d2 Hlog H2 Hd2).
Qed.

(** A record written with an ISO time beside one fetched from the
    exchange, whose time is a number of milliseconds. *)
Definition mixed_times : heap :=
  [ DTrade {| time := TInt 1715940000000; side := "buy";
              price := 100; amount := 1; symbol := None |};
    DTrade {| time := TStr "2024-05-17T11:00:00"; side := "SELL";
              price := 110; amount := 1; symbol := None |} ].

Lemma faulty_log_gives_zero_witness :
  Ledger.calculate_daily_realized_pnl the_day
    ExampleClock.fromisoformat ExampleClock.fromtimestamp
    [1; 0]%nat mixed_times = (Ok 0, mixed_times).
Proof.
  apply (faulty_log_gives_zero the_day
           ExampleClock.fromisoformat ExampleClock.fromtimestamp
           mixed_times [1; 0]%nat).
  right. eexists 1%nat, 0%nat, _, _, _, _.
  split; [left|]. split; [right; left|].
  split; [reflexivity|]. split; [reflexivity|].
  split; reflexivity.
Defined.

(** X8: the sort has no tie-break of its own: a log whose times never go
    down from one record to the next, equal times included, is processed
    in the order of the log. *)
Theorem ascending_log_keeps_order (h : heap) (trades : list loc)
  (log : list Trade) :
  deref_log h trades = Some log ->
  ascending (map time log) = true ->
  Ledger.sorted_trades trades h = (Ok trades, h).
Proof.
  intros Hlog Hasc. rewrite sorted_trades_eq, Hlog.
  destruct (deref_log_is_trade h trades log Hlog) as [_ Hlen].
  destruct (zip_with_keys trades log Hlen) as [Hkeys Hvals].
  rewrite sorted_by_key_ascending by now rewrite Hkeys.
  now rewrite Hvals.
Qed.

(** Two fills of the same millisecond, the sell logged first. *)
Definition same_instant : heap :=
  [ DTrade {| time := TStr "1715940000000"; side := "SELL";
              price := 110; amount := 1; symbol := None |};
    DTrade {| time := TStr "1715940000000"; side := "BUY";
              price := 100; amount := 1; symbol := None |} ].

Lemma ascending_log_keeps_order_witness :
  Ledger.sorted_trades [0; 1]%nat same_instant
  = (Ok [0; 1]%nat, same_instant).
Proof.
  apply (ascending_log_keeps_order same_instant [0; 1]%nat _ eq_refl).
  reflexivity.
Defined.

(** X9: first in, first out: when the loop ends, the prices of the batches a
    symbol's inventory holds are, in order, the prices of the last buys
    of that symbol in time order; the batches bought first are the ones
    that are gone. *)
Theorem inventory_is_the_last_buys (today : Date)
  (fromisoformat : string -> option Date) (fromtimestamp : Z -> option Date)
  (h h' : heap) (trades : list loc) (log sorted : list Trade)
  (st : Locals) (sym : string) :
  deref_log h trades = Some log ->
  sorted_by_key (map (fun d => (time d, d)) log) = Ok sorted ->
  Ledger.fifo_run today fromisoformat fromtimestamp trades h = (Ok st, h') ->
  exists batches,
    Forall2 (points_to h') (default [] (inventories st !! sym)) batches
    /\ prices batches
       `suffix_of` map price (buys_of fromisoformat fromtimestamp sym sorted).
Proof.
  intros Hlog Hsort Hrun.
  destruct (fifo_run_refines today fromisoformat fromtimestamp h trades)
    as (h1 & _ & Href).
  rewrite Hlog in Href. unfold PureLedger.fifo_run in Href.
  rewrite Hsort in Href.
  destruct (PureLedger.run today fromisoformat fromtimestamp sorted (∅, 0))
    as [[qs daily]|e] eqn:Hpure.
  - destruct Href as (invs & Heq & Hrep). rewrite Heq in Hrun.
    injection Hrun as <- <-. simpl.
    exists (default [] (qs !! sym)). split.
    + eapply represents_default; exact Hrep.
    + apply (run_suffix today fromisoformat fromtimestamp sorted []
               ∅ qs 0 daily); [|exact Hpure].
      intros sym'. rewrite lookup_empty. simpl. reflexivity.
  - rewrite Href in Hrun. discriminate.
Qed.

Lemma inventory_is_the_last_buys_witness :
  exists batches,
    Forall2 (points_to (quiet_day
                        ++ [DBatch {| batch_price := 100; batch_amount := 1 |};
                            DBatch {| batch_price := 110;
                                      batch_amount := 1 |}]))
            [3; 4]%nat batches
    /\ prices batches `suffix_of` [100; 110].
Proof.
  exact (inventory_is_the_last_buys the_day
           ExampleClock.fromisoformat ExampleClock.fromtimestamp
           quiet_day _ [2; 1; 0]%nat _ _ _ "ETH/USDT"%string
           eq_refl eq_refl eq_refl).
Defined.

End LedgerExtras.

Module LegacyExtras.
Import LedgerExtras.

(** A lot bought and sold on the day, as the older controller records
    it: no symbol. *)
Definition two_fills : heap :=
  [ DTrade {| time := TStr "2024-05-17T10:00:00"; side := "BUY";
              price := 100; amount := 1; symbol := None |};
    DTrade {| time := TStr "2024-05-17T11:00:00"; side := "SELL";
              price := 110; amount := 1; symbol := None |} ].

Lemma legacy_agrees_witness :
  LegacyLedger.calculate_daily_realized_pnl the_day
    ExampleClock.fromisoformat ExampleClock.fromtimestamp
    [1; 0]%nat two_fills
  = Ledger.calculate_daily_realized_pnl the_day
      ExampleClock.fromisoformat ExampleClock.fromtimestamp
      [1; 0]%nat two_fills.
Proof.
  apply (LegacyProofs.legacy_agrees the_day
           ExampleClock.fromisoformat ExampleClock.fromtimestamp
           [1; 0]%nat two_fills).
  repeat constructor.
Defined.

End LegacyExtras.

(** * More on the controller *)

Module ControllerExtras.
Import TrendRSI Controller PureLedger LedgerProofs ControllerProofs.

(** ** The dict of strategies *)

Lemma dict_get_set_eq {V} (d : list (string * V)) (k : string) (v : V) :
  dict_get (dict_set d k v) k = Some v.
Proof.
  induction d as [|[k' v'] d IH]; simpl.
  - now rewrite String.eqb_refl.
  - destruct (String.eqb k' k) eqn:E; simpl.
    + now rewrite String.eqb_refl.
    + now rewrite E.
Qed.

Lemma dict_get_set_ne {V} (d : list (string * V)) (k k' : string) (v : V) :
  k <> k' -> dict_get (dict_set d k v) k' = dict_get d k'.
Proof.
  intros Hne. induction d as [|[k0 v0] d IH]; simpl.
  - destruct (String.eqb_spec k k'); [contradiction|reflexivity].
  - destruct (String.eqb_spec k0 k) as [->|Hk0]; simpl.
    + destruct (String.eqb_spec k k'); [contradiction|reflexivity].
    + destruct (String.eqb k0 k'); [reflexivity|exact IH].
Qed.

(** The loop of [start] over the symbols. *)
Definition build_strategies (fetched : string -> option (list Row))
  (symbols : list string) (c : Controller) : Controller :=
  fold_left
    (fun c sym =>
       set_strategies c
         (dict_set (strategies c) sym
                   (update (make_strategy sym) (fetched sym))))
    symbols c.

Lemma build_strategies_get (fetched : string -> option (list Row))
  (symbols : list string) :
  forall (c : Controller) (sym : string),
    dict_get (strategies (build_strategies fetched symbols c)) sym
    = if decide (sym ∈ symbols)
      then Some (update (make_strategy sym) (fetched sym))
      else dict_get (strategies c) sym.
Proof.
  unfold build_strategies.
  induction symbols as [|s symbols IH]; intros c sym; simpl.
  - destruct (decide (sym ∈ [])) as [H|_]; [inversion H|reflexivity].
  - rewrite IH. simpl.
    destruct (decide (sym ∈ symbols)) as [Hin|Hout].
    + destruct (decide (sym ∈ s :: symbols)) as [_|H]; [reflexivity|].
      destruct H. now right.
    + destruct (decide (s = sym)) as [->|Hne].
      * rewrite dict_get_set_eq.
        destruct (decide (sym ∈ sym :: symbols)) as [_|H]; [reflexivity|].
        destruct H. left.
      * rewrite dict_get_set_ne by exact Hne.
        destruct (decide (sym ∈ s :: symbols)) as [H|_]; [|reflexivity].
        apply elem_of_cons in H as [->|H]; contradiction.
Qed.

Lemma build_strategies_keeps (fetched : string -> option (list Row))
  (symbols : list string) :
  forall c : Controller,
    let c' := build_strategies fetched symbols c in
    is_running c' = is_running c /\ task c' = task c
    /\ balance c' = balance c /\ trades c' = trades c
    /\ market_prices c' = market_prices c
    /\ last_trade_times c' = last_trade_times c
    /\ price_history c' = price_history c
    /\ pnl_history c' = pnl_history c
    /\ mode c' = mode c /\ active_symbols c' = active_symbols c
    /\ session_start_nav c' = session_start_nav c.
Proof.
  unfold build_strategies.
  induction symbols as [|s symbols IH]; intros c; simpl.
  - repeat split.
  - match goal with
    | |- context [fold_left _ symbols ?c0] => specialize (IH c0)
    end.
    simpl in IH. exact IH.
Qed.

(** ** The buffers of the controller *)

(** The trade log holds at most 20 references and each history at most
    100 points. *)
Definition bounded (c : Controller) : Prop :=
  (length (trades c) <= 20)%nat
  /\ (length (pnl_history c) <= 100)%nat
  /\ forall sym points,
       price_history c !! sym = Some points -> (length points <= 100)%nat.

Lemma last_100_length {A} (l : list A) : (length (last_100 l) <= 100)%nat.
Proof. unfold last_100. rewrite length_drop. lia. Qed.

Lemma execute_order_buffers (c : Controller) (side : Signal)
  (sym : string) (strategy : Strategy) (tk : Tick) (h : heap)
  (c' : Controller) (h' : heap) :
  execute_order c side sym strategy tk h = (Ok c', h') ->
  pnl_history c' = pnl_history c
  /\ price_history c' = price_history c
  /\ last_history_update c' = last_history_update c
  /\ (trades c' = trades c \/ (length (trades c') <= 20)%nat).
Proof.
  unfold execute_order. destruct (tick_order tk) as [order|].
  - destruct (fill_price order strategy) as [p|e].
    + unfold bind, alloc, ret. intros [= <- <-]. simpl.
      repeat split. right. rewrite length_take. lia.
    + unfold raise. discriminate.
  - unfold ret. intros [= <- <-]. repeat split. now left.
Qed.

Lemma symbol_step_buffers (c : Controller) (sym : string) (tk : Tick)
  (h : heap) (c' : Controller) (r : option OrderRequest) (h' : heap) :
  symbol_step c sym tk h = (Ok (c', r), h') ->
  pnl_history c' = pnl_history c
  /\ price_history c' = price_history c
  /\ last_history_update c' = last_history_update c
  /\ (trades c' = trades c \/ (length (trades c') <= 20)%nat).
Proof.
  unfold symbol_step.
  destruct (dict_get (strategies c) sym) as [strategy|].
  2:{ unfold ret. intros [= <- <- <-]. repeat split. now left. }
  destruct (check_signals (update strategy (tick_fetched tk)))
    as [[sig|] s2].
  2:{ unfold ret. intros [= <- <- <-]. repeat split. now left. }
  unfold on_signal. simpl.
  destruct (cooldown_over _ _).
  2:{ unfold ret. intros [= <- <- <-]. repeat split. now left. }
  unfold try_except, bind.
  destruct (execute_order _ sig sym s2 tk h) as [[c1|e] h1] eqn:Hexec.
  - unfold ret. intros [= <- <- <-].
    apply execute_order_buffers in Hexec as (H1 & H2 & H3 & H4).
    simpl in *. auto.
  - unfold ret. intros [= <- <- <-]. repeat split. now left.
Qed.

Lemma strategies_pass_buffers (symbols : list string)
  (ticks : string -> Tick) :
  forall (c : Controller) (h : heap) (c' : Controller)
         (sent : list OrderRequest) (h' : heap),
    strategies_pass c symbols ticks h = (Ok (c', sent), h') ->
    pnl_history c' = pnl_history c
    /\ price_history c' = price_history c
    /\ last_history_update c' = last_history_update c
    /\ (trades c' = trades c \/ (length (trades c') <= 20)%nat).
Proof.
  induction symbols as [|sym symbols IH]; intros c h c' sent h'; simpl.
  - unfold ret. intros [= <- <- <-]. repeat split. now left.
  - unfold bind at 1.
    destruct (symbol_step c sym (ticks sym) h) as [[[c1 r]|e] h1] eqn:Hstep;
      [|discriminate].
    unfold bind at 1.
    destruct (strategies_pass c1 symbols ticks h1)
      as [[[c2 sent2]|e] h2] eqn:Hpass; [|discriminate].
    unfold ret. intros [= <- <- <-].
    apply symbol_step_buffers in Hstep as (A1 & A2 & A3 & A4).
    apply IH in Hpass as (B1 & B2 & B3 & B4).
    split; [congruence|]. split; [congruence|]. split; [congruence|].
    destruct B4 as [B4|B4]; [|now right].
    rewrite B4. exact A4.
Qed.

Lemma record_prices_buffers (now : float) (syms : list string) :
  forall c : Controller,
    let c' :=
      fold_left
        (fun c sym =>
           match truthy (market_prices c !! sym) with
           | Some p =>
               set_price_history c
                 (<[sym := last_100
                             (default [] (price_history c !! sym)
                              ++ [{| hp_time := now; hp_value := p |}])]>
                    (price_history c))
           | None => c
           end) syms c in
    trades c' = trades c /\ pnl_history c' = pnl_history c
    /\ last_history_update c' = last_history_update c
    /\ ((forall sym points, price_history c !! sym = Some points ->
                            (length points <= 100)%nat) ->
        forall sym points, price_history c' !! sym = Some points ->
                           (length points <= 100)%nat).
Proof.
  induction syms as [|s syms IH]; intros c; simpl.
  - repeat split. auto.
  - match goal with
    | |- context [fold_left _ syms ?c0] =>
        destruct (IH c0) as (H1 & H2 & H3 & H4)
    end.
    rewrite H1, H2, H3.
    destruct (truthy (market_prices c !! s)) as [p|]; simpl.
    + repeat split. intros Hb. apply H4. simpl. intros sym points.
      destruct (decide (s = sym)) as [->|Hne].
      * rewrite lookup_insert_eq. intros [= <-]. apply last_100_length.
      * rewrite lookup_insert_ne by exact Hne. apply Hb.
    + repeat split. exact H4.
Qed.

Lemma update_history_data_bounded (c : Controller) (now : float) :
  bounded c -> bounded (update_history_data c now).
Proof.
  intros (Ht & Hp & Hh). unfold update_history_data.
  destruct (now - last_history_update c <? 10); [repeat split; auto|].
  unfold record_prices.
  match goal with
  | |- bounded (fold_left _ _ ?c0) =>
      destruct (record_prices_buffers now (active_symbols c0) c0)
        as (H1 & H2 & H3 & H4)
  end.
  split; [|split].
  - rewrite H1. exact Ht.
  - rewrite H2. simpl. apply last_100_length.
  - apply H4. exact Hh.
Qed.

Lemma update_history_data_stamp (c : Controller) (now : float) :
  (now - last_history_update c <? 10) = false ->
  last_history_update (update_history_data c now) = now.
Proof.
  intros H. unfold update_history_data. rewrite H. unfold record_prices.
  match goal with
  | |- last_history_update (fold_left _ _ ?c0) = _ =>
      destruct (record_prices_buffers now (active_symbols c0) c0)
        as (_ & _ & H3 & _)
  end.
  rewrite H3. reflexivity.
Qed.

(** ** One iteration of the loop *)

Lemma strategies_pass_returns (symbols : list string)
  (ticks : string -> Tick) :
  forall (c : Controller) (h : heap),
  exists c' sent h',
    strategies_pass c symbols ticks h = (Ok (c', sent), h')
    /\ same_session c c'
    /\ h `prefix_of` h'
    /\ (length sent <= length symbols)%nat.
Proof.
  induction symbols as [|sym symbols IH]; intros c h; simpl.
  - exists c, [], h. unfold ret. split; [reflexivity|].
    split; [apply same_session_refl|]. split; [reflexivity|]. simpl. lia.
  - destruct (symbol_step_cases c sym (ticks sym) h)
      as (c1 & h1 & Hstep & Hs1 & Hp1 & _).
    destruct (IH c1 h1) as (c2 & sent2 & h2 & Hpass & Hs2 & Hp2 & Hlen).
    unfold bind. rewrite Hstep, Hpass. unfold ret.
    eexists _, _, _. split; [reflexivity|].
    split; [eapply same_session_trans; eauto|].
    split; [etransitivity; eauto|].
    rewrite length_app.
    match goal with
    | |- (length (option_list ?o) + _ <= _)%nat => destruct o; simpl; lia
    end.
Qed.

(** X11: an iteration of the loop always comes to its end: no exception leaves
    it, whatever the exchange answers.  It sends at most one order for
    each strategy, does not touch the running flag, the task and the
    session baseline, and leaves every object of the store in place. *)
Theorem iteration_returns (c : Controller) (cy : Cycle) (h : heap) :
  exists c' sent h',
    run_loop_iteration c cy h = (Ok (c', sent), h')
    /\ same_session c c'
    /\ h `prefix_of` h'
    /\ (length sent <= length (strategies c))%nat.
Proof.
  unfold run_loop_iteration.
  destruct (strategies_pass_returns (map fst (strategies c))
              (cycle_ticks cy) c h)
    as (c1 & sent & h1 & Hpass & Hs & Hp & Hlen).
  unfold bind. rewrite Hpass. unfold ret.
  eexists _, sent, h1. split; [reflexivity|].
  split; [|split; [exact Hp|now rewrite length_map in Hlen]].
  eapply same_session_trans; [exact Hs|].
  eapply same_session_trans; [|apply update_history_data_keeps].
  destruct (balance_truthy (cycle_balance cy)); repeat split.
Qed.

(** X12: the buffers stay bounded over an iteration: at most 20 trades in the
    log, at most 100 points in the PnL history and in the price history
    of each symbol. *)
Theorem iteration_keeps_bounds (c : Controller) (cy : Cycle) (h : heap)
  (c' : Controller) (sent : list OrderRequest) (h' : heap) :
  bounded c ->
  run_loop_iteration c cy h = (Ok (c', sent), h') ->
  bounded c'.
Proof.
  intros (Ht & Hp & Hh). unfold run_loop_iteration, bind.
  destruct (strategies_pass c (map fst (strategies c)) (cycle_ticks cy) h)
    as [[[c1 sent1]|e] h1] eqn:Hpass; [|discriminate].
  unfold ret. intros [= <- <- <-].
  apply strategies_pass_buffers in Hpass as (B1 & B2 & _ & B4).
  apply update_history_data_bounded.
  assert (Hc1 : bounded c1).
  { split; [|split].
    - destruct B4 as [->|B4]; assumption.
    - now rewrite B1.
    - now rewrite B2. }
  destruct (balance_truthy (cycle_balance cy)); exact Hc1.
Qed.

(** The strategy of the examples: flat, on a table whose last row is a
    pullback inside an uptrend. *)
Definition dip_rows : list Row :=
  [ {| close := 104; rsi := 41; sma_20 := 100 |};
    {| close := 102; rsi := 27; sma_20 := 101 |} ].

Definition trading_btc : Controller :=
  set_is_running
    (set_strategies Controller.init
       [("BTC/USDT"%string, make_strategy "BTC/USDT")])
    true.

Definition filled_at_102 : Order :=
  {| order_timestamp := Value 1762221600000%Z;
     order_average := Some 102; order_price := None |}.

Definition a_cycle (order : option Order) : Cycle :=
  {| cycle_ticks :=
       fun _ => {| tick_fetched := Some dip_rows; tick_now := 1762221600;
                   tick_order := order; tick_now_ms := 1762221600123%Z;
                   tick_balance := None |};
     cycle_balance := None;
     cycle_now := 1762221601 |}.

Lemma iteration_keeps_bounds_witness :
  bounded (fst (match fst (run_loop_iteration trading_btc
                             (a_cycle (Some filled_at_102)) []) with
                | Ok r => r
                | Raise _ => (trading_btc, [])
                end)).
Proof.
  eapply (iteration_keeps_bounds trading_btc (a_cycle (Some filled_at_102))
            [] _ _ _).
  - split; [|split]; simpl; [lia|lia|].
    intros sym points H. rewrite lookup_empty in H. discriminate.
  - vm_compute. reflexivity.
Defined.

(** ** The history is written at most every ten seconds *)

(** X13: a call less than ten seconds after one that wrote the history changes
    nothing. *)
Theorem history_is_throttled (c : Controller) (now now' : float) :
  (now - last_history_update c <? 10) = false ->
  (now' - now <? 10) = true ->
  update_history_data (update_history_data c now) now'
  = update_history_data c now.
Proof.
  intros Hpass Hsoon.
  unfold update_history_data at 1.
  rewrite (update_history_data_stamp c now Hpass), Hsoon. reflexivity.
Qed.

Lemma history_is_throttled_witness :
  update_history_data (update_history_data trading_btc 1762221600) 1762221605
  = update_history_data trading_btc 1762221600.
Proof.
  apply (history_is_throttled trading_btc 1762221600 1762221605);
    vm_compute; reflexivity.
Defined.

(** ** An order the exchange refuses *)

(** X14: when [place_order] returns nothing for a signal whose cooldown test
    passed, the pass writes no trade and makes no object, keeps the
    balance, and still stamps the symbol's trade time: the cooldown runs
    from the refused order. *)
Theorem refused_order_starts_cooldown (c : Controller) (sym : string)
  (tk : Tick) (h : heap) (sig : Signal) :
  signal_at c sym tk = Some sig ->
  cooldown_over (tick_now tk) (last_trade_time c sym) = true ->
  tick_order tk = None ->
  exists c',
    symbol_step c sym tk h = (Ok (c', Some (order_request sig sym)), h)
    /\ trades c' = trades c
    /\ balance c' = balance c
    /\ last_trade_times c' = <[sym := tick_now tk]> (last_trade_times c)
    /\ last_signal c' = Some (sym, sig).
Proof.
  unfold signal_at, last_trade_time, symbol_step.
  destruct (dict_get (strategies c) sym) as [strategy|]; [|discriminate].
  destruct (check_signals (update strategy (tick_fetched tk)))
    as [sg s2]. simpl. intros -> Hcool Hnone.
  unfold on_signal. simpl. rewrite Hcool.
  unfold try_except, bind.
  rewrite execute_order_no_fill by exact Hnone.
  unfold ret. eexists. split; [reflexivity|]. repeat split.
Qed.

Lemma refused_order_starts_cooldown_witness :
  exists c',
    symbol_step trading_btc "BTC/USDT" (cycle_ticks (a_cycle None) "") []
    = (Ok (c', Some (order_request BUY "BTC/USDT")), [])
    /\ trades c' = []
    /\ last_trade_times c' !! "BTC/USDT"%string = Some 1762221600.
Proof.
  destruct (refused_order_starts_cooldown trading_btc "BTC/USDT"%string
              (cycle_ticks (a_cycle None) ""%string) [] BUY)
    as (c' & Hstep & Htrades & _ & Hstamp & _).
  - vm_compute. reflexivity.
  - vm_compute. reflexivity.
  - reflexivity.
  - exists c'. split; [exact Hstep|]. split; [exact Htrades|].
    rewrite Hstamp. apply lookup_insert_eq.
Defined.

(** ** What [start] rebuilds and what it keeps *)

(** X15: a [start] on a stopped controller makes one strategy for each symbol
    of the request and none for any other: the strategy built for the
    symbol with the table it fetched, flat, whatever position the last
    session held.  It clears the trade times, and keeps the trade log and
    the histories of the last session. *)
Theorem start_rebuilds_strategies (c : Controller) (mode : string)
  (symbols : list string) (fetched : string -> option (list Row))
  (bal : option Balance) (ticker : string -> option (option float)) :
  is_running c = false ->
  let c' := snd (start c mode symbols fetched bal ticker) in
  (forall sym, sym ∈ symbols ->
     dict_get (strategies c') sym
     = Some (update (make_strategy sym) (fetched sym))
     /\ position (update (make_strategy sym) (fetched sym)) = None)
  /\ (forall sym, sym ∉ symbols -> dict_get (strategies c') sym = None)
  /\ last_trade_times c' = ∅
  /\ active_symbols c' = symbols
  /\ trades c' = trades c
  /\ pnl_history c' = pnl_history c
  /\ price_history c' = price_history c.
Proof.
  intros Hrun c'. subst c'. unfold start. rewrite Hrun.
  fold (build_strategies fetched symbols
          (set_last_trade_times
             (set_strategies (set_active_symbols (set_mode c mode) symbols)
                             []) ∅)).
  set (c0 := set_last_trade_times
               (set_strategies (set_active_symbols (set_mode c mode) symbols)
                               []) ∅).
  pose proof (build_strategies_get fetched symbols c0) as Hget.
  destruct (build_strategies_keeps fetched symbols c0)
    as (_ & _ & _ & Htr & _ & Hltt & Hph & Hpnl & _ & Hact & _).
  set (c1 := build_strategies fetched symbols c0) in *.
  assert (Hfinal :
    forall cf : Controller,
      strategies cf = strategies c1 -> last_trade_times cf = ∅ ->
      active_symbols cf = symbols -> trades cf = trades c ->
      pnl_history cf = pnl_history c -> price_history cf = price_history c ->
      (forall sym, sym ∈ symbols ->
         dict_get (strategies cf) sym
         = Some (update (make_strategy sym) (fetched sym))
         /\ position (update (make_strategy sym) (fetched sym)) = None)
      /\ (forall sym, sym ∉ symbols -> dict_get (strategies cf) sym = None)
      /\ last_trade_times cf = ∅
      /\ active_symbols cf = symbols
      /\ trades cf = trades c
      /\ pnl_history cf = pnl_history c
      /\ price_history cf = price_history c).
  { intros cf Hs H1 H2 H3 H4 H5. rewrite Hs.
    split; [|split; [|auto]].
    - intros sym Hin. rewrite Hget.
      destruct (decide (sym ∈ symbols)); [|contradiction].
      split; [reflexivity|].
      unfold update, make_strategy.
      destruct (fetched sym) as [[|row rows]|];
        destruct (String.eqb sym "BTC/USDT");
        destruct (String.eqb sym "ETH/USDT"); reflexivity.
    - intros sym Hout. rewrite Hget.
      destruct (decide (sym ∈ symbols)); [contradiction|reflexivity]. }
  destruct (balance_total bal) as [totals|]; simpl.
  - destruct (start_nav _ ticker totals _) as [v|e]; simpl;
      apply Hfinal; simpl; auto.
  - apply Hfinal; simpl; auto.
Qed.

(** A strategy that holds a long position. *)
Definition holding_btc : Controller :=
  set_strategies Controller.init
    [("BTC/USDT"%string,
      set_position (make_strategy "BTC/USDT") (Some LONG))].

Lemma start_rebuilds_strategies_witness :
  dict_get
    (strategies
       (snd (start holding_btc "SINGLE" ["BTC/USDT"%string]
                   (fun _ => Some dip_rows) None (fun _ => None))))
    "BTC/USDT"
  = Some (update (make_strategy "BTC/USDT") (Some dip_rows))
  /\ position (update (make_strategy "BTC/USDT") (Some dip_rows)) = None.
Proof.
  apply (start_rebuilds_strategies holding_btc "SINGLE"%string
           ["BTC/USDT"%string] (fun _ => Some dip_rows) None
           (fun _ => None) eq_refl).
  left.
Defined.

(** ** Asking twice *)

(** X16: a second [start] after one that started the session, and a second
    [stop] after one that returned, answer that there is nothing to do
    and change nothing. *)
Theorem start_and_stop_twice :
  (forall c mode symbols fetched bal ticker c1
          mode' symbols' fetched' bal' ticker',
      start c mode symbols fetched bal ticker = (Ok (Started mode), c1) ->
      start c1 mode' symbols' fetched' bal' ticker'
      = (Ok AlreadyRunning, c1))
  /\ (forall c in_flight h r c1 h1 in_flight',
         stop c in_flight h = (Ok (r, c1), h1) ->
         stop c1 in_flight' h1 = (Ok (AlreadyStopped, c1), h1)).
Proof.
  split.
  - intros c mode symbols fetched bal ticker c1
           mode' symbols' fetched' bal' ticker' Hstart.
    assert (Hrun : is_running c1 = true).
    { unfold start in Hstart. destruct (is_running c); [discriminate|].
      destruct (balance_total bal) as [totals|]; simpl in Hstart.
      - destruct (start_nav _ ticker totals _) as [v|e]; simpl in Hstart;
          [|discriminate].
        now injection Hstart as <-.
      - now injection Hstart as <-. }
    unfold start. now rewrite Hrun.
  - intros c in_flight h r c1 h1 in_flight' Hstop.
    assert (Hrun : is_running c1 = false).
    { unfold stop in Hstop. destruct (is_running c) eqn:Hr; simpl in Hstop.
      - unfold bind in Hstop. destruct (task c).
        + destruct (run_actions_return in_flight (set_is_running c false) h)
            as (c' & h' & Hact & (_ & Hr' & _) & _).
          rewrite Hact in Hstop. unfold ret in Hstop.
          injection Hstop as _ <- _. exact Hr'.
        + unfold ret in Hstop. now injection Hstop as _ <- _.
      - unfold ret in Hstop. now injection Hstop as _ <- _. }
    unfold stop. rewrite Hrun. reflexivity.
Qed.

Lemma start_and_stop_twice_witness :
  start (snd (start Controller.init "SINGLE" ["BTC/USDT"%string]
                    (fun _ => None) None (fun _ => None)))
        "DUAL" ["ETH/USDT"%string] (fun _ => None) None (fun _ => None)
  = (Ok AlreadyRunning,
     snd (start Controller.init "SINGLE" ["BTC/USDT"%string]
                (fun _ => None) None (fun _ => None))).
Proof.
  apply (proj1 start_and_stop_twice Controller.init "SINGLE"%string
           ["BTC/USDT"%string] (fun _ => None) None (fun _ => None)).
  reflexivity.
Defined.

(** ** The two computations of the net asset value *)

Lemma start_nav_cached (prices : gmap string float)
  (ticker : string -> option (option float))
  (items : list (string * float)) :
  forall nav : float,
    (forall coin qty, (coin, qty) ∈ items -> coin <> "USDT"%string ->
       (default 0 (prices !! (coin ++ "/USDT")%string) =? 0) = false
       \/ ticker (coin ++ "/USDT")%string = None) ->
    start_nav prices ticker items nav
    = Ok (fold_left
            (fun nav '(coin, qty) =>
               if String.eqb coin "USDT" then nav
               else nav + qty * default 0 (prices !! (coin ++ "/USDT")%string))
            items nav).
Proof.
  induction items as [|[coin qty] items IH]; intros nav Hok; simpl.
  - reflexivity.
  - assert (Hrest : forall coin' qty', (coin', qty') ∈ items ->
                      coin' <> "USDT"%string ->
              (default 0 (prices !! (coin' ++ "/USDT")%string) =? 0) = false
              \/ ticker (coin' ++ "/USDT")%string = None).
    { intros coin' qty' Hin. apply (Hok coin' qty'). now right. }
    destruct (String.eqb_spec coin "USDT") as [->|Hne].
    + apply IH, Hrest.
    + destruct (Hok coin qty) as [Hp|Ht]; [left|exact Hne| |].
      * rewrite Hp. apply IH, Hrest.
      * rewrite Ht.
        destruct (default 0 (prices !! (coin ++ "/USDT")%string) =? 0);
          apply IH, Hrest.
Qed.

(** X17: the baseline [start] takes is the net asset value the history is
    measured with, computed on the same prices and the same balance,
    when every coin of the balance has a price in the cache, or none
    that could be fetched either. *)
Theorem baseline_is_cached_nav (prices : gmap string float)
  (ticker : string -> option (option float))
  (totals : list (string * float)) :
  (forall coin qty, (coin, qty) ∈ totals -> coin <> "USDT"%string ->
     (default 0 (prices !! (coin ++ "/USDT")%string) =? 0) = false
     \/ ticker (coin ++ "/USDT")%string = None) ->
  start_nav prices ticker totals (default 0 (dict_get totals "USDT"))
  = Ok (cached_nav prices totals).
Proof.
  intros Hok. unfold cached_nav. now apply start_nav_cached.
Qed.

Lemma baseline_is_cached_nav_witness :
  start_nav {[ "BTC/USDT"%string := 50000 ]} (fun _ => None)
            [("USDT"%string, 1000); ("BTC"%string, 0.5)] 1000
  = Ok (cached_nav {[ "BTC/USDT"%string := 50000 ]}
                   [("USDT"%string, 1000); ("BTC"%string, 0.5)]).
Proof.
  apply (baseline_is_cached_nav {[ "BTC/USDT"%string := 50000 ]}
           (fun _ => None) [("USDT"%string, 1000); ("BTC"%string, 0.5)]).
  intros coin qty _ _. right. reflexivity.
Defined.

End ControllerExtras.

(** * The scanner and the news cache: properties *)

Lemma SFcompare_antisym (x y : spec_float) :
  SFcompare x y = Some Lt -> SFcompare y x = Some Gt.
Proof.
  destruct x as [sx|sx| |sx mx ex], y as [sy|sy| |sy my ey]; simpl;
    try discriminate;
    try (destruct sx; try discriminate);
    try (destruct sy; try discriminate); try reflexivity.
  all: rewrite (Z.compare_antisym ex ey).
  all: destruct (ex ?= ey)%Z eqn:E; simpl; try discriminate; try reflexivity.
  all: fold (Pos.compare mx my); fold (Pos.compare my mx);
       rewrite (Pos.compare_antisym mx my);
       destruct (mx ?= my)%positive; simpl; try discriminate; reflexivity.
Qed.

Lemma ltb_asym (x y : float) : (x <? y) = true -> (y <? x) = false.
Proof.
  rewrite !ltb_spec. unfold SFltb. intros H.
  destruct (SFcompare (Prim2SF x) (Prim2SF y)) as [[| |]|] eqn:E;
    try discriminate.
  now rewrite (SFcompare_antisym _ _ E).
Qed.

Module ScannerProofs.
Import Controller Scanner SortProofs.

(** No result has a smaller change, in absolute value, than the result
    after it. *)
Fixpoint descending (rs : list ScanResult) : bool :=
  match rs with
  | [] => true
  | r1 :: rest =>
      match rest with
      | [] => true
      | r2 :: _ =>
          negb (abs (scan_change r1) <? abs (scan_change r2))
          && descending rest
      end
  end.

(** The same on the keyed list that is sorted. *)
Fixpoint descending_keys (l : list (float * ScanResult)) : bool :=
  match l with
  | [] => true
  | x :: rest =>
      match rest with
      | [] => true
      | y :: _ => negb (fst x <? fst y) && descending_keys rest
      end
  end.

Lemma insert_sorted_descending (x : float * ScanResult)
  (s : list (float * ScanResult)) :
  descending_keys s = true ->
  descending_keys (insert_sorted gtb x s) = true.
Proof.
  induction s as [|y s IH]; simpl; intros Hs; [reflexivity|].
  unfold gtb at 1. destruct (fst x <? fst y) eqn:Hxy.
  - assert (Hs' : descending_keys s = true).
    { destruct s; [reflexivity|]. now apply andb_true_iff in Hs as [_ ?]. }
    specialize (IH Hs').
    destruct s as [|z s]; simpl in *.
    + now rewrite (ltb_asym _ _ Hxy).
    + unfold gtb in *. destruct (fst x <? fst z) eqn:Hxz.
      * apply andb_true_iff in Hs as [Hyz _]. now rewrite Hyz, IH.
      * now rewrite (ltb_asym _ _ Hxy), IH.
  - cbn [descending_keys]. now rewrite Hxy, Hs.
Qed.

Lemma stable_sort_descending (l : list (float * ScanResult)) :
  descending_keys (stable_sort gtb l) = true.
Proof.
  induction l as [|x l IH]; simpl; [reflexivity|].
  now apply insert_sorted_descending.
Qed.

Lemma descending_of_keys (l : list (float * ScanResult)) :
  Forall (fun p => fst p = abs (scan_change (snd p))) l ->
  descending_keys l = true -> descending (map snd l) = true.
Proof.
  induction l as [|x [|y l] IH]; intros HF H; try reflexivity.
  inversion HF as [|? ? Hx HF']. inversion HF' as [|? ? Hy _]. subst.
  change (descending (map snd (x :: y :: l)))
    with (negb (abs (scan_change (snd x)) <? abs (scan_change (snd y)))
          && descending (map snd (y :: l))).
  change (descending_keys (x :: y :: l))
    with (negb (fst x <? fst y) && descending_keys (y :: l)) in H.
  apply andb_true_iff in H as [Hxy H].
  rewrite <- Hx, <- Hy, Hxy. simpl. now apply IH.
Qed.

Lemma descending_take (n : nat) (rs : list ScanResult) :
  descending rs = true -> descending (take n rs) = true.
Proof.
  revert n. induction rs as [|r1 [|r2 rs] IH]; intros [|n] H;
    try reflexivity.
  - destruct n; reflexivity.
  - cbn [descending] in H. apply andb_true_iff in H as [H12 H].
    specialize (IH n H). destruct n as [|n]; [reflexivity|].
    cbn [take descending] in *. now rewrite H12, IH.
Qed.

Lemma by_volatility_perm (cs : list ScanResult) : by_volatility cs ≡ₚ cs.
Proof.
  unfold by_volatility. rewrite stable_sort_perm, map_map. simpl.
  now rewrite map_id.
Qed.

Lemma by_volatility_descending (cs : list ScanResult) :
  descending (by_volatility cs) = true.
Proof.
  unfold by_volatility. apply descending_of_keys.
  - rewrite stable_sort_perm. apply Forall_forall. intros p Hp.
    apply list_elem_of_fmap in Hp as (r & -> & _). reflexivity.
  - apply stable_sort_descending.
Qed.

(** What makes a ticker a candidate. *)
Definition qualifies (tickers : list (string * TickerData))
  (r : ScanResult) : Prop :=
  ends_with "/USDT" (scan_symbol r) = true
  /\ (scan_volume r <? 5000000) = false
  /\ (abs (scan_change r) >? 5) = true
  /\ exists data,
       (scan_symbol r, data) ∈ tickers
       /\ quoteVolume data = Some (scan_volume r)
       /\ percentage data = Some (scan_change r)
       /\ last_price data = scan_price r.

Lemma candidate_qualifies (symbol : string) (data : TickerData)
  (r : ScanResult) :
  candidate symbol data = Some r ->
  scan_symbol r = symbol
  /\ ends_with "/USDT" symbol = true
  /\ (scan_volume r <? 5000000) = false
  /\ (abs (scan_change r) >? 5) = true
  /\ quoteVolume data = Some (scan_volume r)
  /\ percentage data = Some (scan_change r)
  /\ last_price data = scan_price r.
Proof.
  unfold candidate.
  destruct (ends_with "/USDT" symbol); simpl; [|discriminate].
  destruct (quoteVolume data) as [volume|]; [|discriminate].
  destruct (volume <? 5000000) eqn:Hv; [discriminate|].
  destruct (percentage data) as [change|]; [|discriminate].
  destruct (abs change >? 5) eqn:Hc; [|discriminate].
  intros [= <-]. simpl. repeat split; assumption.
Qed.

Lemma candidates_qualify (tickers : list (string * TickerData)) :
  Forall (qualifies tickers) (candidates tickers).
Proof.
  assert (H : forall before after,
             Forall (qualifies (before ++ after)) (candidates after)).
  { intros before after. revert before.
    induction after as [|[symbol data] after IH]; intros before; simpl.
    - constructor.
    - specialize (IH (before ++ [(symbol, data)])).
      rewrite <- app_assoc in IH. simpl in IH.
      destruct (candidate symbol data) as [r|] eqn:Hc; [|exact IH].
      constructor; [|exact IH].
      apply candidate_qualifies in Hc
        as (Hs & He & Hv & Hch & Hq & Hp & Hl).
      unfold qualifies. rewrite Hs. repeat split; try assumption.
      exists data. split; [|auto].
      apply elem_of_app. right. left. }
  exact (H [] tickers).
Qed.

(** X18: after a scan that got the tickers, the results are at most ten, each
    of them a USDT pair of the tickers with a volume not under 5,000,000
    and a change of more than 5 in absolute value, and they come with
    the larger change first. *)
Theorem scanner_lists_the_movers (c : Controller)
  (tickers : list (string * TickerData)) :
  let results := scanner_results (run_scanner c (Some tickers)) in
  (length results <= 10)%nat
  /\ Forall (qualifies tickers) results
  /\ descending results = true.
Proof.
  simpl. split; [|split].
  - rewrite length_take. lia.
  - apply Forall_take. rewrite by_volatility_perm.
    apply candidates_qualify.
  - apply descending_take, by_volatility_descending.
Qed.

End ScannerProofs.

Module NewsProofs.
Import News.

Lemma unique_news_spec (all_news : list NewsItem) :
  forall seen : gset (option string),
    NoDup (map link (unique_news seen all_news))
    /\ (forall item, item ∈ unique_news seen all_news ->
                     link item ∉ seen)
    /\ unique_news seen all_news `sublist_of` all_news
    /\ (forall item, item ∈ all_news ->
          link item ∈ seen
          \/ link item ∈ map link (unique_news seen all_news)).
Proof.
  induction all_news as [|x rest IH]; intros seen; simpl.
  - split; [constructor|]. split; [intros item H; inversion H|].
    split; [constructor|]. intros item H. inversion H.
  - destruct (decide (link x ∈ seen)) as [Hin|Hout].
    + destruct (IH seen) as (Hnd & Hfresh & Hsub & Hall).
      split; [exact Hnd|]. split; [exact Hfresh|].
      split; [now apply sublist_cons|].
      intros item Hitem. apply elem_of_cons in Hitem as [Heq|Hitem].
      * left. now rewrite Heq.
      * now apply Hall.
    + destruct (IH ({[link x]} ∪ seen)) as (Hnd & Hfresh & Hsub & Hall).
      split; [|split; [|split]].
      * simpl. constructor; [|exact Hnd].
        intros Hx. apply list_elem_of_fmap in Hx as (y & Hxy & Hy).
        apply Hfresh in Hy. apply Hy. rewrite Hxy.
        apply elem_of_union_l, elem_of_singleton. reflexivity.
      * intros item Hitem. apply elem_of_cons in Hitem as [Heq|Hitem].
        -- now rewrite Heq.
        -- apply Hfresh in Hitem. intros Hs. apply Hitem.
           now apply elem_of_union_r.
      * now apply sublist_skip.
      * intros item Hitem. simpl.
        apply elem_of_cons in Hitem as [Heq|Hitem].
        { right. rewrite Heq. left. }
        destruct (Hall item Hitem) as [H|H]; [|right; now right].
        apply elem_of_union in H as [H|H]; [|now left].
        apply elem_of_singleton in H. right. rewrite H. left.
Qed.

Lemma NoDup_take {A} (n : nat) (l : list A) : NoDup l -> NoDup (take n l).
Proof.
  intros H. eapply sublist_NoDup; [exact H|]. apply sublist_take.
Qed.

(** What [fetch_news] gathers. *)
Definition gathered (api_key : option string) (rss cp : list NewsItem)
  : list NewsItem :=
  rss ++ (if api_key_set api_key then cp else []).

(** X19: the cache holds at most 20 items, no two of them with the same link,
    in the order they were gathered; and when no more than 20 were
    gathered, every link gathered is in the cache. *)
Theorem cached_news_is_unique (api_key : option string)
  (rss cp : list NewsItem) :
  let cached := fetch_news api_key rss cp in
  (length cached <= 20)%nat
  /\ NoDup (map link cached)
  /\ cached `sublist_of` gathered api_key rss cp
  /\ ((length (gathered api_key rss cp) <= 20)%nat ->
      forall item, item ∈ gathered api_key rss cp ->
                   link item ∈ map link cached).
Proof.
  simpl. unfold fetch_news.
  assert (Hall : concat (rss :: (if api_key_set api_key then [cp] else []))
                 = gathered api_key rss cp).
  { unfold gathered. destruct (api_key_set api_key); simpl.
    - now rewrite app_nil_r.
    - reflexivity. }
  rewrite Hall.
  destruct (unique_news_spec (gathered api_key rss cp) ∅)
    as (Hnd & _ & Hsub & Hcover).
  split; [rewrite length_take; lia|]. split; [|split].
  - change (NoDup (link <$> take 20 (unique_news ∅
                                       (gathered api_key rss cp)))).
    rewrite fmap_take. apply NoDup_take, Hnd.
  - etransitivity; [apply sublist_take|exact Hsub].
  - intros Hlen item Hitem.
    rewrite take_ge.
    + destruct (Hcover item Hitem) as [H|H]; [|exact H].
      now apply elem_of_empty in H.
    + apply sublist_length in Hsub. lia.
Qed.

End NewsProofs.
